(** * todo-cli: a shallow embedding of [todo.py] and its persistence contract

    The program keeps its tasks in [tasks.json].  Every command loads the
    whole file with [json.load], works on the loaded Python value and, when
    it changed something, rewrites the whole file with
    [json.dump(tasks, f, indent=4)].

    The development follows the program bottom-up:
    - text and JSON values as Python has them after [json.load];
    - the encoder behind [json.dump(..., indent=4)] and the decoder behind
      [json.load] (CPython's [json] package with its default settings);
    - the dynamic operations the commands apply to the loaded value
      (truth value, iteration, subscripting, [max], [sorted], ...), with
      the exceptions Python raises;
    - the helper functions and the four commands of [todo.py], written in
      a small state-and-exception monad over the file and the console;
    - stores of well-formed tasks, the typed view in which the contract is
      stated;
    - properties of the file format (what is written is read back, the
      decoder always answers), of the commands on a store, and last the
      statements of the persistence contract, C1 to C10.

    Modelling boundaries.  The content of the file is the text that
    reading it yields; a file that is not text in the encoding of the
    locale has no content here (reading it raises [UnicodeDecodeError],
    which [load_tasks] does not catch).  Number literals with a fraction
    or an exponent are parsed and kept as literals; an operation that
    needs their IEEE value ends in [Unmodelled], as does the ordering of
    ids that are not integers and text that the Unicode case tables would
    have to interpret.  Limits of the interpreter (recursion depth, digits
    of an integer) are not modelled: statements about files that the
    decoder rejects keep clear of them (see [within_limits]).  Of [rich]
    the model has the calls and the way they fail: the program hands the
    user's text to [console.print] unescaped, where it is read as console
    markup; text without an opening bracket is printed as it is, text
    that starts with a closing tag raises [MarkupError], and other text
    with brackets ends in [Unmodelled]. *)

From Stdlib Require Import NArith ZArith List Lia Bool String Ascii.
From Stdlib Require Import DecimalFacts DecimalN.
From Stdlib Require Import Sorting.Permutation Sorting.Sorted.
Import ListNotations.

Local Open Scope N_scope.

(* ================================================================== *)
(** ** Text *)

(** A Python [str] is a sequence of Unicode code points. *)
Definition text := list N.

(** Literals of the source are written as Rocq strings. *)
Definition u (s : string) : text :=
  List.map N_of_ascii (list_ascii_of_string s).

Definition text_eqb (a b : text) : bool :=
  if list_eq_dec N.eq_dec a b then true else false.

Definition is_high_surrogate (c : N) : bool := (55296 <=? c) && (c <=? 56319).
Definition is_low_surrogate (c : N) : bool := (56320 <=? c) && (c <=? 57343).

(** A character that [json.dump] followed by [json.load] gives back: a code
    point of the Unicode range that is not a high surrogate (the decoder
    joins a high surrogate escape with a following low one).  Text from
    the command line or from the clock has no other characters: bytes that
    are not UTF-8 arrive as low surrogates. *)
Definition plain_char (c : N) : bool :=
  (c <? 1114112) && negb (is_high_surrogate c).

Definition plain_text (s : text) : Prop := Forall (fun c => plain_char c = true) s.

(* ================================================================== *)
(** ** JSON values, as Python objects *)

(** A number literal with a fraction or an exponent, or one of the
    constants [NaN], [Infinity], [-Infinity] that Python accepts. *)
Inductive float_lit :=
| FNaN
| FInf (negative : bool)
| FDec (negative : bool) (int_digits frac_digits : Decimal.uint) (exponent : Z).

(** [JObj] is a Python [dict]: keys in insertion order, no key twice. *)
#[warnings="-register-all"]
Inductive json :=
| JNull
| JBool (b : bool)
| JInt (z : Z)
| JFloat (f : float_lit)
| JStr (s : text)
| JArr (items : list json)
| JObj (members : list (text * json)).

Fixpoint lookup (k : text) (d : list (text * json)) : option json :=
  match d with
  | [] => None
  | (k', v) :: r => if text_eqb k k' then Some v else lookup k r
  end.

(** [d[k] = v] on a dict: an existing key keeps its place. *)
Fixpoint dict_set (d : list (text * json)) (k : text) (v : json)
  : list (text * json) :=
  match d with
  | [] => [(k, v)]
  | (k', v') :: r =>
      if text_eqb k k' then (k', v) :: r else (k', v') :: dict_set r k v
  end.

(** [dict(pairs)]. *)
Definition dict_of_pairs (pairs : list (text * json)) : list (text * json) :=
  fold_left (fun d kv => dict_set d (fst kv) (snd kv)) pairs [].

(* ================================================================== *)
(** ** The encoder: [json.dump(tasks, f, indent=4)] *)

Definition hexdigit (k : N) : N := if k <? 10 then 48 + k else 87 + k.

(** ['\\u{0:04x}'.format(n)] *)
Definition uescape (n : N) : text :=
  [92; 117; hexdigit (n / 4096); hexdigit ((n / 256) mod 16);
   hexdigit ((n / 16) mod 16); hexdigit (n mod 16)].

(** [encode_basestring_ascii], one character: the short escapes, printable
    ASCII as it is, the rest as [\uXXXX], a surrogate pair above the BMP. *)
Definition escape_char (c : N) : text :=
  if c =? 34 then [92; 34]
  else if c =? 92 then [92; 92]
  else if c =? 10 then [92; 110]
  else if c =? 13 then [92; 114]
  else if c =? 9 then [92; 116]
  else if c =? 12 then [92; 102]
  else if c =? 8 then [92; 98]
  else if (32 <=? c) && (c <=? 126) then [c]
  else if c <? 65536 then uescape c
  else
    let n := c - 65536 in
    uescape (N.lor 55296 (N.land (N.shiftr n 10) 1023))
    ++ uescape (N.lor 56320 (N.land n 1023)).

Definition encode_str (s : text) : text :=
  34 :: flat_map escape_char s ++ [34].

Fixpoint uint_text (d : Decimal.uint) : text :=
  match d with
  | Decimal.Nil => []
  | Decimal.D0 r => 48 :: uint_text r
  | Decimal.D1 r => 49 :: uint_text r
  | Decimal.D2 r => 50 :: uint_text r
  | Decimal.D3 r => 51 :: uint_text r
  | Decimal.D4 r => 52 :: uint_text r
  | Decimal.D5 r => 53 :: uint_text r
  | Decimal.D6 r => 54 :: uint_text r
  | Decimal.D7 r => 55 :: uint_text r
  | Decimal.D8 r => 56 :: uint_text r
  | Decimal.D9 r => 57 :: uint_text r
  end.

(** [int.__repr__] *)
Definition int_repr (z : Z) : text :=
  match z with
  | Zneg p => 45 :: uint_text (N.to_uint (Npos p))
  | _ => uint_text (N.to_uint (Z.to_N z))
  end.

Definition newline_indent (level : nat) : text := 10 :: repeat 32 (4 * level).

(** [_make_iterencode] with [indent=4]: item separator [","], key separator
    [": "].  [None] where a float would have to be printed. *)
Fixpoint encode (level : nat) (v : json) {struct v} : option text :=
  match v with
  | JNull => Some (u "null")
  | JBool true => Some (u "true")
  | JBool false => Some (u "false")
  | JInt z => Some (int_repr z)
  | JFloat _ => None
  | JStr s => Some (encode_str s)
  | JArr [] => Some (u "[]")
  | JArr l =>
      match
        (fix items (l : list json) : option text :=
           match l with
           | [] => Some []
           | x :: r =>
               match encode (S level) x, items r with
               | Some a, Some b =>
                   Some (newline_indent (S level) ++ a
                         ++ match r with [] => [] | _ => [44] end ++ b)
               | _, _ => None
               end
           end) l
      with
      | Some b => Some (91 :: b ++ newline_indent level ++ [93])
      | None => None
      end
  | JObj [] => Some (u "{}")
  | JObj d =>
      match
        (fix members (d : list (text * json)) : option text :=
           match d with
           | [] => Some []
           | (k, x) :: r =>
               match encode (S level) x, members r with
               | Some a, Some b =>
                   Some (newline_indent (S level) ++ encode_str k ++ [58; 32]
                         ++ a ++ match r with [] => [] | _ => [44] end ++ b)
               | _, _ => None
               end
           end) d
      with
      | Some b => Some (123 :: b ++ newline_indent level ++ [125])
      | None => None
      end
  end.

Definition json_dumps (v : json) : option text := encode 0 v.

(* ================================================================== *)
(** ** The decoder: [json.load(f)] *)

(** What a scanning function returns: a value and the text after it, the
    exception [json.JSONDecodeError], or the model's recursion budget used
    up (shown below never to happen for the budget [json_loads] gives). *)
Inductive scan (A : Type) :=
| Scanned (a : A) (rest : text)
| DecodeError
| OutOfFuel.
Arguments Scanned {A} a rest.
Arguments DecodeError {A}.
Arguments OutOfFuel {A}.

Definition is_ws (c : N) : bool :=
  (c =? 32) || (c =? 9) || (c =? 10) || (c =? 13).

Fixpoint skip_ws (s : text) : text :=
  match s with
  | c :: r => if is_ws c then skip_ws r else s
  | [] => []
  end.

Definition hexval (c : N) : option N :=
  if (48 <=? c) && (c <=? 57) then Some (c - 48)
  else if (97 <=? c) && (c <=? 102) then Some (c - 87)
  else if (65 <=? c) && (c <=? 70) then Some (c - 55)
  else None.

Definition hex4 (a b c d : N) : option N :=
  match hexval a, hexval b, hexval c, hexval d with
  | Some x, Some y, Some z, Some w => Some (((x * 16 + y) * 16 + z) * 16 + w)
  | _, _, _, _ => None
  end.

Definition simple_escape (e : N) : option N :=
  if e =? 34 then Some 34
  else if e =? 92 then Some 92
  else if e =? 47 then Some 47
  else if e =? 98 then Some 8
  else if e =? 102 then Some 12
  else if e =? 110 then Some 10
  else if e =? 114 then Some 13
  else if e =? 116 then Some 9
  else None.

(** [scanstring] in strict mode, from just after the opening quote; [acc]
    holds the characters read so far, last first.  [None] is
    [JSONDecodeError]: unterminated string, control character, bad escape. *)
Fixpoint scanstring (s : text) (acc : text) {struct s} : option (text * text) :=
  match s with
  | [] => None
  | c :: r =>
      if c =? 34 then Some (rev acc, r)
      else if c =? 92 then
        match r with
        | [] => None
        | e :: r1 =>
            if e =? 117 then
              match r1 with
              | h1 :: h2 :: h3 :: h4 :: r2 =>
                  match hex4 h1 h2 h3 h4 with
                  | None => None
                  | Some c1 =>
                      match r2 with
                      | b :: uu :: g1 :: g2 :: g3 :: g4 :: r3 =>
                          if is_high_surrogate c1 && (b =? 92) && (uu =? 117)
                          then
                            match hex4 g1 g2 g3 g4 with
                            | None => None
                            | Some c2 =>
                                if is_low_surrogate c2
                                then scanstring r3
                                       (65536 + N.lor (N.shiftl (c1 - 55296) 10)
                                                      (c2 - 56320) :: acc)
                                else scanstring r2 (c1 :: acc)
                            end
                          else scanstring r2 (c1 :: acc)
                      | _ => scanstring r2 (c1 :: acc)
                      end
                  end
              | _ => None
              end
            else
              match simple_escape e with
              | Some x => scanstring r1 (x :: acc)
              | None => None
              end
        end
      else if c <=? 31 then None
      else scanstring r (c :: acc)
  end.

Definition digit_cons (c : N) : option (Decimal.uint -> Decimal.uint) :=
  if c =? 48 then Some Decimal.D0
  else if c =? 49 then Some Decimal.D1
  else if c =? 50 then Some Decimal.D2
  else if c =? 51 then Some Decimal.D3
  else if c =? 52 then Some Decimal.D4
  else if c =? 53 then Some Decimal.D5
  else if c =? 54 then Some Decimal.D6
  else if c =? 55 then Some Decimal.D7
  else if c =? 56 then Some Decimal.D8
  else if c =? 57 then Some Decimal.D9
  else None.

Definition is_digit (c : N) : bool := (48 <=? c) && (c <=? 57).

(** The longest run of ASCII digits at the head of [s]. *)
Fixpoint scan_digits (s : text) : Decimal.uint * text :=
  match s with
  | [] => (Decimal.Nil, [])
  | c :: r =>
      match digit_cons c with
      | Some D => let (d, r') := scan_digits r in (D d, r')
      | None => (Decimal.Nil, s)
      end
  end.

(** The integer part [0|[1-9][0-9]*]. *)
Definition scan_int_part (s : text) : option (Decimal.uint * text) :=
  match s with
  | [] => None
  | c :: r =>
      if c =? 48 then Some (Decimal.D0 Decimal.Nil, r)
      else if is_digit c then Some (scan_digits s)
      else None
  end.

(** The optional fraction [\.[0-9]+]. *)
Definition scan_frac (s : text) : option (Decimal.uint * text) :=
  match s with
  | c :: d :: _ =>
      if (c =? 46) && is_digit d then Some (scan_digits (tl s)) else None
  | _ => None
  end.

(** The optional exponent [[eE][-+]?[0-9]+]. *)
Definition scan_exp (s : text) : option (Z * text) :=
  match s with
  | c :: r =>
      if (c =? 101) || (c =? 69) then
        match r with
        | sg :: d :: _ =>
            if ((sg =? 45) || (sg =? 43)) && is_digit d then
              let (ds, r') := scan_digits (tl r) in
              Some ((if sg =? 45 then Z.opp else id) (Z.of_N (N.of_uint ds)), r')
            else if is_digit sg then
              let (ds, r') := scan_digits r in Some (Z.of_N (N.of_uint ds), r')
            else None
        | [d] =>
            if is_digit d then
              let (ds, r') := scan_digits r in Some (Z.of_N (N.of_uint ds), r')
            else None
        | [] => None
        end
      else None
  | [] => None
  end.

(** [_match_number]: an [int] when there is neither fraction nor exponent,
    else a [float]. *)
Definition match_number (s : text) : option (json * text) :=
  let (neg, s1) :=
    match s with
    | c :: r => if c =? 45 then (true, r) else (false, s)
    | [] => (false, s)
    end in
  match scan_int_part s1 with
  | None => None
  | Some (ip, s2) =>
      let (fp, s3) :=
        match scan_frac s2 with
        | Some (d, r) => (Some d, r)
        | None => (None, s2)
        end in
      let (ep, s4) :=
        match scan_exp s3 with
        | Some (e, r) => (Some e, r)
        | None => (None, s3)
        end in
      match fp, ep with
      | None, None =>
          let n := Z.of_N (N.of_uint ip) in
          Some (JInt (if neg then Z.opp n else n), s4)
      | _, _ =>
          Some (JFloat (FDec neg ip
                          (match fp with Some d => d | None => Decimal.Nil end)
                          (match ep with Some e => e | None => 0%Z end)), s4)
      end
  end.

(** [s] starts with the characters of [p]; the rest of [s] when it does. *)
Fixpoint strip_prefix (p s : text) : option text :=
  match p, s with
  | [], _ => Some s
  | a :: p', b :: s' => if a =? b then strip_prefix p' s' else None
  | _ :: _, [] => None
  end.

(** The values [_scan_once] recognises without recursion, in its order:
    [null], [true], [false], a number, then [NaN], [Infinity],
    [-Infinity]. *)
Definition scan_atom (s : text) : option (json * text) :=
  match strip_prefix (u "null") s with
  | Some r => Some (JNull, r)
  | None =>
  match strip_prefix (u "true") s with
  | Some r => Some (JBool true, r)
  | None =>
  match strip_prefix (u "false") s with
  | Some r => Some (JBool false, r)
  | None =>
  match match_number s with
  | Some vr => Some vr
  | None =>
  match strip_prefix (u "NaN") s with
  | Some r => Some (JFloat FNaN, r)
  | None =>
  match strip_prefix (u "Infinity") s with
  | Some r => Some (JFloat (FInf false), r)
  | None =>
  match strip_prefix (u "-Infinity") s with
  | Some r => Some (JFloat (FInf true), r)
  | None => None
  end end end end end end end.

(** [scan_once], [JSONArray] and [JSONObject].  [parse_items] starts at the
    first character of an item, [parse_members] just after the opening
    quote of a key. *)
Fixpoint scan_once (fuel : nat) (s : text) {struct fuel} : scan json :=
  match fuel with
  | O => OutOfFuel
  | S f =>
      match s with
      | [] => DecodeError
      | c :: r =>
          if c =? 34 then
            match scanstring r [] with
            | Some (str, r') => Scanned (JStr str) r'
            | None => DecodeError
            end
          else if c =? 123 then
            match skip_ws r with
            | [] => DecodeError
            | c1 :: r1 =>
                if c1 =? 125 then Scanned (JObj []) r1
                else if c1 =? 34 then
                  match parse_members f r1 with
                  | Scanned ps r2 => Scanned (JObj (dict_of_pairs ps)) r2
                  | DecodeError => DecodeError
                  | OutOfFuel => OutOfFuel
                  end
                else DecodeError
            end
          else if c =? 91 then
            match skip_ws r with
            | [] => DecodeError
            | c1 :: r1 =>
                if c1 =? 93 then Scanned (JArr []) r1
                else
                  match parse_items f (c1 :: r1) with
                  | Scanned vs r2 => Scanned (JArr vs) r2
                  | DecodeError => DecodeError
                  | OutOfFuel => OutOfFuel
                  end
            end
          else
            match scan_atom s with
            | Some (v, r') => Scanned v r'
            | None => DecodeError
            end
      end
  end

with parse_items (fuel : nat) (s : text) {struct fuel} : scan (list json) :=
  match fuel with
  | O => OutOfFuel
  | S f =>
      match scan_once f s with
      | Scanned v r =>
          match skip_ws r with
          | [] => DecodeError
          | c :: r1 =>
              if c =? 93 then Scanned [v] r1
              else if c =? 44 then
                match parse_items f (skip_ws r1) with
                | Scanned vs r2 => Scanned (v :: vs) r2
                | DecodeError => DecodeError
                | OutOfFuel => OutOfFuel
                end
              else DecodeError
          end
      | DecodeError => DecodeError
      | OutOfFuel => OutOfFuel
      end
  end

with parse_members (fuel : nat) (s : text) {struct fuel}
  : scan (list (text * json)) :=
  match fuel with
  | O => OutOfFuel
  | S f =>
      match scanstring s [] with
      | None => DecodeError
      | Some (k, r1) =>
          match skip_ws r1 with
          | [] => DecodeError
          | c :: r2 =>
              if c =? 58 then
                match scan_once f (skip_ws r2) with
                | Scanned v r3 =>
                    match skip_ws r3 with
                    | [] => DecodeError
                    | c1 :: r4 =>
                        if c1 =? 125 then Scanned [(k, v)] r4
                        else if c1 =? 44 then
                          match skip_ws r4 with
                          | [] => DecodeError
                          | c2 :: r5 =>
                              if c2 =? 34 then
                                match parse_members f r5 with
                                | Scanned ps r6 => Scanned ((k, v) :: ps) r6
                                | DecodeError => DecodeError
                                | OutOfFuel => OutOfFuel
                                end
                              else DecodeError
                          end
                        else DecodeError
                    end
                | DecodeError => DecodeError
                | OutOfFuel => OutOfFuel
                end
              else DecodeError
          end
      end
  end.

(** [json.loads]: no byte-order mark, one value between optional
    whitespace, nothing after it.  [None] is [json.JSONDecodeError]. *)
Definition starts_with_bom (s : text) : bool :=
  match s with
  | c :: _ => c =? 65279
  | [] => false
  end.

Definition json_loads (s : text) : option json :=
  if starts_with_bom s then None
  else
    match scan_once (2 * List.length s + 1) (skip_ws s) with
    | Scanned v r => match skip_ws r with [] => Some v | _ :: _ => None end
    | _ => None
    end.

(* ================================================================== *)
(** ** Python's dynamic operations on loaded values *)

(** The exceptions of Python's own operations, and [rich]'s
    [MarkupError]. *)
Inductive exn :=
  TypeError | KeyError | AttributeError | ValueError | MarkupError.

(** How a computation ends: a value, an uncaught exception,
    [typer.Exit(code)], or a step whose Python meaning the model does not
    cover (float arithmetic, ordering of ids that are not integers, text
    that Unicode case tables would have to interpret, console markup
    other than a leading closing tag). *)
Inductive result (A : Type) :=
| Ret (a : A)
| Raise (e : exn)
| Exit (code : Z)
| Unmodelled.
Arguments Ret {A} a.
Arguments Raise {A} e.
Arguments Exit {A} code.
Arguments Unmodelled {A}.

Definition rbind {A B} (r : result A) (k : A -> result B) : result B :=
  match r with
  | Ret a => k a
  | Raise e => Raise e
  | Exit c => Exit c
  | Unmodelled => Unmodelled
  end.

(** A float literal denotes zero when its digits are all zero or when it is
    at most [2^-1075], which rounds to zero. *)
Definition float_is_zero (f : float_lit) : bool :=
  match f with
  | FNaN => false
  | FInf _ => false
  | FDec _ ip fp e =>
      let m := N.of_uint (Decimal.app ip fp) in
      let e' := (e - Z.of_nat (Decimal.nb_digits fp))%Z in
      if m =? 0 then true
      else if (0 <=? e')%Z then false
      else (Z.of_N m * 2 ^ 1075 <=? 10 ^ (- e'))%Z
  end.

(** [bool(v)], as [not tasks] uses it. *)
Definition truthy (v : json) : bool :=
  match v with
  | JNull => false
  | JBool b => b
  | JInt z => negb (z =? 0)%Z
  | JFloat f => negb (float_is_zero f)
  | JStr s => match s with [] => false | _ => true end
  | JArr l => match l with [] => false | _ => true end
  | JObj d => match d with [] => false | _ => true end
  end.

(** [iter(v)]: a list yields its items, a [str] its characters, a [dict]
    its keys; the other values are not iterable. *)
Definition py_iter (v : json) : result (list json) :=
  match v with
  | JArr l => Ret l
  | JStr s => Ret (List.map (fun c => JStr [c]) s)
  | JObj d => Ret (List.map (fun kv => JStr (fst kv)) d)
  | _ => Raise TypeError
  end.

(** [len(v)] *)
Definition py_len (v : json) : result nat :=
  match v with
  | JArr l => Ret (List.length l)
  | JStr s => Ret (List.length s)
  | JObj d => Ret (List.length d)
  | _ => Raise TypeError
  end.

(** [v[key]] for a [str] key: only a [dict] can be subscripted by it. *)
Definition getitem (v : json) (key : text) : result json :=
  match v with
  | JObj d =>
      match lookup key d with
      | Some x => Ret x
      | None => Raise KeyError
      end
  | _ => Raise TypeError
  end.

(** [v[key] = x] for a [str] key. *)
Definition setitem (v : json) (key : text) (x : json) : result json :=
  match v with
  | JObj d => Ret (JObj (dict_set d key x))
  | _ => Raise TypeError
  end.

(** [v.append(x)] *)
Definition py_append (v x : json) : result json :=
  match v with
  | JArr l => Ret (JArr (l ++ [x]))
  | _ => Raise AttributeError
  end.

(** [v == n] for an [int] [n].  [True == 1] and [False == 0] hold in
    Python. *)
Definition py_eq_int (v : json) (n : Z) : result bool :=
  match v with
  | JInt z => Ret (z =? n)%Z
  | JBool b => Ret ((if b then 1 else 0) =? n)%Z
  | JFloat _ => Unmodelled
  | _ => Ret false
  end.

(** [v == s] for a [str] [s]. *)
Definition py_eq_str (v : json) (s : text) : bool :=
  match v with
  | JStr t => text_eqb t s
  | _ => false
  end.

Definition ascii_upper (c : N) : N :=
  if (97 <=? c) && (c <=? 122) then c - 32 else c.
Definition ascii_lower (c : N) : N :=
  if (65 <=? c) && (c <=? 90) then c + 32 else c.

(** [v.capitalize()]: defined on [str]; modelled on ASCII text. *)
Definition capitalize (v : json) : result text :=
  match v with
  | JStr s =>
      if forallb (fun c => c <? 128) s then
        match s with
        | [] => Ret []
        | c :: r => Ret (ascii_upper c :: List.map ascii_lower r)
        end
      else Unmodelled
  | _ => Raise AttributeError
  end.

(** [max(task['id'] for task in tasks)]: the generator evaluates
    [task['id']] item by item, [max] keeps the larger with [>]. *)
Fixpoint max_id (elems : list json) (cur : option Z) : result Z :=
  match elems with
  | [] =>
      match cur with
      | Some m => Ret m
      | None => Raise ValueError
      end
  | t :: r =>
      rbind (getitem t (u "id")) (fun v =>
        match v with
        | JInt i =>
            max_id r (Some (match cur with
                            | None => i
                            | Some m => if (i >? m)%Z then i else m
                            end))
        | _ => Unmodelled
        end)
  end.

(** [next((task for task in tasks if task['id'] == task_id), None)], with
    the position of the task found: the object found is the list's own
    item, not a copy. *)
Fixpoint find_task (elems : list json) (task_id : Z) (i : nat)
  : result (option (nat * json)) :=
  match elems with
  | [] => Ret None
  | t :: r =>
      rbind (getitem t (u "id")) (fun v =>
      rbind (py_eq_int v task_id) (fun b =>
        if b then Ret (Some (i, t)) else find_task r task_id (S i)))
  end.

(** [[task for task in tasks if task['id'] != task_id]] *)
Fixpoint keep_others (elems : list json) (task_id : Z) : result (list json) :=
  match elems with
  | [] => Ret []
  | t :: r =>
      rbind (getitem t (u "id")) (fun v =>
      rbind (py_eq_int v task_id) (fun b =>
      rbind (keep_others r task_id) (fun rest =>
        Ret (if b then rest else t :: rest))))
  end.

Fixpoint list_set {A} (l : list A) (i : nat) (x : A) : list A :=
  match l, i with
  | [], _ => []
  | _ :: r, O => x :: r
  | y :: r, S j => y :: list_set r j x
  end.

(** The keys [x['id']] of all items, in order. *)
Fixpoint sort_keys (elems : list json) : result (list (json * json)) :=
  match elems with
  | [] => Ret []
  | t :: r =>
      rbind (getitem t (u "id")) (fun v =>
      rbind (sort_keys r) (fun rest => Ret ((v, t) :: rest)))
  end.

Fixpoint int_keys (l : list (json * json)) : option (list (Z * json)) :=
  match l with
  | [] => Some []
  | (JInt i, t) :: r =>
      match int_keys r with
      | Some rest => Some ((i, t) :: rest)
      | None => None
      end
  | _ :: _ => None
  end.

Fixpoint insert_by_key (x : Z * json) (l : list (Z * json))
  : list (Z * json) :=
  match l with
  | [] => [x]
  | y :: r =>
      if (fst x <=? fst y)%Z then x :: y :: r else y :: insert_by_key x r
  end.

(** [sorted] is stable; on integer keys a stable sort has one possible
    result, computed here by insertion. *)
Definition stable_sort (l : list (Z * json)) : list (Z * json) :=
  fold_right insert_by_key [] l.

(** [sorted(tasks, key=lambda x: x['id'])] *)
Definition sorted_by_id (tasks : json) : result (list json) :=
  rbind (py_iter tasks) (fun elems =>
  rbind (sort_keys elems) (fun keyed =>
    match int_keys keyed with
    | Some l => Ret (List.map snd (stable_sort l))
    | None => Unmodelled
    end)).

(* ================================================================== *)
(** ** The world of a command: the file and what was printed *)

(** The texts handed to [console.print]. *)
Inductive message :=
| MsgAdded (description : text)   (* "Added task: '<description>'" *)
| MsgNoTasks                      (* "No tasks found. Add one with 'add' command!" *)
| MsgNotFound (task_id : Z)       (* "Error: Task with ID <id> not found." *)
| MsgAlreadyDone (task_id : Z)    (* "Warning: Task <id> is already marked as done." *)
| MsgCompleted (task_id : Z)      (* "Task <id> marked as complete!" *)
| MsgDeleted (task_id : Z).       (* "Task <id> deleted successfully." *)

(** One [table.add_row(...)]: [str(task['id'])], the status cell (green
    with a check mark when the status is ['done'], yellow with an
    hourglass otherwise, then the capitalised status) and the
    description. *)
Record row := mkRow {
  row_id : text;
  row_done_style : bool;
  row_label : text;
  row_description : text
}.

Inductive event :=
| EvWrite (content : text)
| EvPrint (m : message)
| EvTable (rows : list row).

(** [tasks_file] is the content of [tasks.json], [None] when the file does
    not exist; [trace] lists the writes and prints so far. *)
Record world := mkWorld {
  tasks_file : option text;
  trace : list event
}.

Definition M (A : Type) := world -> result A * world.

Definition ret {A} (a : A) : M A := fun w => (Ret a, w).

Definition bind {A B} (m : M A) (k : A -> M B) : M B :=
  fun w =>
    match m w with
    | (Ret a, w') => k a w'
    | (Raise e, w') => (Raise e, w')
    | (Exit c, w') => (Exit c, w')
    | (Unmodelled, w') => (Unmodelled, w')
    end.

Definition lift {A} (r : result A) : M A := fun w => (r, w).

Notation "x <- m ;; k" := (bind m (fun x => k))
  (at level 61, m at next level, right associativity).
Notation "m ;;; k" := (bind m (fun _ => k))
  (at level 61, right associativity).

(** *** Text on the console

    The program passes the user's text to [rich] as it is, inside the
    message of [add] and in the cells of the table of [list], and [rich]
    reads it as console markup.  [rich.markup.render] returns text
    without an opening bracket unchanged.  Otherwise it looks for tags: an
    opening bracket, one of the characters [a-z#/@], and what follows up
    to the next closing bracket, without another opening bracket in
    between.  A tag that starts with [/] closes an open tag, and raises
    [MarkupError] when no tag is open, as at the start of the user's text.
    What [rich] does with other tags is not modelled. *)

(** A character that the console prints: not an opening bracket, and a
    Unicode scalar value, which the encoding of the terminal takes. *)
Definition console_char (c : N) : bool :=
  negb (c =? 91) && (c <? 1114112)
  && negb (is_high_surrogate c) && negb (is_low_surrogate c).

Definition console_safe (s : text) : bool := forallb console_char s.

(** A closing bracket comes before any opening bracket. *)
Fixpoint tag_ends (s : text) : bool :=
  match s with
  | [] => false
  | c :: r =>
      if c =? 93 then true else if c =? 91 then false else tag_ends r
  end.

(** The text starts with a closing tag, such as [[/red]] or [[/]]. *)
Definition starts_with_closing_tag (s : text) : bool :=
  match s with
  | c :: d :: r => (c =? 91) && (d =? 47) && tag_ends r
  | _ => false
  end.

(** What becomes of user text handed to [rich]. *)
Definition render_markup (s : text) : result unit :=
  if console_safe s then Ret tt
  else if starts_with_closing_tag s then Raise MarkupError
  else Unmodelled.

(** A row of the table prints when both cells of text do: the status cell
    is the capitalised status between colour tags, the description cell is
    the description alone.  Its outcome is decided when the status prints
    and the description prints or starts with a closing tag. *)
Definition row_safe (r : row) : bool :=
  console_safe (row_label r) && console_safe (row_description r).

Definition row_decided (r : row) : bool :=
  console_safe (row_label r)
  && (console_safe (row_description r)
      || starts_with_closing_tag (row_description r)).

(** [console.print(table)] renders every cell before it prints anything. *)
Definition render_table (rows : list row) : result unit :=
  if forallb row_safe rows then Ret tt
  else if forallb row_decided rows then Raise MarkupError
  else Unmodelled.

(** [console.print(message)]: only the message of [add] holds text of the
    user; the others hold the id, an [int]. *)
Definition console_print (m : message) : M unit :=
  fun w =>
    let printed := (Ret tt, mkWorld (tasks_file w) (trace w ++ [EvPrint m])) in
    match m with
    | MsgAdded description =>
        match render_markup description with
        | Ret _ => printed
        | Raise e => (Raise e, w)
        | Exit c => (Exit c, w)
        | Unmodelled => (Unmodelled, w)
        end
    | _ => printed
    end.

Definition console_print_table (rows : list row) : M unit :=
  fun w =>
    match render_table rows with
    | Ret _ => (Ret tt, mkWorld (tasks_file w) (trace w ++ [EvTable rows]))
    | Raise e => (Raise e, w)
    | Exit c => (Exit c, w)
    | Unmodelled => (Unmodelled, w)
    end.

Definition typer_exit {A} (code : Z) : M A := lift (Exit code).

(** The exit status of the process: 0 after a normal return, the code of
    [typer.Exit], 1 after an uncaught exception. *)
Definition exit_status {A} (r : result A) : option Z :=
  match r with
  | Ret _ => Some 0%Z
  | Exit c => Some c
  | Raise _ => Some 1%Z
  | Unmodelled => None
  end.

(* ================================================================== *)
(** ** [todo.py] *)

(** [load_tasks]: the empty list when the file is missing or
    [json.JSONDecodeError] is raised, else whatever [json.load] returns. *)
Definition load_tasks : M json :=
  fun w =>
    match tasks_file w with
    | None => (Ret (JArr []), w)
    | Some content =>
        match json_loads content with
        | Some v => (Ret v, w)
        | None => (Ret (JArr []), w)
        end
    end.

(** [save_tasks]: the file is replaced by [json.dump(tasks, f, indent=4)]. *)
Definition save_tasks (tasks : json) : M unit :=
  fun w =>
    match json_dumps tasks with
    | Some t => (Ret tt, mkWorld (Some t) (trace w ++ [EvWrite t]))
    | None => (Unmodelled, w)
    end.

Definition get_next_id : M Z :=
  tasks <- load_tasks ;;
  if negb (truthy tasks) then ret 1%Z
  else
    elems <- lift (py_iter tasks) ;;
    m <- lift (max_id elems None) ;;
    ret (m + 1)%Z.

(** [add]; [now] is [datetime.now().strftime("%Y-%m-%d %H:%M")]. *)
Definition add (description now : text) : M unit :=
  tasks <- load_tasks ;;
  new_id <- get_next_id ;;
  let new_task :=
    JObj [(u "id", JInt new_id);
          (u "description", JStr description);
          (u "status", JStr (u "pending"));
          (u "created_at", JStr now)] in
  tasks' <- lift (py_append tasks new_task) ;;
  save_tasks tasks' ;;;
  console_print (MsgAdded description).

(** The body of the loop of [list] for one task: [None] when the task is
    skipped. *)
Definition render_row (hide_done : bool) (task : json) : result (option row) :=
  rbind (getitem task (u "status")) (fun st =>
    let is_done := py_eq_str st (u "done") in
    if hide_done && is_done then Ret None
    else
      rbind (capitalize st) (fun label =>
      rbind (getitem task (u "id")) (fun i =>
      rbind (getitem task (u "description")) (fun d =>
        match i, d with
        | JInt z, JStr ds => Ret (Some (mkRow (int_repr z) is_done label ds))
        | _, _ => Unmodelled
        end)))).

Fixpoint render_rows (hide_done : bool) (tasks : list json)
  : result (list row) :=
  match tasks with
  | [] => Ret []
  | t :: r =>
      rbind (render_row hide_done t) (fun o =>
      rbind (render_rows hide_done r) (fun rest =>
        Ret (match o with Some x => x :: rest | None => rest end)))
  end.

(** [list] *)
Definition list_tasks (hide_done : bool) : M unit :=
  tasks <- load_tasks ;;
  if negb (truthy tasks) then console_print MsgNoTasks
  else
    ordered <- lift (sorted_by_id tasks) ;;
    rows <- lift (render_rows hide_done ordered) ;;
    console_print_table rows.

(** [done] *)
Definition done (task_id : Z) : M unit :=
  tasks <- load_tasks ;;
  elems <- lift (py_iter tasks) ;;
  found <- lift (find_task elems task_id 0) ;;
  match found with
  | None => console_print (MsgNotFound task_id) ;;; typer_exit 1%Z
  | Some (i, task_to_complete) =>
      if negb (truthy task_to_complete) then
        console_print (MsgNotFound task_id) ;;; typer_exit 1%Z
      else
        st <- lift (getitem task_to_complete (u "status")) ;;
        if py_eq_str st (u "done") then
          console_print (MsgAlreadyDone task_id)
        else
          t' <- lift (setitem task_to_complete (u "status") (JStr (u "done"))) ;;
          save_tasks (match tasks with
                      | JArr l => JArr (list_set l i t')
                      | _ => tasks
                      end) ;;;
          console_print (MsgCompleted task_id)
  end.

(** [delete] *)
Definition delete (task_id : Z) : M unit :=
  tasks <- load_tasks ;;
  original_count <- lift (py_len tasks) ;;
  elems <- lift (py_iter tasks) ;;
  kept <- lift (keep_others elems task_id) ;;
  if Nat.eqb (List.length kept) original_count then
    console_print (MsgNotFound task_id) ;;; typer_exit 1%Z
  else
    save_tasks (JArr kept) ;;;
    console_print (MsgDeleted task_id).

(* ================================================================== *)
(** ** Stores of well-formed tasks *)

Inductive status := Pending | Done.

(** A task as [add] creates it. *)
Record task := mkTask {
  t_id : Z;
  t_description : text;
  t_status : status;
  t_created_at : text
}.

Definition status_text (s : status) : text :=
  match s with
  | Pending => u "pending"
  | Done => u "done"
  end.

(** The [dict] of a task, keys in the order [add] writes them. *)
Definition task_json (t : task) : json :=
  JObj [(u "id", JInt (t_id t));
        (u "description", JStr (t_description t));
        (u "status", JStr (status_text (t_status t)));
        (u "created_at", JStr (t_created_at t))].

Definition store_json (ts : list task) : json := JArr (List.map task_json ts).

(** The texts of a well-formed task are ones the file format gives back. *)
Definition well_formed (t : task) : Prop :=
  plain_text (t_description t) /\ plain_text (t_created_at t).

Definition ids (ts : list task) : list Z := List.map t_id ts.

(** The store of world [w] is [ts]: that is what [load_tasks] returns. *)
Definition holds (w : world) (ts : list task) : Prop :=
  fst (load_tasks w) = Ret (store_json ts).

Definition mark_done (t : task) : task :=
  mkTask (t_id t) (t_description t) Done (t_created_at t).

Definition is_pending (t : task) : bool :=
  match t_status t with Pending => true | Done => false end.

(** The specification's [next_id]. *)
Definition spec_next_id (ts : list task) : Z :=
  match ids ts with
  | [] => 1
  | i :: r => 1 + fold_right Z.max i r
  end%Z.

(** The table row of a task. *)
Definition row_of (t : task) : row :=
  mkRow (int_repr (t_id t))
        (negb (is_pending t))
        (match t_status t with Pending => u "Pending" | Done => u "Done" end)
        (t_description t).

(** The contents written to the file so far. *)
Definition writes (w : world) : list text :=
  flat_map (fun e => match e with EvWrite c => [c] | _ => [] end) (trace w).

(** Values that [json.dump] prints and [json.load] reads back as they are:
    no floats, plain text, no key twice in a [dict]. *)
Fixpoint dumpable (v : json) : Prop :=
  match v with
  | JFloat _ => False
  | JStr s => plain_text s
  | JArr l =>
      (fix all (l : list json) : Prop :=
         match l with
         | [] => True
         | x :: r => dumpable x /\ all r
         end) l
  | JObj d =>
      NoDup (List.map fst d) /\
      (fix all (d : list (text * json)) : Prop :=
         match d with
         | [] => True
         | (k, x) :: r => plain_text k /\ dumpable x /\ all r
         end) d
  | _ => True
  end.

(** The item and member loops of [encode], by name. *)
Fixpoint encode_items (level : nat) (l : list json) : option text :=
  match l with
  | [] => Some []
  | x :: r =>
      match encode (S level) x, encode_items level r with
      | Some a, Some b =>
          Some (newline_indent (S level) ++ a
                ++ match r with [] => [] | _ => [44] end ++ b)
      | _, _ => None
      end
  end.

Fixpoint encode_members (level : nat) (d : list (text * json)) : option text :=
  match d with
  | [] => Some []
  | (k, x) :: r =>
      match encode (S level) x, encode_members level r with
      | Some a, Some b =>
          Some (newline_indent (S level) ++ encode_str k ++ [58; 32]
                ++ a ++ match r with [] => [] | _ => [44] end ++ b)
      | _, _ => None
      end
  end.

(** A check of [P] on every number below [n]. *)
Fixpoint all_below (P : N -> bool) (n : nat) : bool :=
  match n with
  | O => true
  | S m => P (N.of_nat m) && all_below P m
  end.

(** After a value the encoder writes a comma, a newline, or nothing. *)
Definition follow_ok (rest : text) : Prop :=
  match rest with
  | [] => True
  | c :: _ => c = 44 \/ c = 10
  end.

(** How an encoded value starts: not with whitespace, a closing bracket
    or a byte-order mark. *)
Definition value_start (c : N) : Prop :=
  is_ws c = false /\ c <> 93 /\ c <> 65279 /\ c <> 125.

(** [v] is read back from its print-out by [scan_once], whatever follows
    it in the file, once the recursion budget is large enough. *)
Definition reads_back (v : json) : Prop :=
  dumpable v ->
  forall level t rest,
    encode level v = Some t -> follow_ok rest ->
    exists f0, forall f, (f0 <= f)%nat ->
      scan_once f (t ++ rest) = Scanned v rest.

(** The typed counterparts of the loops of [done], [delete] and [list]. *)
Fixpoint first_match (k : Z) (ts : list task) : option (nat * task) :=
  match ts with
  | [] => None
  | t :: r =>
      if (t_id t =? k)%Z then Some (O, t)
      else match first_match k r with
           | Some (j, x) => Some (S j, x)
           | None => None
           end
  end.

Fixpoint complete (k : Z) (ts : list task) : list task :=
  match ts with
  | [] => []
  | t :: r =>
      if (t_id t =? k)%Z then mark_done t :: r else t :: complete k r
  end.

Definition without (k : Z) (ts : list task) : list task :=
  filter (fun t => negb (t_id t =? k)%Z) ts.

Fixpoint insert_task (x : task) (l : list task) : list task :=
  match l with
  | [] => [x]
  | y :: r =>
      if (t_id x <=? t_id y)%Z then x :: y :: r else y :: insert_task x r
  end.

Definition sort_tasks (ts : list task) : list task :=
  fold_right insert_task [] ts.

(** What [list] shows of a store: every task, or the pending ones. *)
Definition shown_tasks (hide_done : bool) (ts : list task) : list task :=
  filter (fun t => negb (hide_done && negb (is_pending t))) ts.




(** The descriptions of a store are text that the console prints. *)
Definition console_store (ts : list task) : Prop :=
  Forall (fun t => console_safe (t_description t) = true) ts.


(** The words [not valid json], and the same between double quotes. *)
Definition bare_words : text := u "not valid json".
Definition quoted_words : text := 34 :: u "not valid json" ++ [34].

(** A file holding the JSON object with the one member ["a": 1]. *)
Definition object_text : text := [123; 34; 97; 34; 58; 32; 49; 125].

Definition world_of (content : text) : world := mkWorld (Some content) [].

(** A store of three tasks, saved from a world without a file. *)
Definition empty_world : world := mkWorld None [].

Definition sample_tasks : list task :=
  [mkTask 1 (u "buy milk") Pending (u "2024-05-01 09:30");
   mkTask 2 (u "call the bank") Done (u "2024-05-01 09:31");
   mkTask 3 (u "pay rent") Pending (u "2024-05-02 18:00")].

Definition sample_world : world :=
  snd (save_tasks (store_json sample_tasks) empty_world).

(** A store in which two tasks have the id 2, as a file written by hand
    can hold. *)
Definition twin_tasks : list task :=
  [mkTask 1 (u "buy milk") Pending (u "2024-05-01 09:30");
   mkTask 2 (u "call the bank") Pending (u "2024-05-01 09:31");
   mkTask 2 (u "call the bank again") Pending (u "2024-05-01 09:32");
   mkTask 3 (u "pay rent") Pending (u "2024-05-02 18:00")].

Definition twin_world : world :=
  snd (save_tasks (store_json twin_tasks) empty_world).

(** A store whose one task has a closing tag for its description, as
    [add] leaves it in a world without a file. *)
Definition markup_tasks : list task :=
  [mkTask 1 (u "[/red]") Pending (u "2024-05-01 09:30")].

Definition markup_world : world :=
  snd (add (u "[/red]") (u "2024-05-01 09:30") empty_world).

(** The file of [w] exists and [json.load] returns [v] on it. *)
Definition file_decodes (w : world) (v : json) : Prop :=
  exists c, tasks_file w = Some c /\ json_loads c = Some v.

(** [add] called once for each description and timestamp, in order. *)
Fixpoint run_adds (items : list (text * text)) (w : world) : world :=
  match items with
  | [] => w
  | (d, now) :: r => run_adds r (snd (add d now w))
  end.

(** Pending tasks with the ids [n], [n + 1], ... for the given
    descriptions and timestamps. *)
Fixpoint numbered (n : Z) (items : list (text * text)) : list task :=
  match items with
  | [] => []
  | (d, now) :: r => mkTask n d Pending now :: numbered (n + 1) r
  end.

(** All characters of all strings of a value are Unicode code points. *)
Definition unicode_text (s : text) : Prop := Forall (fun c => c < 1114112) s.

Fixpoint unicode_value (v : json) : Prop :=
  match v with
  | JStr s => unicode_text s
  | JArr l =>
      (fix all (l : list json) : Prop :=
         match l with
         | [] => True
         | x :: r => unicode_value x /\ all r
         end) l
  | JObj d =>
      (fix all (d : list (text * json)) : Prop :=
         match d with
         | [] => True
         | (k, x) :: r => unicode_text k /\ unicode_value x /\ all r
         end) d
  | _ => True
  end.

(** A printable ASCII character or a newline. *)
Definition printable (c : N) : Prop := 32 <= c <= 126 \/ c = 10.

(** The world differs from [w] at most by what was printed. *)
Definition untouched (w w' : world) : Prop :=
  tasks_file w' = tasks_file w /\ writes w' = writes w.

(* ================================================================== *)
(** * Properties *)

(** ** Strings survive the file format *)

Lemma all_below_spec (P : N -> bool) (n : nat) :
  all_below P n = true -> forall k, (N.to_nat k < n)%nat -> P k = true.
Proof.
  induction n as [|m IH]; simpl; intros H k Hk; [lia|].
  apply andb_prop in H as [H1 H2].
  destruct (Nat.eq_dec (N.to_nat k) m) as [E|E].
  - subst m. now rewrite N2Nat.id in H1.
  - apply IH; [assumption | lia].
Qed.

Lemma hexval_hexdigit (k : N) : k < 16 -> hexval (hexdigit k) = Some k.
Proof.
  intros Hk.
  pose (P := fun k => match hexval (hexdigit k) with
                      | Some m => m =? k
                      | None => false
                      end).
  assert (HP : P k = true).
  { apply (all_below_spec P 16); [reflexivity | lia]. }
  unfold P in HP.
  destruct (hexval (hexdigit k)) as [m|]; [|discriminate].
  apply N.eqb_eq in HP. now subst.
Qed.

Lemma hex4_hexdigits (n : N) :
  n < 65536 ->
  hex4 (hexdigit (n / 4096)) (hexdigit ((n / 256) mod 16))
       (hexdigit ((n / 16) mod 16)) (hexdigit (n mod 16)) = Some n.
Proof.
  intros Hn. unfold hex4.
  rewrite !hexval_hexdigit;
    try (apply N.mod_upper_bound; discriminate);
    try (apply N.Div0.div_lt_upper_bound; assumption).
  f_equal.
  zify. Z.to_euclidean_division_equations. lia.
Qed.

Lemma lor_shifted (x y k : N) : y < 2 ^ k -> N.lor (x * 2 ^ k) y = x * 2 ^ k + y.
Proof.
  intros Hy.
  assert (H0 : N.land (x * 2 ^ k) y = 0).
  { apply N.bits_inj. intros i.
    rewrite N.land_spec, N.bits_0, <- N.shiftl_mul_pow2.
    destruct (N.lt_ge_cases i k) as [Hi|Hi].
    - now rewrite N.shiftl_spec_low.
    - rewrite <- (N.mod_small y (2 ^ k)) by assumption.
      rewrite N.mod_pow2_bits_high by assumption.
      apply andb_false_r. }
  now rewrite (N.add_nocarry_lxor _ _ H0), (N.lxor_lor _ _ H0).
Qed.

Lemma surrogates_of (c : N) :
  65536 <= c -> c < 1114112 ->
  N.lor 55296 (N.land (N.shiftr (c - 65536) 10) 1023)
  = 55296 + (c - 65536) / 1024 /\
  N.lor 56320 (N.land (c - 65536) 1023) = 56320 + (c - 65536) mod 1024 /\
  (c - 65536) / 1024 < 1024.
Proof.
  intros H1 H2.
  assert (Hn : c - 65536 < 1048576) by lia.
  set (n := c - 65536) in *. clearbody n.
  assert (Hq : n / 1024 < 1024)
    by (apply N.Div0.div_lt_upper_bound; exact Hn).
  change 1023 with (N.ones 10).
  rewrite !N.land_ones, N.shiftr_div_pow2.
  change (2 ^ 10) with 1024.
  rewrite (N.mod_small (n / 1024)) by exact Hq.
  change 55296 with (54 * 2 ^ 10). change 56320 with (55 * 2 ^ 10).
  rewrite !lor_shifted;
    [| change (2 ^ 10) with 1024; apply N.mod_upper_bound; discriminate
     | exact Hq].
  repeat split; try reflexivity. exact Hq.
Qed.

Lemma join_surrogates (c : N) :
  65536 <= c -> c < 1114112 ->
  65536 + N.lor (N.shiftl (55296 + (c - 65536) / 1024 - 55296) 10)
                (56320 + (c - 65536) mod 1024 - 56320) = c.
Proof.
  intros H1 H2. set (n := c - 65536).
  rewrite (N.add_comm 55296), (N.add_comm 56320), !N.add_sub.
  rewrite N.shiftl_mul_pow2, lor_shifted
    by (change (2 ^ 10) with 1024; apply N.mod_upper_bound; discriminate).
  change (2 ^ 10) with 1024.
  assert (Hc : n + 65536 = c) by (unfold n; lia).
  clearbody n.
  pose proof (N.Div0.div_mod n 1024) as E.
  lia.
Qed.
Lemma scanstring_u (h1 h2 h3 h4 c1 : N) (r2 acc : text) :
  hex4 h1 h2 h3 h4 = Some c1 -> is_high_surrogate c1 = false ->
  scanstring (92 :: 117 :: h1 :: h2 :: h3 :: h4 :: r2) acc
  = scanstring r2 (c1 :: acc).
Proof.
  intros Hh Hs.
  change (scanstring (92 :: 117 :: h1 :: h2 :: h3 :: h4 :: r2) acc)
    with (match hex4 h1 h2 h3 h4 with
          | None => None
          | Some c1 =>
              match r2 with
              | b :: uu :: g1 :: g2 :: g3 :: g4 :: r3 =>
                  if is_high_surrogate c1 && (b =? 92) && (uu =? 117)
                  then
                    match hex4 g1 g2 g3 g4 with
                    | None => None
                    | Some c2 =>
                        if is_low_surrogate c2
                        then scanstring r3
                               (65536 + N.lor (N.shiftl (c1 - 55296) 10)
                                              (c2 - 56320) :: acc)
                        else scanstring r2 (c1 :: acc)
                    end
                  else scanstring r2 (c1 :: acc)
              | _ => scanstring r2 (c1 :: acc)
              end
          end).
  rewrite Hh, Hs.
  destruct r2 as [|? [|? [|? [|? [|? [|? ?]]]]]]; reflexivity.
Qed.

Lemma scanstring_pair (h1 h2 h3 h4 g1 g2 g3 g4 c1 c2 : N) (r3 acc : text) :
  hex4 h1 h2 h3 h4 = Some c1 -> is_high_surrogate c1 = true ->
  hex4 g1 g2 g3 g4 = Some c2 -> is_low_surrogate c2 = true ->
  scanstring (92 :: 117 :: h1 :: h2 :: h3 :: h4
              :: 92 :: 117 :: g1 :: g2 :: g3 :: g4 :: r3) acc
  = scanstring r3
      (65536 + N.lor (N.shiftl (c1 - 55296) 10) (c2 - 56320) :: acc).
Proof.
  intros Hh Hs Hg Hl.
  change (scanstring (92 :: 117 :: h1 :: h2 :: h3 :: h4
                      :: 92 :: 117 :: g1 :: g2 :: g3 :: g4 :: r3) acc)
    with (match hex4 h1 h2 h3 h4 with
          | None => None
          | Some c1 =>
              if is_high_surrogate c1 && (92 =? 92) && (117 =? 117)
              then
                match hex4 g1 g2 g3 g4 with
                | None => None
                | Some c2 =>
                    if is_low_surrogate c2
                    then scanstring r3
                           (65536 + N.lor (N.shiftl (c1 - 55296) 10)
                                          (c2 - 56320) :: acc)
                    else scanstring (92 :: 117 :: g1 :: g2 :: g3 :: g4 :: r3)
                           (c1 :: acc)
                end
              else scanstring (92 :: 117 :: g1 :: g2 :: g3 :: g4 :: r3)
                     (c1 :: acc)
          end).
  now rewrite Hh, Hs, Hg, Hl.
Qed.

Lemma scanstring_plain (c : N) (r acc : text) :
  c <> 34 -> c <> 92 -> 32 <= c ->
  scanstring (c :: r) acc = scanstring r (c :: acc).
Proof.
  intros H1 H2 H3. cbn [scanstring].
  rewrite (proj2 (N.eqb_neq c 34) H1), (proj2 (N.eqb_neq c 92) H2).
  rewrite (proj2 (N.leb_gt c 31)) by lia.
  reflexivity.
Qed.

Lemma scanstring_uescape (n : N) (tail acc : text) :
  n < 65536 -> is_high_surrogate n = false ->
  scanstring (uescape n ++ tail) acc = scanstring tail (n :: acc).
Proof.
  intros Hn Hs. unfold uescape. cbn [app].
  apply scanstring_u; [now apply hex4_hexdigits | exact Hs].
Qed.

Lemma scanstring_uescape_pair (hi lo : N) (tail acc : text) :
  hi < 65536 -> lo < 65536 ->
  is_high_surrogate hi = true -> is_low_surrogate lo = true ->
  scanstring (uescape hi ++ uescape lo ++ tail) acc
  = scanstring tail
      (65536 + N.lor (N.shiftl (hi - 55296) 10) (lo - 56320) :: acc).
Proof.
  intros Hh Hl Sh Sl. unfold uescape. cbn [app].
  apply scanstring_pair; try assumption; now apply hex4_hexdigits.
Qed.

(** One character: what [escape_char] writes, [scanstring] reads back. *)
Lemma scanstring_escape_char (c : N) (tail acc : text) :
  plain_char c = true ->
  scanstring (escape_char c ++ tail) acc = scanstring tail (c :: acc).
Proof.
  intros Hp. unfold plain_char in Hp.
  apply andb_prop in Hp as [Hlt Hhi].
  apply N.ltb_lt in Hlt. apply negb_true_iff in Hhi.
  unfold escape_char.
  destruct (N.eqb_spec c 34) as [->|N34]; [reflexivity|].
  destruct (N.eqb_spec c 92) as [->|N92]; [reflexivity|].
  destruct (N.eqb_spec c 10) as [->|N10]; [reflexivity|].
  destruct (N.eqb_spec c 13) as [->|N13]; [reflexivity|].
  destruct (N.eqb_spec c 9) as [->|N9]; [reflexivity|].
  destruct (N.eqb_spec c 12) as [->|N12]; [reflexivity|].
  destruct (N.eqb_spec c 8) as [->|N8]; [reflexivity|].
  destruct ((32 <=? c) && (c <=? 126)) eqn:Hpr.
  - apply andb_prop in Hpr as [Hlo _]. apply N.leb_le in Hlo.
    now apply scanstring_plain.
  - destruct (N.ltb_spec c 65536) as [Hb|Hb].
    + now apply scanstring_uescape.
    + destruct (surrogates_of c Hb Hlt) as (E1 & E2 & Hq).
      rewrite E1, E2, <- List.app_assoc.
      pose proof (N.mod_upper_bound (c - 65536) 1024 ltac:(discriminate)) as Hm.
      set (q := (c - 65536) / 1024) in *.
      set (m := (c - 65536) mod 1024) in *.
      rewrite scanstring_uescape_pair;
        try lia;
        try (unfold is_high_surrogate, is_low_surrogate;
             apply andb_true_intro; split; apply N.leb_le; lia).
      subst q m. now rewrite (join_surrogates c Hb Hlt).
Qed.

Lemma scanstring_escaped (s : text) :
  plain_text s ->
  forall tail acc,
    scanstring (flat_map escape_char s ++ 34 :: tail) acc
    = Some (rev acc ++ s, tail).
Proof.
  induction 1 as [|c s Hc Hs IH]; intros tail acc.
  - simpl. now rewrite List.app_nil_r.
  - simpl flat_map. rewrite <- List.app_assoc.
    rewrite scanstring_escape_char by exact Hc.
    rewrite IH. simpl. now rewrite <- List.app_assoc.
Qed.

Lemma scanstring_encode_str (s tail : text) :
  plain_text s ->
  exists t, encode_str s ++ tail = 34 :: t /\ scanstring t [] = Some (s, tail).
Proof.
  intros Hs. unfold encode_str.
  exists (flat_map escape_char s ++ 34 :: tail). split.
  - simpl. now rewrite <- List.app_assoc.
  - now rewrite scanstring_escaped.
Qed.

(** ** Integers survive the file format *)

Lemma follow_not_digit (rest : text) :
  follow_ok rest ->
  match rest with [] => True | c :: _ => digit_cons c = None end.
Proof.
  destruct rest as [|c r]; [trivial|]. intros [->| ->]; reflexivity.
Qed.

Lemma scan_digits_uint (d : Decimal.uint) (rest : text) :
  match rest with [] => True | c :: _ => digit_cons c = None end ->
  scan_digits (uint_text d ++ rest) = (d, rest).
Proof.
  intros Hr.
  induction d; cbn [uint_text app scan_digits];
    try (change (digit_cons 48) with (Some Decimal.D0));
    try (change (digit_cons 49) with (Some Decimal.D1));
    try (change (digit_cons 50) with (Some Decimal.D2));
    try (change (digit_cons 51) with (Some Decimal.D3));
    try (change (digit_cons 52) with (Some Decimal.D4));
    try (change (digit_cons 53) with (Some Decimal.D5));
    try (change (digit_cons 54) with (Some Decimal.D6));
    try (change (digit_cons 55) with (Some Decimal.D7));
    try (change (digit_cons 56) with (Some Decimal.D8));
    try (change (digit_cons 57) with (Some Decimal.D9));
    try (cbv iota beta; rewrite IHd; reflexivity).
  destruct rest as [|c r]; [reflexivity|].
  cbn [scan_digits]. now rewrite Hr.
Qed.

Lemma unorm_leading_zero (d d' : Decimal.uint) :
  Decimal.unorm d = Decimal.D0 d' -> d' = Decimal.Nil.
Proof.
  induction d; cbn; intros H; try discriminate; auto.
  now injection H.
Qed.

Lemma to_uint_leading_zero (n : N) (d' : Decimal.uint) :
  N.to_uint n = Decimal.D0 d' -> d' = Decimal.Nil.
Proof.
  intros H. apply (unorm_leading_zero (N.to_uint n)).
  rewrite <- DecimalN.Unsigned.to_of, DecimalN.Unsigned.of_to. exact H.
Qed.

Lemma unorm_nonnil (d : Decimal.uint) : Decimal.unorm d <> Decimal.Nil.
Proof. induction d; cbn; auto; discriminate. Qed.

Lemma to_uint_nonnil (n : N) : N.to_uint n <> Decimal.Nil.
Proof.
  rewrite <- (DecimalN.Unsigned.of_to n) at 1.
  rewrite DecimalN.Unsigned.to_of. apply unorm_nonnil.
Qed.

Lemma scan_int_part_uint (n : N) (rest : text) :
  follow_ok rest ->
  scan_int_part (uint_text (N.to_uint n) ++ rest) = Some (N.to_uint n, rest).
Proof.
  intros Hr. apply follow_not_digit in Hr.
  pose proof (to_uint_leading_zero n) as Hz.
  pose proof (to_uint_nonnil n) as Hn.
  destruct (N.to_uint n) as [|d|d|d|d|d|d|d|d|d|d] eqn:E.
  - contradiction.
  - rewrite (Hz d eq_refl). reflexivity.
  - unfold scan_int_part. cbn [uint_text app].
    change (49 =? 48) with false. change (is_digit 49) with true.
    cbv iota. now rewrite <- (scan_digits_uint (Decimal.D1 d) rest Hr).
  - unfold scan_int_part. cbn [uint_text app].
    change (50 =? 48) with false. change (is_digit 50) with true.
    cbv iota. now rewrite <- (scan_digits_uint (Decimal.D2 d) rest Hr).
  - unfold scan_int_part. cbn [uint_text app].
    change (51 =? 48) with false. change (is_digit 51) with true.
    cbv iota. now rewrite <- (scan_digits_uint (Decimal.D3 d) rest Hr).
  - unfold scan_int_part. cbn [uint_text app].
    change (52 =? 48) with false. change (is_digit 52) with true.
    cbv iota. now rewrite <- (scan_digits_uint (Decimal.D4 d) rest Hr).
  - unfold scan_int_part. cbn [uint_text app].
    change (53 =? 48) with false. change (is_digit 53) with true.
    cbv iota. now rewrite <- (scan_digits_uint (Decimal.D5 d) rest Hr).
  - unfold scan_int_part. cbn [uint_text app].
    change (54 =? 48) with false. change (is_digit 54) with true.
    cbv iota. now rewrite <- (scan_digits_uint (Decimal.D6 d) rest Hr).
  - unfold scan_int_part. cbn [uint_text app].
    change (55 =? 48) with false. change (is_digit 55) with true.
    cbv iota. now rewrite <- (scan_digits_uint (Decimal.D7 d) rest Hr).
  - unfold scan_int_part. cbn [uint_text app].
    change (56 =? 48) with false. change (is_digit 56) with true.
    cbv iota. now rewrite <- (scan_digits_uint (Decimal.D8 d) rest Hr).
  - unfold scan_int_part. cbn [uint_text app].
    change (57 =? 48) with false. change (is_digit 57) with true.
    cbv iota. now rewrite <- (scan_digits_uint (Decimal.D9 d) rest Hr).
Qed.

Lemma follow_no_frac (rest : text) : follow_ok rest -> scan_frac rest = None.
Proof.
  destruct rest as [|c [|d r]]; try reflexivity.
  intros [->| ->]; reflexivity.
Qed.

Lemma follow_no_exp (rest : text) : follow_ok rest -> scan_exp rest = None.
Proof.
  destruct rest as [|c r]; [reflexivity|].
  intros [->| ->]; reflexivity.
Qed.

(** The first character of a printed natural number is a digit. *)
Lemma uint_text_head (n : N) :
  exists c t, uint_text (N.to_uint n) = c :: t /\ is_digit c = true.
Proof.
  pose proof (to_uint_nonnil n) as Hn.
  destruct (N.to_uint n); [contradiction| ..];
    cbn [uint_text]; eexists; eexists; split; reflexivity.
Qed.

Lemma match_number_nat (n : N) (rest : text) :
  follow_ok rest ->
  match_number (uint_text (N.to_uint n) ++ rest) = Some (JInt (Z.of_N n), rest).
Proof.
  intros Hr. unfold match_number.
  destruct (uint_text_head n) as (c & t & E & Hc).
  assert (Hneg : (c =? 45) = false).
  { unfold is_digit in Hc. apply andb_prop in Hc as [H1 _].
    apply N.leb_le in H1. apply N.eqb_neq. lia. }
  rewrite E. cbn [app]. rewrite Hneg.
  change (c :: t ++ rest) with ((c :: t) ++ rest). rewrite <- E.
  rewrite scan_int_part_uint by exact Hr.
  rewrite follow_no_frac, follow_no_exp by exact Hr.
  now rewrite DecimalN.Unsigned.of_to.
Qed.

Lemma match_number_int (z : Z) (rest : text) :
  follow_ok rest ->
  match_number (int_repr z ++ rest) = Some (JInt z, rest).
Proof.
  intros Hr. destruct z as [|p|p].
  - exact (match_number_nat 0 rest Hr).
  - exact (match_number_nat (Npos p) rest Hr).
  - unfold int_repr, match_number. cbn [app].
    change (45 =? 45) with true. cbv iota.
    rewrite scan_int_part_uint by exact Hr.
    rewrite follow_no_frac, follow_no_exp by exact Hr.
    now rewrite DecimalN.Unsigned.of_to.
Qed.

(** ** Values survive the file format *)

Section JsonInduction.
Variable P : json -> Prop.
Hypothesis Hnull : P JNull.
Hypothesis Hbool : forall b, P (JBool b).
Hypothesis Hint : forall z, P (JInt z).
Hypothesis Hfloat : forall f, P (JFloat f).
Hypothesis Hstr : forall s, P (JStr s).
Hypothesis Harr : forall l, Forall P l -> P (JArr l).
Hypothesis Hobj : forall d, Forall (fun kv => P (snd kv)) d -> P (JObj d).

Fixpoint json_induction (v : json) : P v :=
  match v with
  | JNull => Hnull
  | JBool b => Hbool b
  | JInt z => Hint z
  | JFloat f => Hfloat f
  | JStr s => Hstr s
  | JArr l =>
      Harr l ((fix go (l : list json) : Forall P l :=
                 match l with
                 | [] => Forall_nil P
                 | x :: r => Forall_cons x (json_induction x) (go r)
                 end) l)
  | JObj d =>
      Hobj d ((fix go (d : list (text * json))
                 : Forall (fun kv => P (snd kv)) d :=
                 match d with
                 | [] => Forall_nil _
                 | kv :: r =>
                     Forall_cons kv (json_induction (snd kv)) (go r)
                 end) d)
  end.
End JsonInduction.

Lemma dumpable_arr (l : list json) : dumpable (JArr l) <-> Forall dumpable l.
Proof.
  induction l as [|x r IH]; split; intros H.
  - constructor.
  - exact I.
  - destruct H as [Hx Hr]. constructor; [exact Hx | now apply IH].
  - inversion H; subst. split; [assumption | now apply IH].
Qed.

Lemma dumpable_obj (d : list (text * json)) :
  dumpable (JObj d) <->
  NoDup (List.map fst d) /\
  Forall (fun kv => plain_text (fst kv) /\ dumpable (snd kv)) d.
Proof.
  cbn [dumpable].
  assert (E : (fix all (d : list (text * json)) : Prop :=
                 match d with
                 | [] => True
                 | (k, x) :: r => plain_text k /\ dumpable x /\ all r
                 end) d
              <-> Forall (fun kv => plain_text (fst kv) /\ dumpable (snd kv)) d).
  { induction d as [|[k x] r IH]; split; intros H.
    - constructor.
    - exact I.
    - destruct H as (Hk & Hx & Hr). constructor; [now split | now apply IH].
    - inversion H as [|? ? [Hk Hx] Hr]; subst.
      repeat split; try assumption. now apply IH. }
  now rewrite E.
Qed.

Lemma encode_arr (level : nat) (l : list json) :
  encode level (JArr l) =
  match l with
  | [] => Some (u "[]")
  | _ :: _ =>
      match encode_items level l with
      | Some b => Some (91 :: b ++ newline_indent level ++ [93])
      | None => None
      end
  end.
Proof.
  destruct l as [|x r]; [reflexivity|].
  cbn [encode].
  assert (E : forall l,
    (fix items (l : list json) : option text :=
       match l with
       | [] => Some []
       | x :: r =>
           match encode (S level) x, items r with
           | Some a, Some b =>
               Some (newline_indent (S level) ++ a
                     ++ match r with [] => [] | _ => [44] end ++ b)
           | _, _ => None
           end
       end) l = encode_items level l).
  { induction l as [|y l IH]; [reflexivity|].
    cbn [encode_items]. now rewrite IH. }
  now rewrite (E (x :: r)).
Qed.

Lemma encode_obj (level : nat) (d : list (text * json)) :
  encode level (JObj d) =
  match d with
  | [] => Some (u "{}")
  | _ :: _ =>
      match encode_members level d with
      | Some b => Some (123 :: b ++ newline_indent level ++ [125])
      | None => None
      end
  end.
Proof.
  destruct d as [|kx r]; [reflexivity|].
  cbn [encode].
  assert (E : forall d,
    (fix members (d : list (text * json)) : option text :=
       match d with
       | [] => Some []
       | (k, x) :: r =>
           match encode (S level) x, members r with
           | Some a, Some b =>
               Some (newline_indent (S level) ++ encode_str k ++ [58; 32]
                     ++ a ++ match r with [] => [] | _ => [44] end ++ b)
           | _, _ => None
           end
       end) d = encode_members level d).
  { induction d as [|[k y] d IH]; [reflexivity|].
    cbn [encode_members]. now rewrite IH. }
  now rewrite (E (kx :: r)).
Qed.

Lemma int_repr_head (z : Z) :
  exists c t, int_repr z = c :: t /\ (c = 45 \/ is_digit c = true).
Proof.
  destruct z as [|p|p].
  - destruct (uint_text_head 0) as (c & t & E & H). exists c, t. auto.
  - destruct (uint_text_head (Npos p)) as (c & t & E & H). exists c, t. auto.
  - exists 45, (uint_text (N.to_uint (Npos p))). auto.
Qed.

Lemma digit_bounds (c : N) : is_digit c = true -> 48 <= c <= 57.
Proof.
  unfold is_digit. intros H. apply andb_prop in H as [H1 H2].
  apply N.leb_le in H1, H2. lia.
Qed.

Lemma value_start_of_bounds (c : N) : 34 <= c <= 123 -> c <> 93 -> value_start c.
Proof.
  intros Hb Hn. unfold value_start, is_ws.
  split; [|lia].
  repeat (apply orb_false_intro); apply N.eqb_neq; lia.
Qed.

Ltac head_is c :=
  exists c; eexists; split;
  [reflexivity | apply value_start_of_bounds; lia].

Lemma encode_head (level : nat) (v : json) (t : text) :
  encode level v = Some t -> exists c t', t = c :: t' /\ value_start c.
Proof.
  destruct v as [|[|]|z|f|s|l|d]; intros H.
  - injection H as <-. head_is 110.
  - injection H as <-. head_is 116.
  - injection H as <-. head_is 102.
  - injection H as <-. destruct (int_repr_head z) as (c & t' & E & Hc).
    exists c, t'. split; [exact E|].
    destruct Hc as [->|Hc]; [apply value_start_of_bounds; lia|].
    apply digit_bounds in Hc. apply value_start_of_bounds; lia.
  - discriminate.
  - injection H as <-. head_is 34.
  - rewrite encode_arr in H. destruct l.
    + injection H as <-. head_is 91.
    + destruct (encode_items level (j :: l)); [|discriminate].
      injection H as <-. head_is 91.
  - rewrite encode_obj in H. destruct d.
    + injection H as <-. head_is 123.
    + destruct (encode_members level (p :: d)); [|discriminate].
      injection H as <-. head_is 123.
Qed.

Lemma skip_ws_start (c : N) (r : text) :
  is_ws c = false -> skip_ws (c :: r) = c :: r.
Proof. intros H. cbn [skip_ws]. now rewrite H. Qed.

Lemma skip_ws_spaces (n : nat) (s : text) :
  skip_ws (repeat 32 n ++ s) = skip_ws s.
Proof. induction n as [|n IH]; [reflexivity | exact IH]. Qed.

Lemma skip_ws_indent (level : nat) (s : text) :
  skip_ws (newline_indent level ++ s) = skip_ws s.
Proof. unfold newline_indent. cbn [app]. apply (skip_ws_spaces (4 * level)). Qed.

Lemma scan_once_string (f : nat) (r : text) :
  scan_once (S f) (34 :: r) =
  match scanstring r [] with
  | Some (str, r') => Scanned (JStr str) r'
  | None => DecodeError
  end.
Proof. reflexivity. Qed.

Lemma scan_once_array (f : nat) (r r1 : text) (c1 : N) :
  skip_ws r = c1 :: r1 -> c1 <> 93 ->
  scan_once (S f) (91 :: r) =
  match parse_items f (c1 :: r1) with
  | Scanned vs r2 => Scanned (JArr vs) r2
  | DecodeError => DecodeError
  | OutOfFuel => OutOfFuel
  end.
Proof.
  intros E H. cbn [scan_once].
  change (91 =? 34) with false. change (91 =? 123) with false.
  change (91 =? 91) with true. cbv iota.
  rewrite E. now rewrite (proj2 (N.eqb_neq c1 93) H).
Qed.

Lemma scan_once_object (f : nat) (r r1 : text) :
  skip_ws r = 34 :: r1 ->
  scan_once (S f) (123 :: r) =
  match parse_members f r1 with
  | Scanned ps r2 => Scanned (JObj (dict_of_pairs ps)) r2
  | DecodeError => DecodeError
  | OutOfFuel => OutOfFuel
  end.
Proof.
  intros E. cbn [scan_once].
  change (123 =? 34) with false. change (123 =? 123) with true. cbv iota.
  now rewrite E.
Qed.

Lemma scan_once_atom (f : nat) (c : N) (r : text) :
  c <> 34 -> c <> 123 -> c <> 91 ->
  scan_once (S f) (c :: r) =
  match scan_atom (c :: r) with
  | Some (v, r') => Scanned v r'
  | None => DecodeError
  end.
Proof.
  intros H1 H2 H3. cbn [scan_once].
  now rewrite (proj2 (N.eqb_neq c 34) H1), (proj2 (N.eqb_neq c 123) H2),
    (proj2 (N.eqb_neq c 91) H3).
Qed.

Lemma parse_items_S (f : nat) (s : text) :
  parse_items (S f) s =
  match scan_once f s with
  | Scanned v r =>
      match skip_ws r with
      | [] => DecodeError
      | c :: r1 =>
          if c =? 93 then Scanned [v] r1
          else if c =? 44 then
            match parse_items f (skip_ws r1) with
            | Scanned vs r2 => Scanned (v :: vs) r2
            | DecodeError => DecodeError
            | OutOfFuel => OutOfFuel
            end
          else DecodeError
      end
  | DecodeError => DecodeError
  | OutOfFuel => OutOfFuel
  end.
Proof. reflexivity. Qed.

Lemma parse_members_S (f : nat) (s : text) :
  parse_members (S f) s =
  match scanstring s [] with
  | None => DecodeError
  | Some (k, r1) =>
      match skip_ws r1 with
      | [] => DecodeError
      | c :: r2 =>
          if c =? 58 then
            match scan_once f (skip_ws r2) with
            | Scanned v r3 =>
                match skip_ws r3 with
                | [] => DecodeError
                | c1 :: r4 =>
                    if c1 =? 125 then Scanned [(k, v)] r4
                    else if c1 =? 44 then
                      match skip_ws r4 with
                      | [] => DecodeError
                      | c2 :: r5 =>
                          if c2 =? 34 then
                            match parse_members f r5 with
                            | Scanned ps r6 => Scanned ((k, v) :: ps) r6
                            | DecodeError => DecodeError
                            | OutOfFuel => OutOfFuel
                            end
                          else DecodeError
                      end
                    else DecodeError
                end
            | DecodeError => DecodeError
            | OutOfFuel => OutOfFuel
            end
          else DecodeError
      end
  end.
Proof. reflexivity. Qed.

Lemma scan_atom_int (z : Z) (rest : text) :
  follow_ok rest -> scan_atom (int_repr z ++ rest) = Some (JInt z, rest).
Proof.
  intros Hr. pose proof (match_number_int z rest Hr) as Hm.
  destruct (int_repr_head z) as (c & t & E & Hc).
  rewrite E in *. cbn [app] in *.
  assert (Hb : c <= 57).
  { destruct Hc as [->|Hc]; [lia | apply digit_bounds in Hc; lia]. }
  unfold scan_atom.
  change (u "null") with [110; 117; 108; 108].
  change (u "true") with [116; 114; 117; 101].
  change (u "false") with [102; 97; 108; 115; 101].
  cbn [strip_prefix].
  rewrite (proj2 (N.eqb_neq 110 c)), (proj2 (N.eqb_neq 116 c)),
    (proj2 (N.eqb_neq 102 c)) by lia.
  now rewrite Hm.
Qed.

Lemma dict_set_fresh (d : list (text * json)) (k : text) (v : json) :
  ~ In k (List.map fst d) -> dict_set d k v = d ++ [(k, v)].
Proof.
  induction d as [|[k' v'] r IH]; intros Hk; [reflexivity|].
  cbn [dict_set app]. cbn in Hk. unfold text_eqb.
  destruct (list_eq_dec N.eq_dec k k') as [->|_]; [tauto|].
  rewrite IH; [reflexivity | tauto].
Qed.

Lemma dict_of_pairs_nodup (d : list (text * json)) :
  NoDup (List.map fst d) -> dict_of_pairs d = d.
Proof.
  unfold dict_of_pairs.
  assert (G : forall acc,
    NoDup (List.map fst (acc ++ d)) ->
    fold_left (fun d kv => dict_set d (fst kv) (snd kv)) d acc = acc ++ d).
  { induction d as [|[k v] r IH]; intros acc H.
    - now rewrite List.app_nil_r.
    - cbn [fold_left fst snd].
      rewrite dict_set_fresh.
      + rewrite IH; rewrite <- List.app_assoc; [reflexivity | exact H].
      + rewrite map_app in H. cbn in H.
        apply NoDup_remove_2 in H. intros Hin. apply H.
        apply in_or_app. now left. }
  intros H. exact (G [] H).
Qed.

Lemma follow_ok_indent (level : nat) (s : text) :
  follow_ok (newline_indent level ++ s).
Proof. right. reflexivity. Qed.

Lemma skip_ws_encoded (level : nat) (v : json) (a s : text) :
  encode level v = Some a -> skip_ws (a ++ s) = a ++ s.
Proof.
  intros Ea. destruct (encode_head _ _ _ Ea) as (c & a' & -> & Hc & _).
  now apply skip_ws_start.
Qed.

Lemma parse_items_encode (level : nat) (l : list json) :
  Forall reads_back l -> Forall dumpable l -> l <> [] ->
  forall b rest,
    encode_items level l = Some b ->
    exists f0, forall f, (f0 <= f)%nat ->
      parse_items f (skip_ws (b ++ newline_indent level ++ 93 :: rest))
      = Scanned l rest.
Proof.
  induction l as [|x r IH]; [contradiction|].
  intros HP HD _ b rest Hb.
  inversion HP as [|? ? Px Pr]; subst. inversion HD as [|? ? Dx Dr]; subst.
  cbn [encode_items] in Hb.
  destruct (encode (S level) x) as [a|] eqn:Ea; [|discriminate].
  destruct (encode_items level r) as [b'|] eqn:Eb; [|discriminate].
  assert (Hb' : b = newline_indent (S level) ++ a
                    ++ match r with [] => [] | _ => [44] end ++ b')
    by congruence.
  clear Hb. subst b.
  rewrite <- !List.app_assoc, skip_ws_indent.
  rewrite (skip_ws_encoded _ _ _ _ Ea).
  destruct r as [|y r'].
  - injection Eb as <-. cbn [app].
    destruct (Px Dx (S level) a (newline_indent level ++ 93 :: rest) Ea
                (follow_ok_indent _ _)) as [f0 Hx].
    exists (S f0). intros f Hf. destruct f as [|f]; [lia|].
    rewrite parse_items_S, Hx by lia.
    rewrite skip_ws_indent, skip_ws_start by reflexivity.
    reflexivity.
  - destruct (IH Pr Dr ltac:(discriminate) b' rest eq_refl) as [f1 Hr].
    destruct (Px Dx (S level) a
                (44 :: b' ++ newline_indent level ++ 93 :: rest) Ea
                (or_introl eq_refl)) as [f0 Hx].
    exists (S (Nat.max f0 f1)). intros f Hf. destruct f as [|f]; [lia|].
    cbn [app]. rewrite parse_items_S, Hx by lia.
    rewrite skip_ws_start by reflexivity.
    change (44 =? 93) with false. change (44 =? 44) with true. cbv iota.
    now rewrite Hr by lia.
Qed.

Lemma parse_members_encode (level : nat) (d : list (text * json)) :
  Forall (fun kv => reads_back (snd kv)) d ->
  Forall (fun kv => plain_text (fst kv) /\ dumpable (snd kv)) d ->
  d <> [] ->
  forall b rest,
    encode_members level d = Some b ->
    exists f0 r1,
      skip_ws (b ++ newline_indent level ++ 125 :: rest) = 34 :: r1 /\
      forall f, (f0 <= f)%nat -> parse_members f r1 = Scanned d rest.
Proof.
  induction d as [|[k x] r IH]; [contradiction|].
  intros HP HD _ b rest Hb.
  inversion HP as [|? ? Px Pr]; subst.
  inversion HD as [|? ? [Dk Dx] Dr]; subst.
  cbn [fst snd] in *.
  cbn [encode_members] in Hb.
  destruct (encode (S level) x) as [a|] eqn:Ea; [|discriminate].
  destruct (encode_members level r) as [b'|] eqn:Eb; [|discriminate].
  assert (Hb' : b = newline_indent (S level) ++ encode_str k ++ [58; 32]
                    ++ a ++ match r with [] => [] | _ => [44] end ++ b')
    by congruence.
  clear Hb. subst b.
  rewrite <- !List.app_assoc, skip_ws_indent.
  destruct r as [|ky r'].
  - injection Eb as <-. cbn [app].
    destruct (scanstring_encode_str k
                (58 :: 32 :: a ++ newline_indent level ++ 125 :: rest) Dk)
      as (t & Et & Hk).
    destruct (Px Dx (S level) a (newline_indent level ++ 125 :: rest) Ea
                (follow_ok_indent _ _)) as [f0 Hx].
    exists (S f0), t. split.
    + rewrite Et. now apply skip_ws_start.
    + intros f Hf. destruct f as [|f]; [lia|].
      rewrite parse_members_S, Hk.
      rewrite skip_ws_start by reflexivity.
      change (58 =? 58) with true. cbv iota.
      cbn [skip_ws]. change (is_ws 32) with true. cbv iota.
      rewrite (skip_ws_encoded _ _ _ _ Ea).
      rewrite Hx by lia.
      rewrite skip_ws_indent, skip_ws_start by reflexivity.
      reflexivity.
  - destruct (IH Pr Dr ltac:(discriminate) b' rest eq_refl)
      as (f1 & r5 & E5 & Hr).
    cbn [app].
    destruct (scanstring_encode_str k
                (58 :: 32 :: a ++ 44 :: b' ++ newline_indent level
                    ++ 125 :: rest) Dk)
      as (t & Et & Hk).
    destruct (Px Dx (S level) a
                (44 :: b' ++ newline_indent level ++ 125 :: rest) Ea
                (or_introl eq_refl)) as [f0 Hx].
    exists (S (Nat.max f0 f1)), t. split.
    + rewrite Et. now apply skip_ws_start.
    + intros f Hf. destruct f as [|f]; [lia|].
      rewrite parse_members_S, Hk.
      rewrite skip_ws_start by reflexivity.
      change (58 =? 58) with true. cbv iota.
      cbn [skip_ws]. change (is_ws 32) with true. cbv iota.
      rewrite (skip_ws_encoded _ _ _ _ Ea).
      rewrite Hx by lia.
      rewrite skip_ws_start by reflexivity.
      change (44 =? 125) with false. change (44 =? 44) with true. cbv iota.
      rewrite E5. change (34 =? 34) with true. cbv iota.
      now rewrite Hr by lia.
Qed.

(** Every printable value is read back from its print-out, given enough
    recursion budget. *)
Lemma encode_reads_back (v : json) : reads_back v.
Proof.
  induction v using json_induction; unfold reads_back;
    intros Hd level t rest Ht Hr.
  - injection Ht as <-. exists 1%nat. intros [|f] Hf; [lia | reflexivity].
  - destruct b; injection Ht as <-; exists 1%nat;
      intros [|f] Hf; (lia || reflexivity).
  - injection Ht as <-. exists 1%nat. intros [|f] Hf; [lia|].
    pose proof (scan_atom_int z rest Hr) as Ha.
    destruct (int_repr_head z) as (c & t' & E & Hc).
    rewrite E in *. cbn [app] in *.
    assert (Hb : 45 <= c <= 57).
    { destruct Hc as [->|Hc]; [lia | apply digit_bounds in Hc; lia]. }
    rewrite scan_once_atom by lia. now rewrite Ha.
  - discriminate.
  - injection Ht as <-. exists 1%nat. intros [|f] Hf; [lia|].
    destruct (scanstring_encode_str s rest Hd) as (t & Et & Hs).
    rewrite Et, scan_once_string. now rewrite Hs.
  - rewrite encode_arr in Ht. apply dumpable_arr in Hd.
    destruct l as [|x r].
    + injection Ht as <-. exists 1%nat. intros [|f] Hf; [lia | reflexivity].
    + destruct (encode_items level (x :: r)) as [b|] eqn:Eb; [|discriminate].
      assert (Et : t = 91 :: b ++ newline_indent level ++ [93]) by congruence.
      clear Ht. subst t.
      destruct (parse_items_encode level (x :: r) H Hd ltac:(discriminate)
                  b rest Eb) as [f0 Hi].
      assert (Es : exists c1 r1,
                 skip_ws (b ++ newline_indent level ++ 93 :: rest) = c1 :: r1
                 /\ c1 <> 93).
      { cbn [encode_items] in Eb.
        destruct (encode (S level) x) as [a|] eqn:Ea; [|discriminate].
        destruct (encode_items level r) as [b'|]; [|discriminate].
        assert (Hb' : b = newline_indent (S level) ++ a
                          ++ match r with [] => [] | _ => [44] end ++ b')
          by congruence.
        rewrite Hb'.
        rewrite <- !List.app_assoc, skip_ws_indent.
        rewrite (skip_ws_encoded _ _ _ _ Ea).
        destruct (encode_head _ _ _ Ea) as (c & a' & -> & _ & Hc & _).
        exists c. eexists. split; [reflexivity | exact Hc]. }
      destruct Es as (c1 & r1 & Es & Hc1).
      exists (S f0). intros [|f] Hf; [lia|].
      cbn [app]. rewrite <- !List.app_assoc. cbn [app].
      rewrite (scan_once_array f _ r1 c1 Es Hc1).
      rewrite <- Es. now rewrite Hi by lia.
  - rewrite encode_obj in Ht. apply dumpable_obj in Hd as [Hnd Hd].
    destruct d as [|kx r].
    + injection Ht as <-. exists 1%nat. intros [|f] Hf; [lia | reflexivity].
    + destruct (encode_members level (kx :: r)) as [b|] eqn:Eb;
        [|discriminate].
      assert (Et : t = 123 :: b ++ newline_indent level ++ [125])
        by congruence.
      clear Ht. subst t.
      destruct (parse_members_encode level (kx :: r) H Hd ltac:(discriminate)
                  b rest Eb) as (f0 & r1 & Es & Hm).
      exists (S f0). intros [|f] Hf; [lia|].
      cbn [app]. rewrite <- !List.app_assoc. cbn [app].
      rewrite (scan_once_object f _ r1 Es).
      rewrite Hm by lia. now rewrite dict_of_pairs_nodup.
Qed.

(** ** The decoder's recursion budget is never used up *)

Lemma skip_ws_length (s : text) : (List.length (skip_ws s) <= List.length s)%nat.
Proof.
  induction s as [|c r IH]; cbn [skip_ws]; [lia|].
  destruct (is_ws c); cbn [List.length]; lia.
Qed.

Lemma skip_ws_cons_length (s r : text) (c : N) :
  skip_ws s = c :: r -> (List.length r < List.length s)%nat.
Proof.
  intros E. pose proof (skip_ws_length s) as H. rewrite E in H.
  cbn [List.length] in H. lia.
Qed.

Lemma scanstring_length (n : nat) :
  forall s acc k r,
    (List.length s <= n)%nat ->
    scanstring s acc = Some (k, r) -> (List.length r < List.length s)%nat.
Proof.
  induction n as [|n IH]; intros s acc k r Hn H.
  - destruct s; [discriminate | cbn in Hn; lia].
  - destruct s as [|c s1]; [discriminate|].
    cbn [scanstring] in H. cbn [List.length] in *.
    destruct (c =? 34).
    { injection H as _ <-. lia. }
    destruct (c =? 92).
    2:{ destruct (c <=? 31); [discriminate|].
        apply IH in H; [lia | lia]. }
    destruct s1 as [|e r1]; [discriminate|].
    cbn [List.length] in *.
    destruct (e =? 117).
    2:{ destruct (simple_escape e); [|discriminate].
        apply IH in H; cbn [List.length] in *; lia. }
    destruct r1 as [|h1 [|h2 [|h3 [|h4 r2]]]]; try discriminate.
    cbn [List.length] in *.
    destruct (hex4 h1 h2 h3 h4) as [c1|]; [|discriminate].
    destruct r2 as [|b [|uu [|g1 [|g2 [|g3 [|g4 r3]]]]]];
      try (apply IH in H; cbn [List.length] in *; lia).
    destruct (is_high_surrogate c1 && (b =? 92) && (uu =? 117)).
    2:{ apply IH in H; cbn [List.length] in *; lia. }
    destruct (hex4 g1 g2 g3 g4) as [c2|]; [|discriminate].
    destruct (is_low_surrogate c2);
      apply IH in H; cbn [List.length] in *; lia.
Qed.

Lemma scanstring_shorter (s acc k r : text) :
  scanstring s acc = Some (k, r) -> (List.length r < List.length s)%nat.
Proof. apply (scanstring_length (List.length s)). lia. Qed.

Lemma strip_prefix_length (p s r : text) :
  strip_prefix p s = Some r -> List.length s = (List.length p + List.length r)%nat.
Proof.
  revert s. induction p as [|a p IH]; intros s H.
  - injection H as <-. reflexivity.
  - destruct s as [|b s']; [discriminate|]. cbn [strip_prefix] in H.
    destruct (a =? b); [|discriminate].
    apply IH in H. cbn [List.length]. lia.
Qed.

Lemma scan_digits_length (s : text) :
  (List.length (snd (scan_digits s)) <= List.length s)%nat.
Proof.
  induction s as [|c r IH]; cbn [scan_digits]; [cbn; lia|].
  destruct (digit_cons c); [|cbn; lia].
  destruct (scan_digits r). cbn [snd List.length] in *. lia.
Qed.

Lemma scan_int_part_length (s r : text) (d : Decimal.uint) :
  scan_int_part s = Some (d, r) -> (List.length r < List.length s)%nat.
Proof.
  destruct s as [|c s']; [discriminate|]. unfold scan_int_part.
  destruct (c =? 48).
  { intros H. injection H as _ <-. cbn. lia. }
  destruct (is_digit c) eqn:Hd; [|discriminate].
  intros H. injection H as H.
  cbn [scan_digits] in H.
  assert (exists D, digit_cons c = Some D) as [D HD].
  { apply digit_bounds in Hd. unfold digit_cons.
    repeat match goal with
           | |- context [c =? ?k] => destruct (N.eqb_spec c k); [eauto|]
           end.
    lia. }
  rewrite HD in H.
  pose proof (scan_digits_length s') as L.
  destruct (scan_digits s') as [d' r']. injection H as _ <-.
  cbn [snd List.length] in *. lia.
Qed.

Lemma scan_frac_length (s r : text) (d : Decimal.uint) :
  scan_frac s = Some (d, r) -> (List.length r <= List.length s)%nat.
Proof.
  destruct s as [|c [|e s']]; try discriminate. unfold scan_frac.
  destruct ((c =? 46) && is_digit e); [|discriminate].
  cbn [tl]. intros H.
  assert (H' : scan_digits (e :: s') = (d, r)) by congruence.
  pose proof (scan_digits_length (e :: s')) as L.
  rewrite H' in L. cbn [snd List.length] in *. lia.
Qed.

Lemma scan_exp_length (s r : text) (e : Z) :
  scan_exp s = Some (e, r) -> (List.length r <= List.length s)%nat.
Proof.
  destruct s as [|c s']; [discriminate|]. unfold scan_exp.
  destruct ((c =? 101) || (c =? 69)); [|discriminate].
  destruct s' as [|sg [|d s'']]; [discriminate| |].
  - destruct (is_digit sg); [|discriminate].
    pose proof (scan_digits_length [sg]) as L.
    destruct (scan_digits [sg]) as [ds r']. intros H. injection H as _ <-.
    cbn [snd List.length] in *. lia.
  - destruct (((sg =? 45) || (sg =? 43)) && is_digit d).
    + cbn [tl]. pose proof (scan_digits_length (d :: s'')) as L.
      destruct (scan_digits (d :: s'')) as [ds r'].
      intros H. injection H as _ <-. cbn [snd List.length] in *. lia.
    + destruct (is_digit sg); [|discriminate].
      pose proof (scan_digits_length (sg :: d :: s'')) as L.
      destruct (scan_digits (sg :: d :: s'')) as [ds r'].
      intros H. injection H as _ <-. cbn [snd List.length] in *. lia.
Qed.

Lemma match_number_length (s r : text) (v : json) :
  match_number s = Some (v, r) -> (List.length r < List.length s)%nat.
Proof.
  unfold match_number.
  set (p := match s with
            | c :: r => if c =? 45 then (true, r) else (false, s)
            | [] => (false, s)
            end).
  assert (Hp : (List.length (snd p) <= List.length s)%nat).
  { unfold p. destruct s as [|c s']; [cbn; lia|].
    destruct (c =? 45); cbn; lia. }
  destruct p as [neg s1]. cbn [snd] in Hp.
  destruct (scan_int_part s1) as [[ip s2]|] eqn:E1; [|discriminate].
  apply scan_int_part_length in E1.
  assert (H3 : forall fp s3,
    match scan_frac s2 with
    | Some (d, r) => (Some d, r)
    | None => (None, s2)
    end = (fp, s3) -> (List.length s3 <= List.length s2)%nat).
  { intros fp s3. destruct (scan_frac s2) as [[d r0]|] eqn:E2.
    - apply scan_frac_length in E2. intros H. injection H as _ <-. lia.
    - intros H. injection H as _ <-. lia. }
  destruct (match scan_frac s2 with
            | Some (d, r) => (Some d, r)
            | None => (None, s2)
            end) as [fp s3].
  specialize (H3 fp s3 eq_refl).
  assert (H4 : forall ep s4,
    match scan_exp s3 with
    | Some (e, r) => (Some e, r)
    | None => (None, s3)
    end = (ep, s4) -> (List.length s4 <= List.length s3)%nat).
  { intros ep s4. destruct (scan_exp s3) as [[e r0]|] eqn:E2.
    - apply scan_exp_length in E2. intros H. injection H as _ <-. lia.
    - intros H. injection H as _ <-. lia. }
  destruct (match scan_exp s3 with
            | Some (e, r) => (Some e, r)
            | None => (None, s3)
            end) as [ep s4].
  specialize (H4 ep s4 eq_refl).
  destruct fp, ep; intros H; injection H as _ <-; lia.
Qed.

Lemma scan_atom_length (s r : text) (v : json) :
  scan_atom s = Some (v, r) -> (List.length r < List.length s)%nat.
Proof.
  unfold scan_atom.
  repeat match goal with
         | |- context [strip_prefix ?p s] =>
             let E := fresh "E" in
             destruct (strip_prefix p s) eqn:E;
             [ apply strip_prefix_length in E; intros H; injection H as _ <-;
               rewrite E; cbn; lia | clear E ]
         | |- context [match_number s] =>
             let E := fresh "E" in
             destruct (match_number s) as [[? ?]|] eqn:E;
             [ apply match_number_length in E; intros H; injection H as _ <-;
               exact E | clear E ]
         end.
  discriminate.
Qed.

Lemma scan_once_S (f : nat) (s : text) :
  scan_once (S f) s =
  match s with
  | [] => DecodeError
  | c :: r =>
      if c =? 34 then
        match scanstring r [] with
        | Some (str, r') => Scanned (JStr str) r'
        | None => DecodeError
        end
      else if c =? 123 then
        match skip_ws r with
        | [] => DecodeError
        | c1 :: r1 =>
            if c1 =? 125 then Scanned (JObj []) r1
            else if c1 =? 34 then
              match parse_members f r1 with
              | Scanned ps r2 => Scanned (JObj (dict_of_pairs ps)) r2
              | DecodeError => DecodeError
              | OutOfFuel => OutOfFuel
              end
            else DecodeError
        end
      else if c =? 91 then
        match skip_ws r with
        | [] => DecodeError
        | c1 :: r1 =>
            if c1 =? 93 then Scanned (JArr []) r1
            else
              match parse_items f (c1 :: r1) with
              | Scanned vs r2 => Scanned (JArr vs) r2
              | DecodeError => DecodeError
              | OutOfFuel => OutOfFuel
              end
        end
      else
        match scan_atom s with
        | Some (v, r') => Scanned v r'
        | None => DecodeError
        end
  end.
Proof. destruct s; reflexivity. Qed.

(** A scanned value takes at least one character. *)
Lemma scan_shorter (f : nat) :
  (forall s v r, scan_once f s = Scanned v r ->
                 (List.length r < List.length s)%nat) /\
  (forall s vs r, parse_items f s = Scanned vs r ->
                  (List.length r < List.length s)%nat) /\
  (forall s ps r, parse_members f s = Scanned ps r ->
                  (List.length r < List.length s)%nat).
Proof.
  induction f as [|f (IHv & IHi & IHm)].
  { repeat split; intros; discriminate. }
  repeat split.
  - intros s v r. rewrite scan_once_S.
    destruct s as [|c s']; [discriminate|]. cbn [List.length].
    destruct (c =? 34).
    { destruct (scanstring s' []) as [[k r']|] eqn:E; [|discriminate].
      apply scanstring_shorter in E. intros H. injection H as _ <-. lia. }
    destruct (c =? 123).
    { destruct (skip_ws s') as [|c1 r1] eqn:E; [discriminate|].
      apply skip_ws_cons_length in E.
      destruct (c1 =? 125); [intros H; injection H as _ <-; lia|].
      destruct (c1 =? 34); [|discriminate].
      destruct (parse_members f r1) as [ps r2| |] eqn:E2; try discriminate.
      apply IHm in E2. intros H. injection H as _ <-. lia. }
    destruct (c =? 91).
    { destruct (skip_ws s') as [|c1 r1] eqn:E; [discriminate|].
      pose proof (skip_ws_length s') as L. rewrite E in L.
      apply skip_ws_cons_length in E.
      destruct (c1 =? 93); [intros H; injection H as _ <-; lia|].
      destruct (parse_items f (c1 :: r1)) as [vs r2| |] eqn:E2;
        try discriminate.
      apply IHi in E2. intros H. injection H as _ <-. lia. }
    destruct (scan_atom (c :: s')) as [[v' r']|] eqn:E; [|discriminate].
    apply scan_atom_length in E. intros H. injection H as _ <-.
    cbn [List.length] in E. lia.
  - intros s vs r. rewrite parse_items_S.
    destruct (scan_once f s) as [v r0| |] eqn:E; try discriminate.
    apply IHv in E.
    destruct (skip_ws r0) as [|c r1] eqn:E1; [discriminate|].
    apply skip_ws_cons_length in E1.
    destruct (c =? 93); [intros H; injection H as _ <-; lia|].
    destruct (c =? 44); [|discriminate].
    destruct (parse_items f (skip_ws r1)) as [vs' r2| |] eqn:E2;
      try discriminate.
    apply IHi in E2. pose proof (skip_ws_length r1) as Lw.
    intros H. injection H as _ <-. lia.
  - intros s ps r. rewrite parse_members_S.
    destruct (scanstring s []) as [[k r1]|] eqn:E; [|discriminate].
    apply scanstring_shorter in E.
    destruct (skip_ws r1) as [|c r2] eqn:E1; [discriminate|].
    apply skip_ws_cons_length in E1.
    destruct (c =? 58); [|discriminate].
    destruct (scan_once f (skip_ws r2)) as [v r3| |] eqn:E2; try discriminate.
    apply IHv in E2. pose proof (skip_ws_length r2) as Lw.
    destruct (skip_ws r3) as [|c1 r4] eqn:E3; [discriminate|].
    apply skip_ws_cons_length in E3.
    destruct (c1 =? 125); [intros H; injection H as _ <-; lia|].
    destruct (c1 =? 44); [|discriminate].
    destruct (skip_ws r4) as [|c2 r5] eqn:E4; [discriminate|].
    apply skip_ws_cons_length in E4.
    destruct (c2 =? 34); [|discriminate].
    destruct (parse_members f r5) as [ps' r6| |] eqn:E5; try discriminate.
    apply IHm in E5. intros H. injection H as _ <-. lia.
Qed.

(** With a budget above twice the length of the text the scanners always
    come to an answer. *)
Lemma scan_fuel_enough (f : nat) :
  (forall s, (2 * List.length s + 1 <= f)%nat -> scan_once f s <> OutOfFuel) /\
  (forall s, (2 * List.length s + 2 <= f)%nat -> parse_items f s <> OutOfFuel) /\
  (forall s, (2 * List.length s + 2 <= f)%nat ->
             parse_members f s <> OutOfFuel).
Proof.
  induction f as [|f (IHv & IHi & IHm)].
  { repeat split; intros; lia. }
  destruct (scan_shorter f) as (Lv & Li & Lm).
  repeat split.
  - intros s Hf. rewrite scan_once_S.
    destruct s as [|c s']; [discriminate|]. cbn [List.length] in Hf.
    destruct (c =? 34).
    { destruct (scanstring s' []) as [[k r']|]; discriminate. }
    destruct (c =? 123).
    { destruct (skip_ws s') as [|c1 r1] eqn:E; [discriminate|].
      apply skip_ws_cons_length in E.
      destruct (c1 =? 125); [discriminate|].
      destruct (c1 =? 34); [|discriminate].
      pose proof (IHm r1 ltac:(lia)) as Hm.
      destruct (parse_members f r1); (discriminate || contradiction). }
    destruct (c =? 91).
    { destruct (skip_ws s') as [|c1 r1] eqn:E; [discriminate|].
      pose proof (skip_ws_length s') as L. rewrite E in L.
      destruct (c1 =? 93); [discriminate|].
      pose proof (IHi (c1 :: r1) ltac:(lia)) as Hi.
      destruct (parse_items f (c1 :: r1)); (discriminate || contradiction). }
    destruct (scan_atom (c :: s')) as [[v' r']|]; discriminate.
  - intros s Hf. rewrite parse_items_S.
    pose proof (IHv s ltac:(lia)) as Hv.
    destruct (scan_once f s) as [v r0| |] eqn:E;
      [| discriminate | contradiction].
    apply Lv in E.
    destruct (skip_ws r0) as [|c r1] eqn:E1; [discriminate|].
    apply skip_ws_cons_length in E1.
    destruct (c =? 93); [discriminate|].
    destruct (c =? 44); [|discriminate].
    pose proof (skip_ws_length r1) as Lw.
    pose proof (IHi (skip_ws r1) ltac:(lia)) as Hi.
    destruct (parse_items f (skip_ws r1)); (discriminate || contradiction).
  - intros s Hf. rewrite parse_members_S.
    destruct (scanstring s []) as [[k r1]|] eqn:E; [|discriminate].
    apply scanstring_shorter in E.
    destruct (skip_ws r1) as [|c r2] eqn:E1; [discriminate|].
    apply skip_ws_cons_length in E1.
    destruct (c =? 58); [|discriminate].
    pose proof (skip_ws_length r2) as Lw.
    pose proof (IHv (skip_ws r2) ltac:(lia)) as Hv.
    destruct (scan_once f (skip_ws r2)) as [v r3| |] eqn:E2;
      [| discriminate | contradiction].
    apply Lv in E2.
    destruct (skip_ws r3) as [|c1 r4] eqn:E3; [discriminate|].
    apply skip_ws_cons_length in E3.
    destruct (c1 =? 125); [discriminate|].
    destruct (c1 =? 44); [|discriminate].
    destruct (skip_ws r4) as [|c2 r5] eqn:E4; [discriminate|].
    apply skip_ws_cons_length in E4.
    destruct (c2 =? 34); [|discriminate].
    pose proof (IHm r5 ltac:(lia)) as Hm.
    destruct (parse_members f r5); (discriminate || contradiction).
Qed.

(** An answer does not change when the budget grows. *)
Lemma scan_fuel_step (f : nat) :
  (forall s, scan_once f s <> OutOfFuel ->
             scan_once (S f) s = scan_once f s) /\
  (forall s, parse_items f s <> OutOfFuel ->
             parse_items (S f) s = parse_items f s) /\
  (forall s, parse_members f s <> OutOfFuel ->
             parse_members (S f) s = parse_members f s).
Proof.
  induction f as [|f (IHv & IHi & IHm)].
  { repeat split; intros s H; now contradiction H. }
  repeat split.
  - intros s. rewrite (scan_once_S (S f)), (scan_once_S f).
    destruct s as [|c s']; [reflexivity|].
    destruct (c =? 34); [reflexivity|].
    destruct (c =? 123).
    { destruct (skip_ws s') as [|c1 r1]; [reflexivity|].
      destruct (c1 =? 125); [reflexivity|].
      destruct (c1 =? 34); [|reflexivity].
      intros H. rewrite IHm; [reflexivity|].
      intros E. rewrite E in H. now contradiction H. }
    destruct (c =? 91); [|reflexivity].
    destruct (skip_ws s') as [|c1 r1]; [reflexivity|].
    destruct (c1 =? 93); [reflexivity|].
    intros H. rewrite IHi; [reflexivity|].
    intros E. rewrite E in H. now contradiction H.
  - intros s. rewrite (parse_items_S (S f)), (parse_items_S f).
    intros H.
    assert (Hv : scan_once f s <> OutOfFuel).
    { intros E. rewrite E in H. now contradiction H. }
    rewrite (IHv s Hv).
    destruct (scan_once f s) as [v r0| |]; try reflexivity.
    destruct (skip_ws r0) as [|c r1]; [reflexivity|].
    destruct (c =? 93); [reflexivity|].
    destruct (c =? 44); [|reflexivity].
    rewrite IHi; [reflexivity|].
    intros E. rewrite E in H. now contradiction H.
  - intros s. rewrite (parse_members_S (S f)), (parse_members_S f).
    intros H.
    destruct (scanstring s []) as [[k r1]|]; [|reflexivity].
    destruct (skip_ws r1) as [|c r2]; [reflexivity|].
    destruct (c =? 58); [|reflexivity].
    assert (Hv : scan_once f (skip_ws r2) <> OutOfFuel).
    { intros E. rewrite E in H. now contradiction H. }
    rewrite (IHv _ Hv).
    destruct (scan_once f (skip_ws r2)) as [v r3| |]; try reflexivity.
    destruct (skip_ws r3) as [|c1 r4]; [reflexivity|].
    destruct (c1 =? 125); [reflexivity|].
    destruct (c1 =? 44); [|reflexivity].
    destruct (skip_ws r4) as [|c2 r5]; [reflexivity|].
    destruct (c2 =? 34); [|reflexivity].
    rewrite IHm; [reflexivity|].
    intros E. rewrite E in H. now contradiction H.
Qed.

Lemma scan_once_fuel_mono (f g : nat) (s : text) :
  (f <= g)%nat -> scan_once f s <> OutOfFuel -> scan_once g s = scan_once f s.
Proof.
  induction 1 as [|g Hle IH]; intros H; [reflexivity|].
  rewrite <- (IH H). apply scan_fuel_step. now rewrite (IH H).
Qed.

(** [json_loads] never stops for lack of budget: its [None] is the
    decoder's [JSONDecodeError]. *)
Lemma json_loads_budget (s : text) :
  scan_once (2 * List.length s + 1) (skip_ws s) <> OutOfFuel.
Proof.
  apply scan_fuel_enough. pose proof (skip_ws_length s). lia.
Qed.

Lemma encode_dumpable (v : json) :
  dumpable v -> forall level, exists t, encode level v = Some t.
Proof.
  induction v using json_induction; intros Hd level;
    try (eexists; reflexivity).
  - destruct b; eexists; reflexivity.
  - contradiction.
  - rewrite encode_arr. apply dumpable_arr in Hd.
    assert (G : exists b, encode_items level l = Some b).
    { induction l as [|x r IH]; [eexists; reflexivity|].
      inversion H; subst. inversion Hd; subst.
      destruct (H2 H4 (S level)) as [a Ea].
      destruct (IH H3 H5) as [b Eb].
      cbn [encode_items]. rewrite Ea, Eb. eexists; reflexivity. }
    destruct G as [b ->]. destruct l; eexists; reflexivity.
  - rewrite encode_obj. apply dumpable_obj in Hd as [_ Hd].
    assert (G : exists b, encode_members level d = Some b).
    { induction d as [|[k x] r IH]; [eexists; reflexivity|].
      inversion H; subst. inversion Hd as [|? ? [_ Hx] Hr]; subst.
      cbn [snd] in *.
      destruct (H2 Hx (S level)) as [a Ea].
      destruct (IH H3 Hr) as [b Eb].
      cbn [encode_members]. rewrite Ea, Eb. eexists; reflexivity. }
    destruct G as [b ->]. destruct d; eexists; reflexivity.
Qed.

(** What [json.dump] writes, [json.load] reads back. *)
Lemma json_loads_dumps (v : json) (t : text) :
  dumpable v -> json_dumps v = Some t -> json_loads t = Some v.
Proof.
  intros Hd Ht. unfold json_dumps in Ht.
  destruct (encode_reads_back v Hd 0%nat t [] Ht I) as [f0 Hf].
  rewrite List.app_nil_r in Hf.
  destruct (encode_head _ _ _ Ht) as (c & t' & E & Hws & _ & Hbom & _).
  unfold json_loads.
  assert (Hb : starts_with_bom t = false).
  { rewrite E. now apply N.eqb_neq. }
  rewrite Hb.
  assert (Hs : skip_ws t = t) by (rewrite E; now apply skip_ws_start).
  rewrite Hs.
  pose proof (json_loads_budget t) as Hne. rewrite Hs in Hne.
  set (F := (2 * List.length t + 1)%nat) in *.
  assert (HF : scan_once F t = Scanned v []).
  { rewrite <- (scan_once_fuel_mono F (Nat.max F f0) t) by (lia || exact Hne).
    apply Hf. lia. }
  now rewrite HF.
Qed.

Lemma plain_text_u_id : plain_text (u "id").
Proof. repeat constructor. Qed.
Lemma plain_text_u_description : plain_text (u "description").
Proof. repeat constructor. Qed.
Lemma plain_text_u_status : plain_text (u "status").
Proof. repeat constructor. Qed.
Lemma plain_text_u_created_at : plain_text (u "created_at").
Proof. repeat constructor. Qed.

Lemma plain_status_text (s : status) : plain_text (status_text s).
Proof. destruct s; repeat constructor. Qed.

Lemma task_keys_nodup :
  NoDup [u "id"; u "description"; u "status"; u "created_at"].
Proof.
  repeat constructor; cbn; intuition discriminate.
Qed.

Lemma dumpable_task (t : task) : well_formed t -> dumpable (task_json t).
Proof.
  intros [Hd Hc]. unfold task_json. apply dumpable_obj. split.
  - exact task_keys_nodup.
  - repeat constructor; cbn [fst snd dumpable];
      auto using plain_text_u_id, plain_text_u_description,
        plain_text_u_status, plain_text_u_created_at, plain_status_text.
Qed.

Lemma dumpable_store (ts : list task) :
  Forall well_formed ts -> dumpable (store_json ts).
Proof.
  intros H. unfold store_json. apply dumpable_arr.
  induction H; constructor; auto using dumpable_task.
Qed.

(** ** The dynamic operations on a store of well-formed tasks *)

Lemma load_tasks_world (w : world) : snd (load_tasks w) = w.
Proof.
  unfold load_tasks. destruct (tasks_file w) as [c|]; [|reflexivity].
  destruct (json_loads c); reflexivity.
Qed.

Lemma holds_load (w : world) (ts : list task) :
  holds w ts -> load_tasks w = (Ret (store_json ts), w).
Proof.
  unfold holds. intros H. pose proof (load_tasks_world w) as Hw.
  destruct (load_tasks w) as [r w']. cbn [fst snd] in *. now subst.
Qed.

Lemma getitem_id (t : task) : getitem (task_json t) (u "id") = Ret (JInt (t_id t)).
Proof. reflexivity. Qed.

Lemma getitem_status (t : task) :
  getitem (task_json t) (u "status") = Ret (JStr (status_text (t_status t))).
Proof. reflexivity. Qed.

Lemma getitem_description (t : task) :
  getitem (task_json t) (u "description") = Ret (JStr (t_description t)).
Proof. reflexivity. Qed.

Lemma setitem_status_done (t : task) :
  setitem (task_json t) (u "status") (JStr (u "done"))
  = Ret (task_json (mark_done t)).
Proof. reflexivity. Qed.

Lemma status_is_done (t : task) :
  py_eq_str (JStr (status_text (t_status t))) (u "done") = negb (is_pending t).
Proof. unfold is_pending. destruct (t_status t); reflexivity. Qed.

Lemma truthy_task (t : task) : truthy (task_json t) = true.
Proof. reflexivity. Qed.

Lemma truthy_store (ts : list task) :
  truthy (store_json ts) = match ts with [] => false | _ => true end.
Proof. destruct ts; reflexivity. Qed.

Lemma max_id_tasks (ts : list task) (m : Z) :
  max_id (List.map task_json ts) (Some m)
  = Ret (fold_left Z.max (ids ts) m).
Proof.
  revert m. induction ts as [|t r IH]; intros m; [reflexivity|].
  cbn [List.map max_id]. rewrite getitem_id. cbn [rbind].
  rewrite IH. cbn [ids List.map fold_left]. do 2 f_equal.
  destruct (Z.gtb_spec (t_id t) m); lia.
Qed.

Lemma fold_max_shift (r : list Z) (m a : Z) :
  fold_right Z.max (Z.max m a) r = Z.max a (fold_right Z.max m r).
Proof. induction r as [|b r IH]; cbn [fold_right]; lia. Qed.

Lemma fold_left_max (r : list Z) (m : Z) :
  fold_left Z.max r m = fold_right Z.max m r.
Proof.
  revert m. induction r as [|a r IH]; intros m; [reflexivity|].
  cbn [fold_left fold_right]. now rewrite IH, fold_max_shift.
Qed.

Lemma find_task_tasks (ts : list task) (k : Z) (i : nat) :
  find_task (List.map task_json ts) k i
  = Ret (match first_match k ts with
         | Some (j, t) => Some ((i + j)%nat, task_json t)
         | None => None
         end).
Proof.
  revert i. induction ts as [|t r IH]; intros i; [reflexivity|].
  cbn [List.map find_task first_match]. rewrite getitem_id.
  cbn [rbind py_eq_int].
  destruct (t_id t =? k)%Z.
  - now rewrite Nat.add_0_r.
  - rewrite IH. destruct (first_match k r) as [[j x]|]; [|reflexivity].
    now rewrite Nat.add_succ_r.
Qed.

Lemma keep_others_tasks (ts : list task) (k : Z) :
  keep_others (List.map task_json ts) k
  = Ret (List.map task_json (without k ts)).
Proof.
  induction ts as [|t r IH]; [reflexivity|].
  cbn [List.map keep_others]. rewrite getitem_id.
  cbn [rbind py_eq_int]. rewrite IH. cbn [rbind].
  unfold without. cbn [filter].
  destruct (t_id t =? k)%Z; reflexivity.
Qed.

Lemma first_match_none (k : Z) (ts : list task) :
  ~ In k (ids ts) -> first_match k ts = None.
Proof.
  induction ts as [|t r IH]; intros H; [reflexivity|].
  cbn in H. cbn [first_match].
  destruct (Z.eqb_spec (t_id t) k); [tauto|].
  rewrite IH; tauto.
Qed.

Lemma without_absent (k : Z) (ts : list task) :
  ~ In k (ids ts) -> without k ts = ts.
Proof.
  induction ts as [|t r IH]; intros H; [reflexivity|].
  cbn in H. unfold without in *. cbn [filter].
  destruct (Z.eqb_spec (t_id t) k); [tauto|].
  cbn [negb]. rewrite IH; tauto.
Qed.

Lemma task_json_inj (a b : task) : task_json a = task_json b -> a = b.
Proof.
  destruct a as [i d s c], b as [i' d' s' c']. unfold task_json.
  cbn [t_id t_description t_status t_created_at].
  intros H.
  assert (Ei : i = i') by congruence.
  assert (Ed : d = d') by congruence.
  assert (Ec : c = c') by congruence.
  assert (Es : status_text s = status_text s') by congruence.
  subst. f_equal.
  destruct s, s'; (reflexivity || (vm_compute in Es; discriminate Es)).
Qed.

(** A world holds one store. *)
Lemma holds_unique (w : world) (ts ts' : list task) :
  holds w ts -> holds w ts' -> ts = ts'.
Proof.
  unfold holds, store_json. intros H H'. rewrite H in H'.
  assert (E : List.map task_json ts = List.map task_json ts') by congruence.
  clear H H'. revert ts' E.
  induction ts as [|a r IH]; intros [|b r'] E;
    try discriminate; [reflexivity|].
  cbn [List.map] in E.
  assert (Ea : task_json a = task_json b) by congruence.
  assert (Er : List.map task_json r = List.map task_json r') by congruence.
  f_equal; [now apply task_json_inj | now apply IH].
Qed.

Lemma holds_same_file (w w' : world) (ts : list task) :
  tasks_file w' = tasks_file w -> holds w ts -> holds w' ts.
Proof.
  unfold holds, load_tasks. intros ->.
  destruct (tasks_file w) as [c|]; [|trivial].
  destruct (json_loads c); trivial.
Qed.

(** ** Saving a store *)

Lemma save_store (ts : list task) :
  Forall well_formed ts ->
  exists t,
    json_dumps (store_json ts) = Some t /\
    json_loads t = Some (store_json ts) /\
    forall w, save_tasks (store_json ts) w
              = (Ret tt, mkWorld (Some t) (trace w ++ [EvWrite t])).
Proof.
  intros Hwf. pose proof (dumpable_store ts Hwf) as Hd.
  destruct (encode_dumpable _ Hd 0%nat) as [t Ht].
  exists t. repeat split.
  - exact Ht.
  - now apply json_loads_dumps.
  - intros w. unfold save_tasks, json_dumps. now rewrite Ht.
Qed.

Lemma holds_file (t : text) (tr : list event) (ts : list task) :
  json_loads t = Some (store_json ts) -> holds (mkWorld (Some t) tr) ts.
Proof. intros H. unfold holds, load_tasks. cbn [tasks_file]. now rewrite H. Qed.

(** ** [done] on a stored task *)

Lemma list_set_complete (k : Z) (ts : list task) (j : nat) (t : task) :
  first_match k ts = Some (j, t) ->
  list_set (List.map task_json ts) j (task_json (mark_done t))
  = List.map task_json (complete k ts).
Proof.
  revert j. induction ts as [|a r IH]; intros j H; [discriminate|].
  cbn [first_match complete] in *.
  destruct (t_id a =? k)%Z.
  - injection H as <- <-. reflexivity.
  - destruct (first_match k r) as [[j' x]|]; [|discriminate].
    injection H as <- <-. cbn [List.map list_set]. now rewrite (IH j').
Qed.

Lemma first_match_unique (t0 : task) (ts : list task) :
  NoDup (ids ts) -> In t0 ts -> exists j, first_match (t_id t0) ts = Some (j, t0).
Proof.
  induction ts as [|a r IH]; intros Hnd Hin; [contradiction|].
  cbn [ids List.map] in Hnd. inversion Hnd as [|? ? Hna Hr]; subst.
  cbn [first_match]. destruct Hin as [->|Hin].
  - rewrite Z.eqb_refl. eauto.
  - destruct (Z.eqb_spec (t_id a) (t_id t0)) as [E|_].
    + exfalso. apply Hna. rewrite E. now apply in_map.
    + destruct (IH Hr Hin) as [j ->]. eauto.
Qed.

Lemma complete_unique (k : Z) (ts : list task) :
  NoDup (ids ts) ->
  complete k ts
  = List.map (fun a => if (t_id a =? k)%Z then mark_done a else a) ts.
Proof.
  induction ts as [|a r IH]; intros Hnd; [reflexivity|].
  cbn [ids List.map] in Hnd. inversion Hnd as [|? ? Hna Hr]; subst.
  cbn [complete List.map].
  destruct (Z.eqb_spec (t_id a) k) as [E|_].
  - f_equal. symmetry. rewrite <- (map_id r) at 2.
    apply map_ext_in. intros b Hb.
    destruct (Z.eqb_spec (t_id b) k) as [E'|_]; [|reflexivity].
    exfalso. apply Hna. rewrite E, <- E'. now apply in_map.
  - now rewrite IH.
Qed.

Lemma ids_complete (k : Z) (ts : list task) : ids (complete k ts) = ids ts.
Proof.
  unfold ids. induction ts as [|a r IH]; [reflexivity|].
  cbn [complete]. destruct (t_id a =? k)%Z; cbn [List.map];
    [reflexivity | now rewrite IH].
Qed.

Lemma well_formed_complete (k : Z) (ts : list task) :
  Forall well_formed ts -> Forall well_formed (complete k ts).
Proof.
  induction 1 as [|a r Ha Hr IH]; [constructor|].
  cbn [complete]. destruct (t_id a =? k)%Z; constructor; assumption.
Qed.

(** [done] finds a task that is still pending: the store with that task
    completed is written, then the success message is printed. *)
Lemma done_completes (w : world) (ts : list task) (k : Z) (j : nat) (t : task) :
  holds w ts -> Forall well_formed ts ->
  first_match k ts = Some (j, t) -> t_status t = Pending ->
  exists content,
    json_dumps (store_json (complete k ts)) = Some content /\
    json_loads content = Some (store_json (complete k ts)) /\
    done k w = (Ret tt,
                mkWorld (Some content)
                  (trace w ++ [EvWrite content; EvPrint (MsgCompleted k)])).
Proof.
  intros H Hwf Hm Hp.
  destruct (save_store (complete k ts) (well_formed_complete k ts Hwf))
    as (c & Hc & Hl & Hs).
  exists c. repeat split; try assumption.
  unfold done, bind. rewrite (holds_load w ts H).
  cbn [store_json py_iter lift].
  rewrite find_task_tasks, Hm. rewrite truthy_task. cbn [negb].
  rewrite getitem_status, status_is_done. unfold is_pending. rewrite Hp.
  cbn [negb]. rewrite setitem_status_done.
  cbn [Nat.add]. rewrite (list_set_complete k ts j t Hm).
  change (JArr (List.map task_json (complete k ts)))
    with (store_json (complete k ts)).
  rewrite Hs. unfold console_print. cbn [tasks_file trace].
  now rewrite <- List.app_assoc.
Qed.

(** [done] finds a task that is done already: a warning and nothing else. *)
Lemma done_warns (w : world) (ts : list task) (k : Z) (j : nat) (t : task) :
  holds w ts ->
  first_match k ts = Some (j, t) -> t_status t = Done ->
  done k w = (Ret tt,
              mkWorld (tasks_file w) (trace w ++ [EvPrint (MsgAlreadyDone k)])).
Proof.
  intros H Hm Hp.
  unfold done, bind. rewrite (holds_load w ts H).
  cbn [store_json py_iter lift].
  rewrite find_task_tasks, Hm. rewrite truthy_task. cbn [negb].
  rewrite getitem_status, status_is_done. unfold is_pending. rewrite Hp.
  reflexivity.
Qed.

Lemma writes_app (w : world) (es : list event) :
  writes (mkWorld (tasks_file w) (trace w ++ es))
  = writes w ++ flat_map (fun e => match e with EvWrite c => [c] | _ => [] end) es.
Proof. unfold writes. cbn [trace]. apply flat_map_app. Qed.

Lemma first_match_complete (k : Z) (ts : list task) (j : nat) (t : task) :
  first_match k ts = Some (j, t) ->
  first_match k (complete k ts) = Some (j, mark_done t).
Proof.
  revert j. induction ts as [|a r IH]; intros j H; [discriminate|].
  cbn [first_match complete] in *.
  destruct (Z.eqb_spec (t_id a) k) as [E|E].
  - injection H as <- <-. cbn [first_match mark_done t_id].
    now rewrite E, Z.eqb_refl.
  - destruct (first_match k r) as [[j' x]|]; [|discriminate].
    injection H as <- <-. cbn [first_match].
    destruct (Z.eqb_spec (t_id a) k); [contradiction|].
    now rewrite (IH j').
Qed.

(** ** [add] and [delete] on a store *)

Lemma get_next_id_holds (w : world) (ts : list task) :
  holds w ts -> get_next_id w = (Ret (spec_next_id ts), w).
Proof.
  intros H. unfold get_next_id, bind.
  rewrite (holds_load w ts H), truthy_store.
  destruct ts as [|t r]; [reflexivity|].
  cbn [negb store_json py_iter lift List.map max_id].
  rewrite getitem_id. cbn [rbind]. rewrite max_id_tasks.
  unfold ret, spec_next_id. cbn [ids List.map].
  now rewrite fold_left_max, Z.add_comm.
Qed.

Lemma fold_max_ge (r : list Z) (m i : Z) :
  i = m \/ In i r -> (i <= fold_right Z.max m r)%Z.
Proof.
  induction r as [|a r IH]; cbn [fold_right In].
  - intros [->|[]]. lia.
  - intros [->|[->|Hi]]; [specialize (IH (or_introl eq_refl)) | | 
                          specialize (IH (or_intror Hi))]; lia.
Qed.

(** The next id is above every stored id. *)
Lemma spec_next_id_above (ts : list task) (i : Z) :
  In i (ids ts) -> (i < spec_next_id ts)%Z.
Proof.
  unfold spec_next_id. destruct (ids ts) as [|a r]; [contradiction|].
  intros Hi. pose proof (fold_max_ge r a i) as G.
  cbn [In] in Hi.
  assert (i <= fold_right Z.max a r)%Z
    by (apply G; destruct Hi; [left; congruence | right; assumption]).
  lia.
Qed.

(** ** Printing *)

Lemma closing_tag_unsafe (s : text) :
  starts_with_closing_tag s = true -> console_safe s = false.
Proof.
  destruct s as [|c [|d r]]; try discriminate.
  cbn [starts_with_closing_tag console_safe forallb]. intros H.
  apply andb_prop in H as [H _]. apply andb_prop in H as [H _].
  unfold console_char. now rewrite H.
Qed.

Lemma console_print_safe (d : text) (w : world) :
  console_safe d = true ->
  console_print (MsgAdded d) w
  = (Ret tt, mkWorld (tasks_file w) (trace w ++ [EvPrint (MsgAdded d)])).
Proof. intros H. unfold console_print, render_markup. now rewrite H. Qed.

Lemma console_print_closing_tag (d : text) (w : world) :
  starts_with_closing_tag d = true ->
  console_print (MsgAdded d) w = (Raise MarkupError, w).
Proof.
  intros H. unfold console_print, render_markup.
  now rewrite (closing_tag_unsafe d H), H.
Qed.

(** Printing leaves the file as it is, however it ends. *)
Lemma console_print_file (m : message) (w : world) :
  tasks_file (snd (console_print m w)) = tasks_file w.
Proof.
  unfold console_print. destruct m; try reflexivity.
  now destruct (render_markup description).
Qed.

Lemma console_print_trace (m : message) (w : world) :
  trace (snd (console_print m w)) = trace w
  \/ trace (snd (console_print m w)) = trace w ++ [EvPrint m].
Proof.
  unfold console_print. destruct m; try (right; reflexivity).
  destruct (render_markup description); [right | left ..]; reflexivity.
Qed.

Lemma console_print_writes (m : message) (w : world) :
  writes (snd (console_print m w)) = writes w.
Proof.
  unfold writes.
  destruct (console_print_trace m w) as [-> | ->]; [reflexivity|].
  rewrite flat_map_app. cbn. apply List.app_nil_r.
Qed.

Lemma console_print_table_file (rows : list row) (w : world) :
  tasks_file (snd (console_print_table rows w)) = tasks_file w.
Proof.
  unfold console_print_table. now destruct (render_table rows).
Qed.

Lemma console_print_table_trace (rows : list row) (w : world) :
  trace (snd (console_print_table rows w)) = trace w
  \/ trace (snd (console_print_table rows w)) = trace w ++ [EvTable rows].
Proof.
  unfold console_print_table.
  destruct (render_table rows); [right | left ..]; reflexivity.
Qed.

(** [add] on a store: the store with the new task at the end is written,
    then the confirmation is printed. *)
Lemma add_writes (w : world) (ts : list task) (d now : text) :
  holds w ts -> Forall well_formed ts -> plain_text d -> plain_text now ->
  let ts' := ts ++ [mkTask (spec_next_id ts) d Pending now] in
  exists content,
    json_dumps (store_json ts') = Some content /\
    json_loads content = Some (store_json ts') /\
    add d now w
    = console_print (MsgAdded d)
        (mkWorld (Some content) (trace w ++ [EvWrite content])).
Proof.
  intros H Hwf Hd Hn ts'.
  assert (Hwf' : Forall well_formed ts').
  { apply Forall_app. split; [assumption|]. repeat constructor; assumption. }
  destruct (save_store ts' Hwf') as (c & Hc & Hl & Hs).
  exists c. repeat split; try assumption.
  unfold add, bind. rewrite (holds_load w ts H), (get_next_id_holds w ts H).
  cbn [store_json py_append lift].
  change (JObj [(u "id", JInt (spec_next_id ts));
                (u "description", JStr d);
                (u "status", JStr (u "pending"));
                (u "created_at", JStr now)])
    with (task_json (mkTask (spec_next_id ts) d Pending now)).
  change [task_json (mkTask (spec_next_id ts) d Pending now)]
    with (List.map task_json [mkTask (spec_next_id ts) d Pending now]).
  rewrite <- map_app.
  change (JArr (List.map task_json
                  (ts ++ [mkTask (spec_next_id ts) d Pending now])))
    with (store_json ts').
  rewrite Hs.
  now destruct (console_print (MsgAdded d)
                  (mkWorld (Some c) (trace w ++ [EvWrite c]))) as [[| | |] ?].
Qed.

Lemma console_print_table_writes (rows : list row) (w : world) :
  writes (snd (console_print_table rows w)) = writes w.
Proof.
  unfold writes.
  destruct (console_print_table_trace rows w) as [-> | ->]; [reflexivity|].
  rewrite flat_map_app. cbn. apply List.app_nil_r.
Qed.

(** The file after [add], whether or not the confirmation was printed. *)
Lemma add_file (w : world) (ts : list task) (d now : text) :
  holds w ts -> Forall well_formed ts -> plain_text d -> plain_text now ->
  let ts' := ts ++ [mkTask (spec_next_id ts) d Pending now] in
  exists content,
    json_dumps (store_json ts') = Some content /\
    json_loads content = Some (store_json ts') /\
    tasks_file (snd (add d now w)) = Some content.
Proof.
  intros H Hwf Hd Hn ts'.
  destruct (add_writes w ts d now H Hwf Hd Hn) as (c & Hc & Hl & E).
  exists c. repeat split; try assumption.
  rewrite E. now rewrite console_print_file.
Qed.

(** The store after [add], whether or not the confirmation was printed. *)
Lemma store_after_add (w : world) (ts : list task) (d now : text) :
  holds w ts -> Forall well_formed ts -> plain_text d -> plain_text now ->
  holds (snd (add d now w)) (ts ++ [mkTask (spec_next_id ts) d Pending now]).
Proof.
  intros H Hwf Hd Hn.
  destruct (add_file w ts d now H Hwf Hd Hn) as (c & _ & Hl & E).
  unfold holds, load_tasks. now rewrite E, Hl.
Qed.

(** [add] of a description that the console prints. *)
Lemma add_appends (w : world) (ts : list task) (d now : text) :
  holds w ts -> Forall well_formed ts -> plain_text d -> plain_text now ->
  console_safe d = true ->
  let ts' := ts ++ [mkTask (spec_next_id ts) d Pending now] in
  exists content,
    json_dumps (store_json ts') = Some content /\
    json_loads content = Some (store_json ts') /\
    add d now w
    = (Ret tt, mkWorld (Some content)
                 (trace w ++ [EvWrite content; EvPrint (MsgAdded d)])).
Proof.
  intros H Hwf Hd Hn Hs ts'.
  destruct (add_writes w ts d now H Hwf Hd Hn) as (c & Hc & Hl & E).
  exists c. repeat split; try assumption.
  rewrite E, (console_print_safe d _ Hs). cbn [tasks_file trace].
  now rewrite <- List.app_assoc.
Qed.

Lemma without_shorter (k : Z) (ts : list task) :
  In k (ids ts) -> (List.length (without k ts) < List.length ts)%nat.
Proof.
  unfold without.
  induction ts as [|a r IH]; [contradiction|].
  cbn [ids List.map In filter List.length].
  pose proof (filter_length_le (fun t => negb (t_id t =? k)%Z) r) as L.
  destruct (Z.eqb_spec (t_id a) k) as [E|E]; cbn [negb List.length].
  - intros _. lia.
  - intros [Hk|Hk]; [contradiction|]. specialize (IH Hk). lia.
Qed.

Lemma well_formed_without (k : Z) (ts : list task) :
  Forall well_formed ts -> Forall well_formed (without k ts).
Proof.
  intros H. apply Forall_forall. intros t Ht.
  apply filter_In in Ht as [Ht _].
  now apply (proj1 (Forall_forall _ _) H).
Qed.

(** [delete] of a stored id: the store without that id is written. *)
Lemma delete_removes (w : world) (ts : list task) (k : Z) :
  holds w ts -> Forall well_formed ts -> In k (ids ts) ->
  exists content,
    json_dumps (store_json (without k ts)) = Some content /\
    json_loads content = Some (store_json (without k ts)) /\
    delete k w
    = (Ret tt, mkWorld (Some content)
                 (trace w ++ [EvWrite content; EvPrint (MsgDeleted k)])).
Proof.
  intros H Hwf Hin.
  destruct (save_store (without k ts) (well_formed_without k ts Hwf))
    as (c & Hc & Hl & Hs).
  exists c. repeat split; try assumption.
  unfold delete, bind. rewrite (holds_load w ts H).
  cbn [store_json py_len py_iter lift].
  rewrite keep_others_tasks. rewrite !length_map.
  pose proof (without_shorter k ts Hin) as L.
  destruct (Nat.eqb_spec (List.length (without k ts)) (List.length ts));
    [lia|].
  change (JArr (List.map task_json (without k ts)))
    with (store_json (without k ts)).
  rewrite Hs. unfold console_print. cbn [tasks_file trace].
  now rewrite <- List.app_assoc.
Qed.

Lemma delete_not_found (w : world) (ts : list task) (k : Z) :
  holds w ts -> ~ In k (ids ts) ->
  delete k w = (Exit 1%Z, mkWorld (tasks_file w)
                            (trace w ++ [EvPrint (MsgNotFound k)])).
Proof.
  intros H Hx. unfold delete, bind. rewrite (holds_load w ts H).
  cbn [store_json py_len py_iter lift].
  rewrite keep_others_tasks, (without_absent k ts Hx).
  now rewrite Nat.eqb_refl.
Qed.

Lemma done_not_found (w : world) (ts : list task) (k : Z) :
  holds w ts -> ~ In k (ids ts) ->
  done k w = (Exit 1%Z, mkWorld (tasks_file w)
                          (trace w ++ [EvPrint (MsgNotFound k)])).
Proof.
  intros H Hx. unfold done, bind. rewrite (holds_load w ts H).
  cbn [store_json py_iter lift].
  now rewrite find_task_tasks, (first_match_none k ts Hx).
Qed.

Lemma first_match_in (k : Z) (ts : list task) :
  In k (ids ts) -> exists j t, first_match k ts = Some (j, t).
Proof.
  induction ts as [|a r IH]; [contradiction|].
  cbn [ids List.map In first_match].
  destruct (Z.eqb_spec (t_id a) k) as [E|E]; [eauto|].
  intros [Hk|Hk]; [contradiction|].
  destruct (IH Hk) as (j & t & ->). eauto.
Qed.

Lemma nodup_without (k : Z) (ts : list task) :
  NoDup (ids ts) -> NoDup (ids (without k ts)).
Proof.
  unfold without, ids.
  induction ts as [|a r IH]; intros H; [constructor|].
  cbn [List.map] in H. inversion H as [|? ? Hna Hr]; subst.
  cbn [filter]. destruct (negb (t_id a =? k)%Z); [|now apply IH].
  cbn [List.map]. constructor; [|now apply IH].
  intros Hin. apply Hna. apply in_map_iff in Hin as (b & Eb & Hb).
  apply filter_In in Hb as [Hb _]. apply in_map_iff. eauto.
Qed.

Lemma nodup_add (ts : list task) (d now : text) :
  NoDup (ids ts) ->
  NoDup (ids (ts ++ [mkTask (spec_next_id ts) d Pending now])).
Proof.
  intros H. unfold ids. rewrite map_app. cbn [List.map t_id].
  apply NoDup_app; [exact H | repeat constructor; intros [] |].
  intros i Hi [<-|[]].
  pose proof (spec_next_id_above ts _ Hi). lia.
Qed.

Lemma in_ids_without (k j : Z) (ts : list task) :
  In j (ids ts) -> j <> k -> In j (ids (without k ts)).
Proof.
  unfold ids, without. intros Hj Hne.
  apply in_map_iff in Hj as (t & <- & Ht).
  apply in_map_iff. exists t. split; [reflexivity|].
  apply filter_In. split; [assumption|].
  now destruct (Z.eqb_spec (t_id t) k).
Qed.

(** ** [list] on a store *)

Lemma sort_keys_tasks (ts : list task) :
  sort_keys (List.map task_json ts)
  = Ret (List.map (fun t => (JInt (t_id t), task_json t)) ts).
Proof.
  induction ts as [|t r IH]; [reflexivity|].
  cbn [List.map sort_keys]. rewrite getitem_id. cbn [rbind].
  now rewrite IH.
Qed.

Lemma int_keys_tasks (ts : list task) :
  int_keys (List.map (fun t => (JInt (t_id t), task_json t)) ts)
  = Some (List.map (fun t => (t_id t, task_json t)) ts).
Proof.
  induction ts as [|t r IH]; [reflexivity|].
  cbn [List.map int_keys]. now rewrite IH.
Qed.

Lemma insert_by_key_tasks (x : task) (l : list task) :
  insert_by_key (t_id x, task_json x)
    (List.map (fun t => (t_id t, task_json t)) l)
  = List.map (fun t => (t_id t, task_json t)) (insert_task x l).
Proof.
  induction l as [|y r IH]; [reflexivity|].
  cbn [List.map insert_by_key insert_task fst].
  destruct (t_id x <=? t_id y)%Z; [reflexivity|].
  cbn [List.map]. now rewrite IH.
Qed.

Lemma stable_sort_tasks (ts : list task) :
  stable_sort (List.map (fun t => (t_id t, task_json t)) ts)
  = List.map (fun t => (t_id t, task_json t)) (sort_tasks ts).
Proof.
  unfold stable_sort, sort_tasks.
  induction ts as [|t r IH]; [reflexivity|].
  cbn [List.map fold_right]. now rewrite IH, insert_by_key_tasks.
Qed.

Lemma sorted_by_id_tasks (ts : list task) :
  sorted_by_id (store_json ts) = Ret (List.map task_json (sort_tasks ts)).
Proof.
  unfold sorted_by_id. cbn [store_json py_iter rbind].
  rewrite sort_keys_tasks. cbn [rbind].
  rewrite int_keys_tasks, stable_sort_tasks, map_map. reflexivity.
Qed.

Lemma render_row_task (hide_done : bool) (t : task) :
  render_row hide_done (task_json t)
  = Ret (if negb (hide_done && negb (is_pending t))
         then Some (row_of t) else None).
Proof.
  unfold render_row. rewrite getitem_status. cbn [rbind].
  rewrite status_is_done.
  destruct (hide_done && negb (is_pending t)) eqn:E; [reflexivity|].
  cbn [negb]. rewrite getitem_id, getitem_description.
  unfold row_of, is_pending. destruct (t_status t); reflexivity.
Qed.

Lemma render_rows_tasks (hide_done : bool) (ts : list task) :
  render_rows hide_done (List.map task_json ts)
  = Ret (List.map row_of (shown_tasks hide_done ts)).
Proof.
  unfold shown_tasks.
  induction ts as [|t r IH]; [reflexivity|].
  cbn [List.map render_rows filter]. rewrite render_row_task, IH.
  cbn [rbind].
  destruct (negb (hide_done && negb (is_pending t))); reflexivity.
Qed.

Lemma insert_task_perm (x : task) (l : list task) :
  Permutation (insert_task x l) (x :: l).
Proof.
  induction l as [|y r IH]; [reflexivity|].
  cbn [insert_task]. destruct (t_id x <=? t_id y)%Z; [reflexivity|].
  rewrite IH. apply perm_swap.
Qed.

Lemma sort_tasks_perm (ts : list task) : Permutation (sort_tasks ts) ts.
Proof.
  unfold sort_tasks. induction ts as [|t r IH]; [reflexivity|].
  cbn [fold_right]. rewrite insert_task_perm. now constructor.
Qed.

Lemma insert_task_sorted (x : task) (l : list task) :
  StronglySorted (fun a b => (t_id a <= t_id b)%Z) l ->
  StronglySorted (fun a b => (t_id a <= t_id b)%Z) (insert_task x l).
Proof.
  induction 1 as [|y r Hr IH Hy]; cbn [insert_task].
  - repeat constructor.
  - destruct (Z.leb_spec (t_id x) (t_id y)) as [L|L].
    + constructor; [now constructor|].
      constructor; [assumption|].
      eapply Forall_impl; [|exact Hy]. cbn. intros; lia.
    + constructor; [assumption|].
      apply (Permutation_Forall (Permutation_sym (insert_task_perm x r))).
      constructor; [lia | assumption].
Qed.

Lemma sort_tasks_sorted (ts : list task) :
  StronglySorted (fun a b => (t_id a <= t_id b)%Z) (sort_tasks ts).
Proof.
  unfold sort_tasks. induction ts as [|t r IH]; [constructor|].
  cbn [fold_right]. now apply insert_task_sorted.
Qed.

Lemma filter_sorted {A} (R : A -> A -> Prop) (p : A -> bool) (l : list A) :
  StronglySorted R l -> StronglySorted R (filter p l).
Proof.
  induction 1 as [|y r Hr IH Hy]; cbn [filter]; [constructor|].
  destruct (p y); [|assumption].
  constructor; [assumption|].
  apply Forall_forall. intros z Hz. apply filter_In in Hz as [Hz _].
  now apply (proj1 (Forall_forall _ _) Hy).
Qed.

Lemma filter_perm {A} (p : A -> bool) (l l' : list A) :
  Permutation l l' -> Permutation (filter p l) (filter p l').
Proof.
  induction 1 as [|x l l' _ IH|x y l|l l' l'' _ IH1 _ IH2]; cbn [filter].
  - constructor.
  - destruct (p x); [now constructor | assumption].
  - destruct (p x), (p y); try reflexivity. apply perm_swap.
  - now transitivity (filter p l').
Qed.

Lemma sorted_strict (l : list task) :
  NoDup (ids l) ->
  StronglySorted (fun a b => (t_id a <= t_id b)%Z) l ->
  StronglySorted (fun a b => (t_id a < t_id b)%Z) l.
Proof.
  unfold ids. induction 2 as [|y r Hr IH Hy]; [constructor|].
  cbn [List.map] in H. inversion H as [|? ? Hny Hnr]; subst.
  constructor; [now apply IH|].
  apply Forall_forall. intros z Hz.
  pose proof (proj1 (Forall_forall _ _) Hy z Hz) as L.
  assert (t_id z <> t_id y).
  { intros E. apply Hny. rewrite <- E. now apply in_map. }
  cbn beta in L. lia.
Qed.

Lemma shown_tasks_all (ts : list task) : shown_tasks false ts = ts.
Proof.
  unfold shown_tasks. induction ts as [|t r IH]; [reflexivity|].
  cbn [filter]. cbn [andb negb]. f_equal. exact IH.
Qed.

Lemma shown_tasks_pending (ts : list task) :
  shown_tasks true ts = filter is_pending ts.
Proof.
  unfold shown_tasks. apply filter_ext. intros t.
  cbn [andb]. apply negb_involutive.
Qed.

Lemma nodup_shown (hide_done : bool) (ts : list task) :
  NoDup (ids ts) -> NoDup (ids (shown_tasks hide_done ts)).
Proof.
  unfold shown_tasks, ids.
  induction ts as [|a r IH]; intros Hnd; [constructor|].
  cbn [List.map] in Hnd. inversion Hnd as [|? ? Hna Hr]; subst.
  cbn [filter]. destruct (negb _); [|now apply IH].
  cbn [List.map]. constructor; [|now apply IH].
  intros Hin. apply Hna. apply in_map_iff in Hin as (b & Eb & Hb).
  apply filter_In in Hb as [Hb _]. apply in_map_iff. eauto.
Qed.

(** [list] on a store: the notice, or the table of the rows to show. *)
Lemma list_tasks_renders (w : world) (ts : list task) (hide_done : bool) :
  holds w ts ->
  list_tasks hide_done w
  = match ts with
    | [] => (Ret tt, mkWorld (tasks_file w) (trace w ++ [EvPrint MsgNoTasks]))
    | _ :: _ =>
        console_print_table
          (List.map row_of (shown_tasks hide_done (sort_tasks ts))) w
    end.
Proof.
  intros H. unfold list_tasks, bind.
  rewrite (holds_load w ts H), truthy_store.
  destruct ts as [|t r]; [reflexivity|].
  cbn [negb lift]. rewrite sorted_by_id_tasks, render_rows_tasks.
  now destruct (console_print_table _ w) as [[| | |] ?].
Qed.

Lemma row_of_safe (t : task) :
  console_safe (t_description t) = true -> row_safe (row_of t) = true.
Proof.
  intros H. unfold row_safe, row_of. cbn [row_label row_description].
  rewrite H. now destruct (t_status t).
Qed.

Lemma console_store_rows (hide_done : bool) (ts : list task) :
  console_store ts ->
  forallb row_safe (List.map row_of (shown_tasks hide_done (sort_tasks ts)))
  = true.
Proof.
  intros H. apply forallb_forall. intros r Hr.
  apply in_map_iff in Hr as (t & <- & Ht).
  apply filter_In in Ht as [Ht _].
  apply row_of_safe.
  apply (proj1 (Forall_forall _ _) H).
  exact (Permutation_in t (sort_tasks_perm ts) Ht).
Qed.

(** [list] on a store whose descriptions the console prints: what is
    printed, and nothing else happens. *)
Lemma list_tasks_shows (w : world) (ts : list task) (hide_done : bool) :
  holds w ts -> console_store ts ->
  list_tasks hide_done w
  = (Ret tt,
     mkWorld (tasks_file w)
       (trace w ++
        [match ts with
         | [] => EvPrint MsgNoTasks
         | _ :: _ =>
             EvTable (List.map row_of (shown_tasks hide_done (sort_tasks ts)))
         end])).
Proof.
  intros H Hs. rewrite (list_tasks_renders w ts hide_done H).
  destruct ts as [|t r]; [reflexivity|].
  unfold console_print_table, render_table.
  now rewrite (console_store_rows hide_done (t :: r) Hs).
Qed.

(** ** Files that hold no task list *)



(* ================================================================== *)
(** * The persistence contract *)

(** Tactics for the sample store: closed facts are checked by running the
    definitions. *)
Ltac by_running := vm_compute; reflexivity.
Ltac by_running_neq := vm_compute; discriminate.
Ltac plain := apply Forall_forall, forallb_forall; by_running.
Ltac sample_ok :=
  match goal with
  | |- holds _ _ => by_running
  | |- Forall well_formed _ => repeat constructor; plain
  | |- plain_text _ => plain
  | |- console_store _ =>
      unfold console_store;
      repeat (apply Forall_cons; [by_running|]); apply Forall_nil
  | |- NoDup _ =>
      repeat constructor; cbn; intros H;
      repeat destruct H as [H|H]; (discriminate H || contradiction H)
  | |- In _ _ => cbn; tauto
  | |- ~ In _ _ =>
      cbn; intros H; repeat destruct H as [H|H];
      (discriminate H || contradiction H)
  | |- _ = _ => by_running
  end.

(** ** C1: ids after a deletion *)

(** C1, as the specification states it, fails when the deleted task had
    the largest id: after [delete 3] on the sample store, whose ids are
    1, 2 and 3, the next [add] gives the new task id 3 again.  So it is
    not the case that, for every store with distinct ids, an [add] after
    [delete k] never assigns [k]. *)
Lemma deleted_max_id_is_reused :
  holds sample_world sample_tasks /\
  NoDup (ids sample_tasks) /\
  In 3%Z (ids sample_tasks) /\
  (let w1 := snd (delete 3 sample_world) in
   let w2 := snd (add (u "water plants") (u "2024-05-03 08:00") w1) in
   fst (delete 3 sample_world) = Ret tt /\
   holds w1 (without 3 sample_tasks) /\
   fst (add (u "water plants") (u "2024-05-03 08:00") w1) = Ret tt /\
   holds w2 (without 3 sample_tasks
             ++ [mkTask 3 (u "water plants") Pending (u "2024-05-03 08:00")]))
  /\
  ~ (forall w ts k d now n,
       holds w ts -> Forall well_formed ts -> NoDup (ids ts) ->
       In k (ids ts) -> plain_text d -> plain_text now ->
       holds (snd (add d now (snd (delete k w))))
             (without k ts ++ [mkTask n d Pending now]) ->
       n <> k).
Proof.
  assert (H2 : holds
    (snd (add (u "water plants") (u "2024-05-03 08:00")
            (snd (delete 3 sample_world))))
    (without 3 sample_tasks
     ++ [mkTask 3 (u "water plants") Pending (u "2024-05-03 08:00")]))
    by by_running.
  split; [sample_ok|]. split; [sample_ok|]. split; [sample_ok|].
  split.
  - cbv zeta. split; [by_running|]. split; [by_running|].
    split; [by_running | exact H2].
  - intros Hall.
    refine (Hall sample_world sample_tasks 3%Z (u "water plants")
              (u "2024-05-03 08:00") 3%Z _ _ _ _ _ _ H2 eq_refl);
      sample_ok.
Qed.

(** C1, as the code has it.  After [delete k] has removed the task with id
    [k], the next [add] writes the store with a new task whose id is above
    every id still stored; when [k] was not the largest id of the store,
    that id is above [k] as well, so [k] is not used again.  The same holds
    of every later [add]: on whatever store it runs, the new id is above
    every id of that store, hence above [k] while an id from [k] upwards
    is stored.  ([add] returns normally when the console prints the
    description; the file is written before that.) *)
Theorem deleted_id_not_reused_below_max
  (w : world) (ts : list task) (k : Z) (d now : text) :
  holds w ts -> Forall well_formed ts -> NoDup (ids ts) ->
  In k (ids ts) -> plain_text d -> plain_text now ->
  let w1 := snd (delete k w) in
  let w2 := snd (add d now w1) in
  (exists n,
    fst (delete k w) = Ret tt /\
    (console_safe d = true -> fst (add d now w1) = Ret tt) /\
    holds w2 (without k ts ++ [mkTask n d Pending now]) /\
    (forall i, In i (ids (without k ts)) -> (i < n)%Z) /\
    ((exists j, In j (ids ts) /\ (k < j)%Z) -> (k < n)%Z)) /\
  (forall w' ts' d' now',
     holds w' ts' -> Forall well_formed ts' ->
     plain_text d' -> plain_text now' ->
     exists n',
       holds (snd (add d' now' w')) (ts' ++ [mkTask n' d' Pending now']) /\
       (forall i, In i (ids ts') -> (i < n')%Z) /\
       ((exists j, In j (ids ts') /\ (k <= j)%Z) -> (k < n')%Z)).
Proof.
  intros H Hwf Hnd Hin Hd Hn.
  assert (Later : forall w' ts' d' now',
     holds w' ts' -> Forall well_formed ts' ->
     plain_text d' -> plain_text now' ->
     exists n',
       holds (snd (add d' now' w')) (ts' ++ [mkTask n' d' Pending now']) /\
       (forall i, In i (ids ts') -> (i < n')%Z) /\
       ((exists j, In j (ids ts') /\ (k <= j)%Z) -> (k < n')%Z)).
  { intros w' ts' d' now' H' Hwf' Hd' Hn'.
    destruct (add_file w' ts' d' now' H' Hwf' Hd' Hn') as (c' & _ & Hl' & E').
    exists (spec_next_id ts'). split; [|split].
    - unfold holds, load_tasks. now rewrite E', Hl'.
    - intros i Hi. now apply spec_next_id_above.
    - intros (j & Hj & Hkj). pose proof (spec_next_id_above _ _ Hj). lia. }
  destruct (delete_removes w ts k H Hwf Hin) as (c & _ & Hl & E).
  cbv zeta. rewrite E. cbn [fst snd].
  set (w1 := mkWorld (Some c)
               (trace w ++ [EvWrite c; EvPrint (MsgDeleted k)])).
  assert (H1 : holds w1 (without k ts)) by now apply holds_file.
  split; [|exact Later].
  destruct (Later w1 (without k ts) d now H1
              (well_formed_without k ts Hwf) Hd Hn) as (n & Hh & Hab & _).
  exists n. split; [reflexivity|]. split; [|split; [exact Hh|split]].
  - intros Hs.
    destruct (add_appends w1 (without k ts) d now H1
                (well_formed_without k ts Hwf) Hd Hn Hs) as (c' & _ & _ & E').
    now rewrite E'.
  - exact Hab.
  - intros (j & Hj & Hkj).
    assert (Hj' : In j (ids (without k ts)))
      by (apply in_ids_without; [assumption | lia]).
    pose proof (Hab j Hj'). lia.
Qed.

Lemma deleted_id_not_reused_below_max_witness :
  In 1%Z (ids sample_tasks) /\
  exists n,
    fst (add (u "water plants") (u "2024-05-03 08:00")
           (snd (delete 1 sample_world))) = Ret tt /\
    holds (snd (add (u "water plants") (u "2024-05-03 08:00")
                  (snd (delete 1 sample_world))))
          (without 1 sample_tasks
           ++ [mkTask n (u "water plants") Pending (u "2024-05-03 08:00")]) /\
    (1 < n)%Z.
Proof.
  assert (Hin : In 1%Z (ids sample_tasks)) by sample_ok.
  split; [exact Hin|].
  destruct (deleted_id_not_reused_below_max sample_world sample_tasks 1
              (u "water plants") (u "2024-05-03 08:00"))
    as ((n & _ & Hr & Hh & _ & Hk) & _);
    [sample_ok | sample_ok | sample_ok | exact Hin | sample_ok | sample_ok |].
  exists n. split; [apply Hr; by_running|]. split; [exact Hh|].
  apply Hk. exists 3%Z. split; [sample_ok | reflexivity].
Defined.

(** ** C2: a missing or unreadable file *)




(** ** C3: the next id *)

(** C3.  [get_next_id] returns 1 when the stored collection is empty and
    otherwise one more than the largest stored id; it leaves the world as
    it was. *)
Theorem get_next_id_spec (w : world) (ts : list task) :
  holds w ts -> get_next_id w = (Ret (spec_next_id ts), w).
Proof.
  intros H. unfold get_next_id, bind.
  rewrite (holds_load w ts H), truthy_store.
  destruct ts as [|t r].
  - (* empty store *) reflexivity.
  - (* one more than the running maximum *)
    cbn [negb store_json py_iter lift List.map max_id].
    rewrite getitem_id. cbn [rbind]. rewrite max_id_tasks.
    unfold ret, spec_next_id. cbn [ids List.map].
    now rewrite fold_left_max, Z.add_comm.
Qed.

Lemma get_next_id_spec_witness :
  holds sample_world sample_tasks /\
  get_next_id sample_world = (Ret 4%Z, sample_world).
Proof.
  split; [sample_ok|].
  apply (get_next_id_spec sample_world sample_tasks). sample_ok.
Defined.

(** ** C4: ids stay unique *)

(** C4.  From a store whose ids are pairwise distinct, each of [add],
    [done] and [delete] leads to a world whose store again has pairwise
    distinct ids. *)
Theorem ids_stay_unique (w : world) (ts : list task) :
  holds w ts -> Forall well_formed ts -> NoDup (ids ts) ->
  (forall d now, plain_text d -> plain_text now ->
     exists ts', holds (snd (add d now w)) ts' /\ NoDup (ids ts')) /\
  (forall k, exists ts', holds (snd (done k w)) ts' /\ NoDup (ids ts')) /\
  (forall k, exists ts', holds (snd (delete k w)) ts' /\ NoDup (ids ts')).
Proof.
  intros H Hwf Hnd. repeat split.
  - intros d now Hd Hn.
    exists (ts ++ [mkTask (spec_next_id ts) d Pending now]).
    split; [now apply store_after_add | now apply nodup_add].
  - intros k. destruct (in_dec Z.eq_dec k (ids ts)) as [Hin|Hout].
    + destruct (first_match_in k ts Hin) as (j & t & Hm).
      destruct (t_status t) eqn:Hs.
      * destruct (done_completes w ts k j t H Hwf Hm Hs) as (c & _ & Hl & E).
        rewrite E. cbn [snd]. exists (complete k ts).
        split; [now apply holds_file | now rewrite ids_complete].
      * rewrite (done_warns w ts k j t H Hm Hs). cbn [snd].
        exists ts. split; [now apply (holds_same_file w) | assumption].
    + rewrite (done_not_found w ts k H Hout). cbn [snd].
      exists ts. split; [now apply (holds_same_file w) | assumption].
  - intros k. destruct (in_dec Z.eq_dec k (ids ts)) as [Hin|Hout].
    + destruct (delete_removes w ts k H Hwf Hin) as (c & _ & Hl & E).
      rewrite E. cbn [snd]. exists (without k ts).
      split; [now apply holds_file | now apply nodup_without].
    + rewrite (delete_not_found w ts k H Hout). cbn [snd].
      exists ts. split; [now apply (holds_same_file w) | assumption].
Qed.

Lemma ids_stay_unique_witness :
  NoDup (ids sample_tasks) /\
  (exists ts', holds (snd (add (u "water plants") (u "2024-05-03 08:00")
                             sample_world)) ts' /\ NoDup (ids ts')) /\
  (exists ts', holds (snd (done 1 sample_world)) ts' /\ NoDup (ids ts')) /\
  (exists ts', holds (snd (delete 2 sample_world)) ts' /\ NoDup (ids ts')).
Proof.
  assert (Hnd : NoDup (ids sample_tasks)) by sample_ok.
  split; [exact Hnd|].
  destruct (ids_stay_unique sample_world sample_tasks) as (Ha & Hd & Hx);
    [sample_ok | sample_ok | exact Hnd |].
  split; [|split].
  - apply Ha; sample_ok.
  - apply Hd.
  - apply Hx.
Defined.

(** ** C5: an id that is not in the store *)

(** C5.  For a store and an id [x] that no stored task has, [done x] and
    [delete x] both print the not-found error and end with
    [typer.Exit(1)]: the file is left as it was, nothing is written, and
    the exit status is 1. *)
Theorem not_found_symmetry (w : world) (ts : list task) (x : Z) :
  holds w ts -> ~ In x (ids ts) ->
  let w' := mkWorld (tasks_file w) (trace w ++ [EvPrint (MsgNotFound x)]) in
  done x w = (Exit 1%Z, w') /\
  delete x w = (Exit 1%Z, w') /\
  tasks_file w' = tasks_file w /\
  writes w' = writes w /\
  holds w' ts /\
  exit_status (fst (done x w)) = Some 1%Z /\
  exit_status (fst (delete x w)) = Some 1%Z.
Proof.
  intros H Hx w'.
  rewrite (done_not_found w ts x H Hx), (delete_not_found w ts x H Hx). repeat split.
  - unfold writes, w'. cbn [trace]. rewrite flat_map_app. cbn.
    now rewrite List.app_nil_r.
  - now apply (holds_same_file w).
Qed.

Lemma not_found_symmetry_witness :
  ~ In 7%Z (ids sample_tasks) /\
  done 7 sample_world
  = (Exit 1%Z, mkWorld (tasks_file sample_world)
                 (trace sample_world ++ [EvPrint (MsgNotFound 7)])) /\
  delete 7 sample_world
  = (Exit 1%Z, mkWorld (tasks_file sample_world)
                 (trace sample_world ++ [EvPrint (MsgNotFound 7)])).
Proof.
  assert (Hout : ~ In 7%Z (ids sample_tasks)) by sample_ok.
  assert (Hh : holds sample_world sample_tasks) by sample_ok.
  destruct (not_found_symmetry sample_world sample_tasks 7 Hh Hout)
    as (Hd & Hx & _).
  split; [exact Hout|]. split; [exact Hd | exact Hx].
Defined.

(** ** C6: what [list] shows *)

(** C6 fails on a store with a description that starts with a closing
    tag.  [add] of the description [[/red]] to a missing file writes the
    store with that one pending task and then raises [MarkupError] where
    it prints the confirmation.  On this store [list], with and without
    [hide_done], raises [MarkupError] while the table is rendered: no
    table is printed, so the task, pending and the only one of the store,
    is not shown. *)
Theorem list_fails_on_closing_tag :
  add (u "[/red]") (u "2024-05-01 09:30") empty_world
  = (Raise MarkupError, markup_world) /\
  holds markup_world markup_tasks /\
  filter is_pending markup_tasks = markup_tasks /\
  (forall hide_done,
     list_tasks hide_done markup_world = (Raise MarkupError, markup_world)) /\
  (forall hide_done rows,
     ~ In (EvTable rows) (trace (snd (list_tasks hide_done markup_world)))).
Proof.
  assert (L : forall hide_done,
     list_tasks hide_done markup_world = (Raise MarkupError, markup_world))
    by (intros [|]; by_running).
  split; [by_running|]. split; [by_running|]. split; [reflexivity|].
  split; [exact L|].
  intros hide_done rows. rewrite (L hide_done).
  cbn. intros [E|[]]. discriminate E.
Qed.

(** ** C7: completing a pending task *)

(** C7.  In a store with a task [t0] that is pending, [done] on its id
    returns normally, writes the updated store to the file once and prints
    the success message.  In the store then held, every task keeps its id,
    description and timestamp, the task with that id has status done, and
    every other task is the task it was. *)
Theorem done_pending_frame (w : world) (ts : list task) (t0 : task) :
  holds w ts -> Forall well_formed ts -> NoDup (ids ts) ->
  In t0 ts -> t_status t0 = Pending ->
  exists content ts',
    done (t_id t0) w
    = (Ret tt,
       mkWorld (Some content)
         (trace w ++ [EvWrite content; EvPrint (MsgCompleted (t_id t0))])) /\
    json_dumps (store_json ts') = Some content /\
    holds (snd (done (t_id t0) w)) ts' /\
    In (mark_done t0) ts' /\
    Forall2 (fun a b =>
               t_id b = t_id a /\
               t_description b = t_description a /\
               t_created_at b = t_created_at a /\
               (if (t_id a =? t_id t0)%Z then t_status b = Done else b = a))
            ts ts'.
Proof.
  intros H Hwf Hnd Hin Hp.
  destruct (first_match_unique t0 ts Hnd Hin) as [j Hm].
  destruct (done_completes w ts (t_id t0) j t0 H Hwf Hm Hp)
    as (c & Hc & Hl & Hd).
  exists c, (complete (t_id t0) ts). rewrite Hd. cbn [snd].
  repeat split; try assumption.
  - now apply holds_file.
  - rewrite (complete_unique _ _ Hnd).
    apply in_map_iff. exists t0. now rewrite Z.eqb_refl.
  - rewrite (complete_unique _ _ Hnd).
    clear. induction ts as [|a r IH]; constructor; [|exact IH].
    destruct (t_id a =? t_id t0)%Z; repeat split; reflexivity.
Qed.

Lemma done_pending_frame_witness :
  In (mkTask 3 (u "pay rent") Pending (u "2024-05-02 18:00")) sample_tasks /\
  exists content ts',
    done 3 sample_world
    = (Ret tt,
       mkWorld (Some content)
         (trace sample_world ++ [EvWrite content; EvPrint (MsgCompleted 3)])) /\
    holds (snd (done 3 sample_world)) ts' /\
    In (mkTask 3 (u "pay rent") Done (u "2024-05-02 18:00")) ts'.
Proof.
  assert (Hin : In (mkTask 3 (u "pay rent") Pending (u "2024-05-02 18:00"))
                   sample_tasks) by sample_ok.
  split; [exact Hin|].
  destruct (done_pending_frame sample_world sample_tasks
              (mkTask 3 (u "pay rent") Pending (u "2024-05-02 18:00")))
    as (c & ts' & E & _ & Hh & Hd & _);
    [sample_ok | sample_ok | sample_ok | exact Hin | reflexivity |].
  exists c, ts'. split; [exact E|]. split; [exact Hh | exact Hd].
Defined.

(** ** C8: completing twice *)

(** C8.  In a store with a task [t0], [done] on its id when the task is
    done already prints the warning, writes nothing, leaves the file and
    the store as they were and returns normally (exit status 0).  Whatever
    the status of [t0] was, a second [done] on the same id right after a
    first one is of that kind: it only prints the warning, and the task is
    done in the store held at the end. *)
Theorem done_idempotent (w : world) (ts : list task) (t0 : task) :
  holds w ts -> Forall well_formed ts -> NoDup (ids ts) -> In t0 ts ->
  let k := t_id t0 in
  (t_status t0 = Done ->
   done k w
   = (Ret tt, mkWorld (tasks_file w)
                (trace w ++ [EvPrint (MsgAlreadyDone k)])) /\
   exit_status (fst (done k w)) = Some 0%Z /\
   writes (snd (done k w)) = writes w /\
   holds (snd (done k w)) ts) /\
  (let w1 := snd (done k w) in
   let w2 := snd (done k w1) in
   fst (done k w) = Ret tt /\
   done k w1
   = (Ret tt, mkWorld (tasks_file w1)
                (trace w1 ++ [EvPrint (MsgAlreadyDone k)])) /\
   writes w2 = writes w1 /\
   exists ts2, holds w2 ts2 /\ In (mark_done t0) ts2).
Proof.
  intros H Hwf Hnd Hin k.
  destruct (first_match_unique t0 ts Hnd Hin) as [j Hm]. fold k in Hm.
  assert (Hwarn : forall w' ts' j' t',
    holds w' ts' -> first_match k ts' = Some (j', t') -> t_status t' = Done ->
    done k w'
    = (Ret tt, mkWorld (tasks_file w')
                 (trace w' ++ [EvPrint (MsgAlreadyDone k)])) /\
    writes (snd (done k w')) = writes w' /\
    holds (snd (done k w')) ts').
  { intros w' ts' j' t' H' Hm' Hs'.
    rewrite (done_warns w' ts' k j' t' H' Hm' Hs'). cbn [snd].
    repeat split.
    - rewrite writes_app. cbn. apply List.app_nil_r.
    - now apply (holds_same_file w'). }
  split.
  - intros Hs. destruct (Hwarn w ts j t0 H Hm Hs) as (E & Hw & Hh).
    repeat split; try assumption. now rewrite E.
  - cbv zeta. destruct (t_status t0) eqn:Hs.
    + destruct (done_completes w ts k j t0 H Hwf Hm Hs) as (c & Hc & Hl & Hd).
      rewrite Hd. cbn [fst snd].
      set (w1 := mkWorld (Some c)
                   (trace w ++ [EvWrite c; EvPrint (MsgCompleted k)])).
      assert (H1 : holds w1 (complete k ts)) by now apply holds_file.
      destruct (Hwarn w1 (complete k ts) j (mark_done t0) H1
                  (first_match_complete k ts j t0 Hm) eq_refl)
        as (E & Hw & Hh).
      repeat split; try assumption.
      exists (complete k ts). split; [assumption|].
      rewrite (complete_unique _ _ Hnd).
      apply in_map_iff. exists t0. unfold k. now rewrite Z.eqb_refl.
    + destruct (Hwarn w ts j t0 H Hm Hs) as (E & Hw & Hh).
      rewrite E. cbn [fst snd].
      set (w1 := mkWorld (tasks_file w)
                   (trace w ++ [EvPrint (MsgAlreadyDone k)])).
      assert (H1 : holds w1 ts) by now apply (holds_same_file w).
      destruct (Hwarn w1 ts j t0 H1 Hm Hs) as (E1 & Hw1 & Hh1).
      repeat split; try assumption.
      exists ts. split; [assumption|].
      replace (mark_done t0) with t0; [assumption|].
      destruct t0; cbn in Hs |- *. unfold mark_done. cbn. now rewrite Hs.
Qed.

Lemma done_idempotent_witness :
  In (mkTask 2 (u "call the bank") Done (u "2024-05-01 09:31")) sample_tasks /\
  done 2 sample_world
  = (Ret tt, mkWorld (tasks_file sample_world)
               (trace sample_world ++ [EvPrint (MsgAlreadyDone 2)])) /\
  writes (snd (done 2 sample_world)) = writes sample_world.
Proof.
  assert (Hin : In (mkTask 2 (u "call the bank") Done (u "2024-05-01 09:31"))
                   sample_tasks) by sample_ok.
  split; [exact Hin|].
  destruct (done_idempotent sample_world sample_tasks
              (mkTask 2 (u "call the bank") Done (u "2024-05-01 09:31")))
    as (Hfirst & _);
    [sample_ok | sample_ok | sample_ok | exact Hin |].
  destruct (Hfirst eq_refl) as (E & _ & Hw & _).
  split; [exact E | exact Hw].
Defined.

(** ** C9: saving and loading *)

(** C9.  Saving a sequence of well-formed tasks succeeds, and loading
    right after it returns the same sequence: the same ids, descriptions,
    statuses and timestamps, in the same order. *)
Theorem save_load_round_trip (ts : list task) (w : world) :
  Forall well_formed ts ->
  fst (save_tasks (store_json ts) w) = Ret tt /\
  load_tasks (snd (save_tasks (store_json ts) w))
  = (Ret (store_json ts), snd (save_tasks (store_json ts) w)).
Proof.
  intros Hwf. destruct (save_store ts Hwf) as (t & _ & Hl & Hs).
  rewrite Hs. cbn [fst snd]. split; [reflexivity|].
  apply holds_load. now apply holds_file.
Qed.

Lemma save_load_round_trip_witness :
  Forall well_formed sample_tasks /\
  load_tasks sample_world = (Ret (store_json sample_tasks), sample_world).
Proof.
  assert (Hwf : Forall well_formed sample_tasks) by sample_ok.
  split; [exact Hwf|].
  exact (proj2 (save_load_round_trip sample_tasks empty_world Hwf)).
Defined.

(** ** C10: files that hold another JSON value *)

(** C10.  [load_tasks] returns whatever value the decoder produces: only a
    missing file and a decoding error become the empty list.  A file
    holding a JSON string or a JSON object is loaded as that string or
    object, and the commands then work on it: on the string every command
    ends in a [TypeError]; on the object so do [list], [add], [done] and
    [delete]. *)
Theorem load_keeps_any_json_value :
  (forall w c v,
     tasks_file w = Some c -> json_loads c = Some v ->
     load_tasks w = (Ret v, w)) /\
  (let w := world_of quoted_words in
   load_tasks w = (Ret (JStr bare_words), w) /\
   list_tasks false w = (Raise TypeError, w) /\
   add (u "buy milk") (u "2024-05-01 09:30") w = (Raise TypeError, w) /\
   done 1 w = (Raise TypeError, w) /\
   delete 1 w = (Raise TypeError, w)) /\
  (let w := world_of object_text in
   load_tasks w = (Ret (JObj [(u "a", JInt 1)]), w) /\
   list_tasks false w = (Raise TypeError, w) /\
   add (u "buy milk") (u "2024-05-01 09:30") w = (Raise TypeError, w) /\
   done 1 w = (Raise TypeError, w) /\
   delete 1 w = (Raise TypeError, w)).
Proof.
  split; [|split].
  - intros w c v Hc Hv. unfold load_tasks. now rewrite Hc, Hv.
  - repeat split; vm_compute; reflexivity.
  - repeat split; vm_compute; reflexivity.
Qed.

Lemma load_keeps_any_json_value_witness :
  load_tasks (world_of quoted_words)
  = (Ret (JStr bare_words), world_of quoted_words).
Proof.
  apply (proj1 load_keeps_any_json_value (world_of quoted_words) quoted_words).
  - reflexivity.
  - vm_compute. reflexivity.
Defined.

(* ================================================================== *)
(** * Further properties of the commands *)

(** ** What [add] and [delete] do to a store *)

Lemma writes_after (f : option text) (w : world) (es : list event) :
  writes (mkWorld f (trace w ++ es))
  = writes w
    ++ flat_map (fun e => match e with EvWrite c => [c] | _ => [] end) es.
Proof. unfold writes. cbn [trace]. apply flat_map_app. Qed.

(** X1.  [add] on a store writes the file once.  The store then held is
    the old one, in its order, followed by one new task: pending, with the
    given description and timestamp and with the id of [get_next_id].
    After the write [add] prints the confirmation and returns normally
    when the console prints the description; when the description starts
    with a closing tag, [add] raises [MarkupError] there, the file being
    written and nothing printed. *)
Theorem add_appends_pending (w : world) (ts : list task) (d now : text) :
  holds w ts -> Forall well_formed ts -> plain_text d -> plain_text now ->
  exists content,
    tasks_file (snd (add d now w)) = Some content /\
    writes (snd (add d now w)) = writes w ++ [content] /\
    holds (snd (add d now w))
          (ts ++ [mkTask (spec_next_id ts) d Pending now]) /\
    (console_safe d = true ->
     add d now w
     = (Ret tt, mkWorld (Some content)
                  (trace w ++ [EvWrite content; EvPrint (MsgAdded d)]))) /\
    (starts_with_closing_tag d = true ->
     add d now w
     = (Raise MarkupError,
        mkWorld (Some content) (trace w ++ [EvWrite content]))).
Proof.
  intros H Hwf Hd Hn.
  destruct (add_writes w ts d now H Hwf Hd Hn) as (c & _ & Hl & E).
  exists c. split; [|split; [|split; [|split]]].
  - rewrite E. now rewrite console_print_file.
  - rewrite E, console_print_writes, writes_after. reflexivity.
  - now apply store_after_add.
  - intros Hs. rewrite E, (console_print_safe d _ Hs). cbn [tasks_file trace].
    now rewrite <- List.app_assoc.
  - intros Ht. rewrite E. now apply console_print_closing_tag.
Qed.

Lemma add_appends_pending_witness :
  holds sample_world sample_tasks /\
  exists content,
    writes (snd (add (u "water plants") (u "2024-05-03 08:00") sample_world))
    = writes sample_world ++ [content] /\
    holds (snd (add (u "water plants") (u "2024-05-03 08:00") sample_world))
          (sample_tasks
           ++ [mkTask 4 (u "water plants") Pending (u "2024-05-03 08:00")]) /\
    add (u "water plants") (u "2024-05-03 08:00") sample_world
    = (Ret tt,
       mkWorld (Some content)
         (trace sample_world
          ++ [EvWrite content; EvPrint (MsgAdded (u "water plants"))])).
Proof.
  assert (Hh : holds sample_world sample_tasks) by sample_ok.
  split; [exact Hh|].
  destruct (add_appends_pending sample_world sample_tasks
              (u "water plants") (u "2024-05-03 08:00"))
    as (c & _ & Hw & Hs & Hr & _);
    [exact Hh | sample_ok | sample_ok | sample_ok |].
  exists c. split; [exact Hw|]. split; [exact Hs|]. apply Hr. by_running.
Defined.

Lemma fold_max_app (r : list Z) (a x : Z) :
  fold_right Z.max a (r ++ [x]) = Z.max x (fold_right Z.max a r).
Proof. induction r as [|b r IH]; cbn [app fold_right]; lia. Qed.

Lemma spec_next_id_snoc (ts : list task) (d now : text) :
  spec_next_id (ts ++ [mkTask (spec_next_id ts) d Pending now])
  = (spec_next_id ts + 1)%Z.
Proof.
  unfold spec_next_id, ids. rewrite map_app. cbn [List.map t_id].
  destruct (List.map t_id ts) as [|a r]; [reflexivity|].
  cbn [app]. rewrite fold_max_app. lia.
Qed.

Lemma well_formed_snoc (ts : list task) (n : Z) (d now : text) :
  Forall well_formed ts -> plain_text d -> plain_text now ->
  Forall well_formed (ts ++ [mkTask n d Pending now]).
Proof.
  intros Hwf Hd Hn. apply Forall_app. split; [assumption|].
  repeat constructor; assumption.
Qed.

Lemma ids_numbered (n : Z) (items : list (text * text)) :
  ids (numbered n items)
  = List.map (fun i => (n + Z.of_nat i)%Z) (seq 0 (List.length items)).
Proof.
  revert n. induction items as [|[d now] r IH]; intros n; [reflexivity|].
  cbn [numbered ids List.map List.length seq t_id]. f_equal; [lia|].
  fold (ids (numbered (n + 1) r)). rewrite IH, <- seq_shift, map_map.
  apply map_ext. intros i. lia.
Qed.

(** X2.  Successive [add]s number the new tasks consecutively, in call
    order: from a store whose next id is [n] they get [n], [n + 1], ...;
    in particular 1, 2, 3, ... when the store was empty. *)
Theorem adds_number_consecutively
  (items : list (text * text)) (w : world) (ts : list task) :
  holds w ts -> Forall well_formed ts ->
  Forall (fun dn => plain_text (fst dn) /\ plain_text (snd dn)) items ->
  holds (run_adds items w) (ts ++ numbered (spec_next_id ts) items) /\
  ids (numbered (spec_next_id ts) items)
  = List.map (fun i => (spec_next_id ts + Z.of_nat i)%Z)
      (seq 0 (List.length items)) /\
  (ts = [] ->
   ids (numbered (spec_next_id ts) items)
   = List.map (fun i => (1 + Z.of_nat i)%Z) (seq 0 (List.length items))).
Proof.
  intros H Hwf Hitems. split; [|split].
  - revert w ts H Hwf.
    induction Hitems as [|[d now] r [Hd Hn] Hr IH]; intros w ts H Hwf.
    + cbn [run_adds numbered]. now rewrite List.app_nil_r.
    + cbn [fst snd] in *. cbn [run_adds numbered].
      pose proof (store_after_add w ts d now H Hwf Hd Hn) as H1.
      specialize (IH _ _ H1 (well_formed_snoc ts _ d now Hwf Hd Hn)).
      rewrite spec_next_id_snoc, <- List.app_assoc in IH. exact IH.
  - apply ids_numbered.
  - intros ->. apply ids_numbered.
Qed.

Lemma adds_number_consecutively_witness :
  holds (run_adds [(u "buy milk", u "2024-05-01 09:30");
                   (u "call the bank", u "2024-05-01 09:31")] empty_world)
        [mkTask 1 (u "buy milk") Pending (u "2024-05-01 09:30");
         mkTask 2 (u "call the bank") Pending (u "2024-05-01 09:31")].
Proof.
  apply (adds_number_consecutively
           [(u "buy milk", u "2024-05-01 09:30");
            (u "call the bank", u "2024-05-01 09:31")] empty_world []).
  - sample_ok.
  - constructor.
  - repeat constructor; plain.
Defined.

(** X3.  [delete] of an id that is in the store returns normally, writes
    the file once and prints the confirmation.  The store then held is the
    old one without every task of that id; the other tasks stay, in their
    order. *)
Theorem delete_removes_matches (w : world) (ts : list task) (k : Z) :
  holds w ts -> Forall well_formed ts -> In k (ids ts) ->
  exists content,
    delete k w
    = (Ret tt, mkWorld (Some content)
                 (trace w ++ [EvWrite content; EvPrint (MsgDeleted k)])) /\
    writes (snd (delete k w)) = writes w ++ [content] /\
    holds (snd (delete k w)) (filter (fun t => negb (t_id t =? k)%Z) ts) /\
    ~ In k (ids (filter (fun t => negb (t_id t =? k)%Z) ts)).
Proof.
  intros H Hwf Hin.
  destruct (delete_removes w ts k H Hwf Hin) as (c & _ & Hl & E).
  exists c. rewrite E. cbn [snd]. repeat split.
  - rewrite writes_after. reflexivity.
  - now apply holds_file.
  - unfold ids. intros Hk. apply in_map_iff in Hk as (t & Et & Ht).
    apply filter_In in Ht as [_ Ht].
    rewrite <- Et, Z.eqb_refl in Ht. discriminate Ht.
Qed.

Lemma delete_removes_matches_witness :
  In 2%Z (ids sample_tasks) /\
  exists content,
    writes (snd (delete 2 sample_world)) = writes sample_world ++ [content] /\
    holds (snd (delete 2 sample_world))
          [mkTask 1 (u "buy milk") Pending (u "2024-05-01 09:30");
           mkTask 3 (u "pay rent") Pending (u "2024-05-02 18:00")].
Proof.
  assert (Hin : In 2%Z (ids sample_tasks)) by sample_ok.
  split; [exact Hin|].
  destruct (delete_removes_matches sample_world sample_tasks 2)
    as (c & _ & Hw & Hs & _); [sample_ok | sample_ok | exact Hin |].
  exists c. split; [exact Hw | exact Hs].
Defined.

Lemma without_snoc_fresh (ts : list task) (t : task) :
  ~ In (t_id t) (ids ts) -> without (t_id t) (ts ++ [t]) = ts.
Proof.
  intros Hn. unfold without. rewrite filter_app. cbn [filter].
  rewrite Z.eqb_refl. cbn [negb]. rewrite List.app_nil_r.
  exact (without_absent (t_id t) ts Hn).
Qed.

(** X4.  Deleting the task that [add] has just written gives back the
    store as it was before the [add], whether or not [add] got to print
    its confirmation. *)
Theorem add_then_delete_restores (w : world) (ts : list task) (d now : text) :
  holds w ts -> Forall well_formed ts -> plain_text d -> plain_text now ->
  let w1 := snd (add d now w) in
  holds w1 (ts ++ [mkTask (spec_next_id ts) d Pending now]) /\
  fst (delete (spec_next_id ts) w1) = Ret tt /\
  holds (snd (delete (spec_next_id ts) w1)) ts.
Proof.
  intros H Hwf Hd Hn. cbv zeta.
  set (new := mkTask (spec_next_id ts) d Pending now).
  pose proof (store_after_add w ts d now H Hwf Hd Hn) as H1. fold new in H1.
  assert (Hin : In (spec_next_id ts) (ids (ts ++ [new]))).
  { unfold ids. rewrite map_app. apply in_or_app. right. now left. }
  destruct (delete_removes _ (ts ++ [new]) (spec_next_id ts) H1
              (well_formed_snoc ts _ d now Hwf Hd Hn) Hin)
    as (c' & _ & Hl' & E').
  rewrite E'. cbn [fst snd]. split; [exact H1|]. split; [reflexivity|].
  apply holds_file. rewrite Hl'. do 2 f_equal.
  apply (without_snoc_fresh ts new). cbn [new t_id].
  intros Hi. pose proof (spec_next_id_above ts _ Hi). lia.
Qed.

Lemma add_then_delete_restores_witness :
  holds sample_world sample_tasks /\
  holds (snd (delete 4 (snd (add (u "water plants") (u "2024-05-03 08:00")
                               sample_world))))
        sample_tasks.
Proof.
  assert (Hh : holds sample_world sample_tasks) by sample_ok.
  split; [exact Hh|].
  apply (add_then_delete_restores sample_world sample_tasks
           (u "water plants") (u "2024-05-03 08:00"));
    [exact Hh | sample_ok | sample_ok | sample_ok].
Defined.

(** X5.  Deleting is permanent: after [delete k] has succeeded, both
    [done k] and a second [delete k] report that the task is not found,
    end with exit status 1 and write nothing. *)
Theorem deleted_task_is_gone (w : world) (ts : list task) (k : Z) :
  holds w ts -> Forall well_formed ts -> In k (ids ts) ->
  let w1 := snd (delete k w) in
  let w' := mkWorld (tasks_file w1) (trace w1 ++ [EvPrint (MsgNotFound k)]) in
  fst (delete k w) = Ret tt /\
  done k w1 = (Exit 1%Z, w') /\
  delete k w1 = (Exit 1%Z, w') /\
  untouched w1 w'.
Proof.
  intros H Hwf Hin.
  destruct (delete_removes w ts k H Hwf Hin) as (c & _ & Hl & E).
  cbv zeta. rewrite E. cbn [fst snd].
  set (w1 := mkWorld (Some c) (trace w ++ [EvWrite c; EvPrint (MsgDeleted k)])).
  assert (H1 : holds w1 (without k ts)) by now apply holds_file.
  assert (Hout : ~ In k (ids (without k ts))).
  { unfold ids, without. intros Hk. apply in_map_iff in Hk as (t & Et & Ht).
    apply filter_In in Ht as [_ Ht].
    rewrite <- Et, Z.eqb_refl in Ht. discriminate Ht. }
  split; [reflexivity|].
  split; [exact (done_not_found w1 _ k H1 Hout)|].
  split; [exact (delete_not_found w1 _ k H1 Hout)|].
  unfold untouched. split; [reflexivity|].
  rewrite writes_after. cbn. apply List.app_nil_r.
Qed.

Lemma deleted_task_is_gone_witness :
  In 2%Z (ids sample_tasks) /\
  fst (done 2 (snd (delete 2 sample_world))) = Exit 1%Z /\
  fst (delete 2 (snd (delete 2 sample_world))) = Exit 1%Z.
Proof.
  assert (Hin : In 2%Z (ids sample_tasks)) by sample_ok.
  split; [exact Hin|].
  destruct (deleted_task_is_gone sample_world sample_tasks 2)
    as (_ & Hd & Hx & _); [sample_ok | sample_ok | exact Hin |].
  cbv zeta in Hd, Hx. rewrite Hd, Hx. split; reflexivity.
Defined.

(** ** What [done] does to a store, and what no command does *)

Lemma first_match_split (k : Z) (pre post : list task) (t : task) :
  ~ In k (ids pre) -> t_id t = k ->
  first_match k (pre ++ t :: post) = Some (List.length pre, t).
Proof.
  intros Hn Ht. induction pre as [|a r IH]; cbn [app first_match List.length].
  - now rewrite Ht, Z.eqb_refl.
  - cbn [ids List.map In] in Hn.
    destruct (Z.eqb_spec (t_id a) k); [tauto|].
    rewrite IH; [reflexivity | tauto].
Qed.

Lemma complete_split (k : Z) (pre post : list task) (t : task) :
  ~ In k (ids pre) -> t_id t = k ->
  complete k (pre ++ t :: post) = pre ++ mark_done t :: post.
Proof.
  intros Hn Ht. induction pre as [|a r IH]; cbn [app complete].
  - now rewrite Ht, Z.eqb_refl.
  - cbn [ids List.map In] in Hn.
    destruct (Z.eqb_spec (t_id a) k); [tauto|].
    rewrite IH; [reflexivity | tauto].
Qed.

(** X6.  [done] acts on the first task of the given id and looks no
    further, whether or not later tasks have the same id.  When that first
    task is pending it alone is completed and the store is written; when
    it is done already only the warning is printed. *)
Theorem done_acts_on_first_match
  (w : world) (pre post : list task) (t : task) :
  holds w (pre ++ t :: post) -> Forall well_formed (pre ++ t :: post) ->
  ~ In (t_id t) (ids pre) ->
  (t_status t = Pending ->
   exists content,
     done (t_id t) w
     = (Ret tt,
        mkWorld (Some content)
          (trace w ++ [EvWrite content; EvPrint (MsgCompleted (t_id t))])) /\
     holds (snd (done (t_id t) w)) (pre ++ mark_done t :: post)) /\
  (t_status t = Done ->
   done (t_id t) w
   = (Ret tt, mkWorld (tasks_file w)
                (trace w ++ [EvPrint (MsgAlreadyDone (t_id t))]))).
Proof.
  intros H Hwf Hn.
  pose proof (first_match_split (t_id t) pre post t Hn eq_refl) as Hm.
  split; intros Hs.
  - destruct (done_completes w _ (t_id t) _ t H Hwf Hm Hs) as (c & _ & Hl & E).
    exists c. split; [exact E|]. rewrite E. cbn [snd].
    apply holds_file.
    now rewrite <- (complete_split (t_id t) pre post t Hn eq_refl).
  - exact (done_warns w _ (t_id t) _ t H Hm Hs).
Qed.

Lemma done_acts_on_first_match_witness :
  holds twin_world
    ([mkTask 1 (u "buy milk") Pending (u "2024-05-01 09:30")]
     ++ mkTask 2 (u "call the bank") Pending (u "2024-05-01 09:31")
     :: [mkTask 2 (u "call the bank again") Pending (u "2024-05-01 09:32");
         mkTask 3 (u "pay rent") Pending (u "2024-05-02 18:00")]) /\
  exists content,
    done 2 twin_world
    = (Ret tt,
       mkWorld (Some content)
         (trace twin_world ++ [EvWrite content; EvPrint (MsgCompleted 2)])) /\
    holds (snd (done 2 twin_world))
      ([mkTask 1 (u "buy milk") Pending (u "2024-05-01 09:30")]
       ++ mkTask 2 (u "call the bank") Done (u "2024-05-01 09:31")
       :: [mkTask 2 (u "call the bank again") Pending (u "2024-05-01 09:32");
           mkTask 3 (u "pay rent") Pending (u "2024-05-02 18:00")]).
Proof.
  assert (Hh : holds twin_world
    ([mkTask 1 (u "buy milk") Pending (u "2024-05-01 09:30")]
     ++ mkTask 2 (u "call the bank") Pending (u "2024-05-01 09:31")
     :: [mkTask 2 (u "call the bank again") Pending (u "2024-05-01 09:32");
         mkTask 3 (u "pay rent") Pending (u "2024-05-02 18:00")]))
    by sample_ok.
  split; [exact Hh|].
  destruct (done_acts_on_first_match twin_world
              [mkTask 1 (u "buy milk") Pending (u "2024-05-01 09:30")]
              [mkTask 2 (u "call the bank again") Pending
                 (u "2024-05-01 09:32");
               mkTask 3 (u "pay rent") Pending (u "2024-05-02 18:00")]
              (mkTask 2 (u "call the bank") Pending (u "2024-05-01 09:31")))
    as (Hp & _); [exact Hh | sample_ok | sample_ok |].
  exact (Hp eq_refl).
Defined.

Lemma in_complete (k : Z) (ts : list task) (t : task) :
  In t ts -> In t (complete k ts) \/ In (mark_done t) (complete k ts).
Proof.
  induction ts as [|a r IH]; [contradiction|].
  cbn [complete]. destruct (t_id a =? k)%Z.
  - intros [->|Hr]; [right; now left | left; now right].
  - intros [->|Hr]; [left; now left|].
    destruct (IH Hr) as [Hi|Hi]; [left | right]; now right.
Qed.

Lemma mark_done_done (t : task) : t_status t = Done -> mark_done t = t.
Proof. destruct t as [i d s c]. cbn. intros ->. reflexivity. Qed.

(** What each command leaves of a store: the store held afterwards. *)

Lemma store_after_done (w : world) (ts : list task) (k : Z) :
  holds w ts -> Forall well_formed ts ->
  holds (snd (done k w)) ts \/ holds (snd (done k w)) (complete k ts).
Proof.
  intros H Hwf. destruct (in_dec Z.eq_dec k (ids ts)) as [Hin|Hout].
  - destruct (first_match_in k ts Hin) as (j & t & Hm).
    destruct (t_status t) eqn:Hs.
    + destruct (done_completes w ts k j t H Hwf Hm Hs) as (c & _ & Hl & E).
      rewrite E. right. now apply holds_file.
    + rewrite (done_warns w ts k j t H Hm Hs). left.
      now apply (holds_same_file w).
  - rewrite (done_not_found w ts k H Hout). left.
    now apply (holds_same_file w).
Qed.

Lemma store_after_delete (w : world) (ts : list task) (k : Z) :
  holds w ts -> Forall well_formed ts ->
  holds (snd (delete k w)) (without k ts).
Proof.
  intros H Hwf. destruct (in_dec Z.eq_dec k (ids ts)) as [Hin|Hout].
  - destruct (delete_removes w ts k H Hwf Hin) as (c & _ & Hl & E).
    rewrite E. now apply holds_file.
  - rewrite (delete_not_found w ts k H Hout), (without_absent k ts Hout).
    now apply (holds_same_file w).
Qed.

(** X7.  No command rewrites a task.  After [add], and after [delete] of
    another id, every task of the store is still there as it was; after
    [done] it is there as it was or with its status set to done and
    nothing else changed.  So a description, a timestamp or an id never
    changes, and a task that is done never becomes pending again. *)
Theorem tasks_only_move_to_done (w : world) (ts : list task) (t : task) :
  holds w ts -> Forall well_formed ts -> In t ts ->
  (forall d now, plain_text d -> plain_text now ->
     exists ts', holds (snd (add d now w)) ts' /\ In t ts') /\
  (forall k,
     exists ts', holds (snd (done k w)) ts' /\
                 (In t ts' \/ In (mark_done t) ts') /\
                 (t_status t = Done -> In t ts')) /\
  (forall k, k <> t_id t ->
     exists ts', holds (snd (delete k w)) ts' /\ In t ts').
Proof.
  intros H Hwf Hin. split; [|split].
  - intros d now Hd Hn. eexists. split.
    + exact (store_after_add w ts d now H Hwf Hd Hn).
    + apply in_or_app. now left.
  - intros k. destruct (store_after_done w ts k H Hwf) as [Hs|Hs].
    + exists ts. split; [exact Hs|]. split; [now left | trivial].
    + exists (complete k ts). split; [exact Hs|].
      pose proof (in_complete k ts t Hin) as Hc. split; [exact Hc|].
      intros Hd. rewrite (mark_done_done t Hd) in Hc. tauto.
  - intros k Hk. exists (without k ts). split.
    + exact (store_after_delete w ts k H Hwf).
    + apply filter_In. split; [exact Hin|].
      destruct (Z.eqb_spec (t_id t) k); [congruence | reflexivity].
Qed.

Lemma tasks_only_move_to_done_witness :
  In (mkTask 2 (u "call the bank") Done (u "2024-05-01 09:31")) sample_tasks /\
  (exists ts', holds (snd (done 2 sample_world)) ts' /\
     In (mkTask 2 (u "call the bank") Done (u "2024-05-01 09:31")) ts') /\
  (exists ts', holds (snd (delete 1 sample_world)) ts' /\
     In (mkTask 2 (u "call the bank") Done (u "2024-05-01 09:31")) ts').
Proof.
  assert (Hin : In (mkTask 2 (u "call the bank") Done (u "2024-05-01 09:31"))
                   sample_tasks) by sample_ok.
  split; [exact Hin|].
  destruct (tasks_only_move_to_done sample_world sample_tasks
              (mkTask 2 (u "call the bank") Done (u "2024-05-01 09:31")))
    as (_ & Hd & Hx); [sample_ok | sample_ok | exact Hin |].
  split.
  - destruct (Hd 2%Z) as (ts' & Hh & _ & Hk).
    exists ts'. split; [exact Hh | exact (Hk eq_refl)].
  - apply (Hx 1%Z). discriminate.
Defined.

Lemma spec_next_id_positive (ts : list task) :
  Forall (fun i => 1 <= i)%Z (ids ts) -> (1 <= spec_next_id ts)%Z.
Proof.
  unfold spec_next_id. destruct (ids ts) as [|a r]; [lia|].
  intros Hp. inversion Hp as [|? ? Ha Hr]; subst.
  pose proof (fold_max_ge r a a (or_introl eq_refl)). lia.
Qed.

(** X8.  Ids stay positive: from a store whose ids are all at least 1,
    each of [add], [done] and [delete] leads to a store whose ids are all
    at least 1. *)
Theorem ids_stay_positive (w : world) (ts : list task) :
  holds w ts -> Forall well_formed ts -> Forall (fun i => 1 <= i)%Z (ids ts) ->
  (forall d now, plain_text d -> plain_text now ->
     exists ts', holds (snd (add d now w)) ts' /\
                 Forall (fun i => 1 <= i)%Z (ids ts')) /\
  (forall k, exists ts', holds (snd (done k w)) ts' /\
                         Forall (fun i => 1 <= i)%Z (ids ts')) /\
  (forall k, exists ts', holds (snd (delete k w)) ts' /\
                         Forall (fun i => 1 <= i)%Z (ids ts')).
Proof.
  intros H Hwf Hp. split; [|split].
  - intros d now Hd Hn. eexists. split.
    + exact (store_after_add w ts d now H Hwf Hd Hn).
    + unfold ids. rewrite map_app. apply Forall_app. split; [exact Hp|].
      repeat constructor. cbn [t_id]. now apply spec_next_id_positive.
  - intros k. destruct (store_after_done w ts k H Hwf) as [Hs|Hs].
    + exists ts. now split.
    + exists (complete k ts). split; [exact Hs|]. now rewrite ids_complete.
  - intros k. exists (without k ts). split.
    + exact (store_after_delete w ts k H Hwf).
    + apply Forall_forall. intros i Hi.
      unfold ids, without in Hi. apply in_map_iff in Hi as (t & <- & Ht).
      apply filter_In in Ht as [Ht _].
      apply (proj1 (Forall_forall _ _) Hp). now apply in_map.
Qed.

Lemma ids_stay_positive_witness :
  Forall (fun i => 1 <= i)%Z (ids sample_tasks) /\
  (exists ts', holds (snd (add (u "water plants") (u "2024-05-03 08:00")
                             sample_world)) ts' /\
               Forall (fun i => 1 <= i)%Z (ids ts')).
Proof.
  assert (Hp : Forall (fun i => 1 <= i)%Z (ids sample_tasks))
    by (repeat constructor; discriminate).
  split; [exact Hp|].
  destruct (ids_stay_positive sample_world sample_tasks) as (Ha & _);
    [sample_ok | sample_ok | exact Hp |].
  apply Ha; sample_ok.
Defined.

(** ** The commands on any file *)

Lemma load_tasks_ret (w : world) : exists v, load_tasks w = (Ret v, w).
Proof.
  unfold load_tasks. destruct (tasks_file w) as [c|]; [|eauto].
  destruct (json_loads c); eauto.
Qed.

Lemma get_next_id_pure (w : world) : exists r, get_next_id w = (r, w).
Proof.
  unfold get_next_id, bind. destruct (load_tasks_ret w) as [v ->].
  destruct (negb (truthy v)); [eexists; reflexivity|].
  unfold lift. destruct (py_iter v) as [elems| | |]; try (eexists; reflexivity).
  destruct (max_id elems None); eexists; reflexivity.
Qed.

Lemma untouched_refl (w : world) : untouched w w.
Proof. split; reflexivity. Qed.

Lemma untouched_print (w : world) (m : message) :
  untouched w (mkWorld (tasks_file w) (trace w ++ [EvPrint m])).
Proof.
  split; [reflexivity|]. rewrite writes_after. cbn. apply List.app_nil_r.
Qed.

(** X9.  [list] only reads: whatever the file holds and however [list]
    ends, the file is as before and nothing was written. *)
Theorem list_only_reads (w : world) (hide_done : bool) :
  untouched w (snd (list_tasks hide_done w)).
Proof.
  unfold list_tasks, bind. destruct (load_tasks_ret w) as [v ->].
  destruct (negb (truthy v)).
  - apply untouched_print.
  - unfold lift.
    destruct (sorted_by_id v) as [ordered| | |]; try apply untouched_refl.
    destruct (render_rows hide_done ordered) as [rows| | |];
      try apply untouched_refl.
    split; [apply console_print_table_file | apply console_print_table_writes].
Qed.

Ltac quiet :=
  left; cbn [fst snd];
  first [apply untouched_refl | apply untouched_print
        | split; [discriminate|];
          first [apply untouched_refl | apply untouched_print]].

Ltac wrote :=
  try unfold console_print; cbn [fst snd tasks_file trace];
  split; [auto|]; eexists; split; [reflexivity|];
  unfold writes; cbn [trace]; rewrite !flat_map_app;
  cbn [flat_map app]; now rewrite ?List.app_nil_r.

(** X10.  A command writes the file at most once, and [done] and [delete]
    only when they return normally: whatever the file holds, they either
    leave the file as it was and write nothing (as after every failure), or
    return normally after one write, whose content is then the content of
    the file.  [add] writes before it prints: when it fails before the
    write the file is as it was; after the one write it returns normally,
    or it raises [MarkupError] from the print, and the file stays
    written.  (Outcomes outside the model are left out.) *)
Theorem commands_write_at_most_once (w : world) :
  let written (r : result unit * world) :=
    exists content,
      tasks_file (snd r) = Some content /\
      writes (snd r) = writes w ++ [content] in
  (forall d now, fst (add d now w) <> Unmodelled ->
     (fst (add d now w) <> Ret tt /\ untouched w (snd (add d now w))) \/
     ((fst (add d now w) = Ret tt \/ fst (add d now w) = Raise MarkupError)
      /\ written (add d now w))) /\
  (forall k, fst (done k w) <> Unmodelled ->
     untouched w (snd (done k w)) \/
     (fst (done k w) = Ret tt /\ written (done k w))) /\
  (forall k, fst (delete k w) <> Unmodelled ->
     untouched w (snd (delete k w)) \/
     (fst (delete k w) = Ret tt /\ written (delete k w))).
Proof.
  cbv zeta. split; [|split].
  - intros d now. unfold add, bind.
    destruct (load_tasks_ret w) as [v ->].
    destruct (get_next_id_pure w) as [r ->].
    destruct r as [n| | |]; try (intros _; quiet).
    unfold lift. destruct (py_append v _) as [tasks'| | |];
      try (intros _; quiet).
    unfold save_tasks. destruct (json_dumps tasks') as [c|];
      [|intros _; quiet].
    unfold console_print, render_markup.
    destruct (console_safe d); [intros _; right; wrote|].
    destruct (starts_with_closing_tag d); [intros _; right; wrote|].
    intros Hm. now contradiction Hm.
  - intros k _. unfold done, bind.
    destruct (load_tasks_ret w) as [v ->].
    unfold lift. destruct (py_iter v) as [elems| | |]; try quiet.
    destruct (find_task elems k 0) as [[[i t]|]| | |]; try quiet.
    destruct (negb (truthy t)); [quiet|].
    destruct (getitem t (u "status")) as [st| | |]; try quiet.
    destruct (py_eq_str st (u "done")); [quiet|].
    destruct (setitem t (u "status") (JStr (u "done"))) as [t'| | |];
      try quiet.
    unfold save_tasks. destruct (json_dumps _) as [c|]; [right; wrote | quiet].
  - intros k _. unfold delete, bind.
    destruct (load_tasks_ret w) as [v ->].
    unfold lift. destruct (py_len v) as [n| | |]; try quiet.
    destruct (py_iter v) as [elems| | |]; try quiet.
    destruct (keep_others elems k) as [kept| | |]; try quiet.
    destruct (Nat.eqb (List.length kept) n); [quiet|].
    unfold save_tasks. destruct (json_dumps _) as [c|]; [right; wrote | quiet].
Qed.

Lemma commands_write_at_most_once_witness :
  (fst (add (u "[/red]") (u "2024-05-01 09:30") sample_world)
   = Raise MarkupError /\
   exists content,
     tasks_file (snd (add (u "[/red]") (u "2024-05-01 09:30") sample_world))
     = Some content /\
     writes (snd (add (u "[/red]") (u "2024-05-01 09:30") sample_world))
     = writes sample_world ++ [content]) /\
  untouched sample_world (snd (done 7 sample_world)).
Proof.
  destruct (commands_write_at_most_once sample_world) as (Ha & Hd & _).
  split.
  - destruct (Ha (u "[/red]") (u "2024-05-01 09:30")) as [[_ Hu]|[Hr Hw]].
    + by_running_neq.
    + exfalso. destruct Hu as [Hu _]. vm_compute in Hu. discriminate Hu.
    + split; [by_running | exact Hw].
  - destruct (Hd 7%Z) as [Hu|[Hr _]].
    + by_running_neq.
    + exact Hu.
    + vm_compute in Hr. discriminate Hr.
Defined.

Lemma file_decodes_load (w : world) (v : json) :
  file_decodes w v -> load_tasks w = (Ret v, w).
Proof. intros (c & Hc & Hv). unfold load_tasks. now rewrite Hc, Hv. Qed.

(** X11.  A file whose JSON value is not a list and counts as true in
    Python (a non-empty string or object, a number other than zero,
    [true]) makes every command end in a [TypeError]; the file is not
    touched. *)
Theorem truthy_non_list_raises (w : world) (v : json) :
  file_decodes w v -> truthy v = true -> (forall l, v <> JArr l) ->
  (forall hide_done, list_tasks hide_done w = (Raise TypeError, w)) /\
  (forall d now, add d now w = (Raise TypeError, w)) /\
  (forall k, done k w = (Raise TypeError, w)) /\
  (forall k, delete k w = (Raise TypeError, w)).
Proof.
  intros Hf Ht Hl. pose proof (file_decodes_load w v Hf) as E.
  assert (Hn : get_next_id w = (Raise TypeError, w)).
  { unfold get_next_id, bind. rewrite E, Ht. cbn [negb].
    destruct v as [|b|z|f|s|l|d]; try reflexivity.
    - destruct s; [discriminate Ht | reflexivity].
    - now contradiction (Hl l).
    - destruct d as [|[k x] d]; [discriminate Ht | reflexivity]. }
  repeat split.
  - intros hide_done. unfold list_tasks, bind. rewrite E, Ht. cbn [negb].
    destruct v as [|b|z|f|s|l|d]; try reflexivity.
    + destruct s; [discriminate Ht | reflexivity].
    + now contradiction (Hl l).
    + destruct d as [|[k x] d]; [discriminate Ht | reflexivity].
  - intros d now. unfold add, bind. now rewrite E, Hn.
  - intros k. unfold done, bind. rewrite E.
    destruct v as [|b|z|f|s|l|d]; try reflexivity.
    + destruct s; [discriminate Ht | reflexivity].
    + now contradiction (Hl l).
    + destruct d as [|[k' x] d]; [discriminate Ht | reflexivity].
  - intros k. unfold delete, bind. rewrite E.
    destruct v as [|b|z|f|s|l|d]; try reflexivity.
    + destruct s; [discriminate Ht | reflexivity].
    + now contradiction (Hl l).
    + destruct d as [|[k' x] d]; [discriminate Ht | reflexivity].
Qed.

Lemma truthy_non_list_raises_witness :
  file_decodes (world_of quoted_words) (JStr bare_words) /\
  delete 1 (world_of quoted_words) = (Raise TypeError, world_of quoted_words).
Proof.
  assert (Hf : file_decodes (world_of quoted_words) (JStr bare_words)).
  { exists quoted_words. split; [reflexivity | vm_compute; reflexivity]. }
  split; [exact Hf|].
  destruct (truthy_non_list_raises (world_of quoted_words) (JStr bare_words))
    as (_ & _ & _ & Hx); [exact Hf | reflexivity | discriminate |].
  exact (Hx 1%Z).
Defined.

(** X12.  A file whose JSON value is not a list and counts as false in
    Python ([null], [false], zero, the empty string, the empty object) is
    shown by [list] as an empty store, but [add] ends in an
    [AttributeError] on it, while [done] and [delete] report the task as
    not found or end in a [TypeError]; the file is not touched. *)
Theorem falsy_non_list_is_half_empty (w : world) (v : json) :
  file_decodes w v -> truthy v = false -> (forall l, v <> JArr l) ->
  (forall hide_done,
     list_tasks hide_done w
     = (Ret tt, mkWorld (tasks_file w) (trace w ++ [EvPrint MsgNoTasks]))) /\
  (forall d now, add d now w = (Raise AttributeError, w)) /\
  (forall k,
     let w' := mkWorld (tasks_file w) (trace w ++ [EvPrint (MsgNotFound k)]) in
     (done k w = (Exit 1%Z, w') /\ delete k w = (Exit 1%Z, w')) \/
     (done k w = (Raise TypeError, w) /\ delete k w = (Raise TypeError, w))).
Proof.
  intros Hf Ht Hl. pose proof (file_decodes_load w v Hf) as E.
  split; [|split].
  - intros hide_done. unfold list_tasks, bind. now rewrite E, Ht.
  - intros d now.
    assert (Hn : get_next_id w = (Ret 1%Z, w)).
    { unfold get_next_id, bind. now rewrite E, Ht. }
    unfold add, bind. rewrite E, Hn.
    destruct v; try reflexivity. now contradiction (Hl items).
  - intros k. cbv zeta. unfold done, delete, bind. rewrite E.
    destruct v as [|b|z|f|s|l|d]; try (right; split; reflexivity).
    + destruct s; [left; split; reflexivity | discriminate Ht].
    + now contradiction (Hl l).
    + destruct d; [left; split; reflexivity | discriminate Ht].
Qed.

Lemma falsy_non_list_is_half_empty_witness :
  file_decodes (world_of (u "{}")) (JObj []) /\
  list_tasks false (world_of (u "{}"))
  = (Ret tt, mkWorld (Some (u "{}")) [EvPrint MsgNoTasks]) /\
  add (u "buy milk") (u "2024-05-01 09:30") (world_of (u "{}"))
  = (Raise AttributeError, world_of (u "{}")).
Proof.
  assert (Hf : file_decodes (world_of (u "{}")) (JObj [])).
  { exists (u "{}"). split; [reflexivity | vm_compute; reflexivity]. }
  split; [exact Hf|].
  destruct (falsy_non_list_is_half_empty (world_of (u "{}")) (JObj []))
    as (Hl & Ha & _); [exact Hf | reflexivity | discriminate |].
  split; [exact (Hl false) | exact (Ha _ _)].
Defined.

(** ** Task records with a key missing *)

Lemma max_id_missing (pre : list task) (d : list (text * json))
      (rest : list json) (cur : option Z) :
  lookup (u "id") d = None ->
  max_id (List.map task_json pre ++ JObj d :: rest) cur = Raise KeyError.
Proof.
  intros Hd. revert cur. induction pre as [|t r IH]; intros cur.
  - cbn [List.map app max_id getitem]. now rewrite Hd.
  - cbn [List.map app max_id]. rewrite getitem_id. cbn [rbind]. apply IH.
Qed.

Lemma sort_keys_missing (pre : list task) (d : list (text * json))
      (rest : list json) :
  lookup (u "id") d = None ->
  sort_keys (List.map task_json pre ++ JObj d :: rest) = Raise KeyError.
Proof.
  intros Hd. induction pre as [|t r IH].
  - cbn [List.map app sort_keys getitem]. now rewrite Hd.
  - cbn [List.map app sort_keys]. rewrite getitem_id. cbn [rbind].
    now rewrite IH.
Qed.

Lemma keep_others_missing (pre : list task) (d : list (text * json))
      (rest : list json) (k : Z) :
  lookup (u "id") d = None ->
  keep_others (List.map task_json pre ++ JObj d :: rest) k = Raise KeyError.
Proof.
  intros Hd. induction pre as [|t r IH].
  - cbn [List.map app keep_others getitem]. now rewrite Hd.
  - cbn [List.map app keep_others]. rewrite getitem_id.
    cbn [rbind py_eq_int]. now rewrite IH.
Qed.

Lemma find_task_past (pre : list task) (x : json) (rest : list json)
      (k : Z) (i : nat) :
  ~ In k (ids pre) ->
  find_task (List.map task_json pre ++ x :: rest) k i
  = find_task (x :: rest) k (i + List.length pre).
Proof.
  revert i. induction pre as [|t r IH]; intros i Hn.
  - cbn [List.map app List.length]. now rewrite Nat.add_0_r.
  - cbn [ids List.map In] in Hn.
    cbn [List.map app find_task List.length]. rewrite getitem_id.
    cbn [rbind py_eq_int].
    destruct (Z.eqb_spec (t_id t) k); [tauto|].
    rewrite IH by tauto.
    now rewrite Nat.add_succ_r.
Qed.

Lemma truthy_list_with (pre : list task) (x : json) (rest : list json) :
  truthy (JArr (List.map task_json pre ++ x :: rest)) = true.
Proof. destruct pre; reflexivity. Qed.

(** X13.  A task record without the key ['id'] stops the commands with a
    [KeyError], whatever follows it in the file: [add], [list] and
    [delete] always, [done] unless the task it looks for stands before
    that record.  The file is not touched. *)
Theorem missing_id_raises_key_error
  (w : world) (pre : list task) (d : list (text * json)) (rest : list json) :
  file_decodes w (JArr (List.map task_json pre ++ JObj d :: rest)) ->
  lookup (u "id") d = None ->
  (forall desc now, add desc now w = (Raise KeyError, w)) /\
  (forall hide_done, list_tasks hide_done w = (Raise KeyError, w)) /\
  (forall k, delete k w = (Raise KeyError, w)) /\
  (forall k, ~ In k (ids pre) -> done k w = (Raise KeyError, w)).
Proof.
  intros Hf Hd. pose proof (file_decodes_load w _ Hf) as E.
  assert (Hn : get_next_id w = (Raise KeyError, w)).
  { unfold get_next_id, bind. rewrite E, truthy_list_with.
    cbn [negb py_iter lift]. now rewrite max_id_missing. }
  split; [|split; [|split]].
  - intros desc now. unfold add, bind. now rewrite E, Hn.
  - intros hide_done. unfold list_tasks, bind. rewrite E, truthy_list_with.
    cbn [negb lift]. unfold sorted_by_id. cbn [py_iter rbind].
    now rewrite sort_keys_missing.
  - intros k. unfold delete, bind. rewrite E. cbn [py_len py_iter lift].
    now rewrite keep_others_missing.
  - intros k Hk. unfold done, bind. rewrite E. cbn [py_iter lift].
    rewrite find_task_past by exact Hk.
    cbn [find_task getitem]. now rewrite Hd.
Qed.

Lemma missing_id_raises_key_error_witness :
  file_decodes (world_of (u "[{}]")) (JArr (List.map task_json [] ++ JObj [] :: [])) /\
  list_tasks false (world_of (u "[{}]")) = (Raise KeyError, world_of (u "[{}]")).
Proof.
  assert (Hf : file_decodes (world_of (u "[{}]"))
                 (JArr (List.map task_json [] ++ JObj [] :: []))).
  { exists (u "[{}]"). split; [reflexivity | vm_compute; reflexivity]. }
  split; [exact Hf|].
  destruct (missing_id_raises_key_error (world_of (u "[{}]")) [] [] [])
    as (_ & Hl & _); [exact Hf | reflexivity |].
  exact (Hl false).
Defined.

(** X14.  [done] on a task record that has the id looked for but no key
    ['status'] ends in a [KeyError] and writes nothing. *)
Theorem done_missing_status_raises
  (w : world) (pre : list task) (d : list (text * json)) (rest : list json)
  (k : Z) :
  file_decodes w (JArr (List.map task_json pre ++ JObj d :: rest)) ->
  ~ In k (ids pre) ->
  lookup (u "id") d = Some (JInt k) ->
  lookup (u "status") d = None ->
  done k w = (Raise KeyError, w).
Proof.
  intros Hf Hk Hi Hs. pose proof (file_decodes_load w _ Hf) as E.
  unfold done, bind. rewrite E. cbn [py_iter lift].
  rewrite find_task_past by exact Hk.
  cbn [find_task getitem]. rewrite Hi. cbn [rbind py_eq_int].
  rewrite Z.eqb_refl.
  assert (Ht : truthy (JObj d) = true).
  { destruct d; [discriminate Hi | reflexivity]. }
  rewrite Ht. cbn [negb getitem]. now rewrite Hs.
Qed.

Lemma done_missing_status_raises_witness :
  file_decodes (world_of [91; 123; 34; 105; 100; 34; 58; 32; 53; 125; 93])
    (JArr (List.map task_json [] ++ JObj [(u "id", JInt 5)] :: [])) /\
  done 5 (world_of [91; 123; 34; 105; 100; 34; 58; 32; 53; 125; 93])
  = (Raise KeyError,
     world_of [91; 123; 34; 105; 100; 34; 58; 32; 53; 125; 93]).
Proof.
  assert (Hf : file_decodes
                 (world_of [91; 123; 34; 105; 100; 34; 58; 32; 53; 125; 93])
                 (JArr (List.map task_json []
                        ++ JObj [(u "id", JInt 5)] :: []))).
  { eexists. split; [reflexivity | vm_compute; reflexivity]. }
  split; [exact Hf|].
  apply (done_missing_status_raises _ [] [(u "id", JInt 5)] [] 5%Z);
    [exact Hf | intros [] | reflexivity | reflexivity].
Defined.

(** ** What is written *)

(** X15.  Whatever [save_tasks] writes, [load_tasks] reads back: for every
    value without floats, with plain text and without a key twice in an
    object (task records with further fields included), saving succeeds
    and loading right after it returns the value saved. *)
Theorem save_then_load_any_value (v : json) (w : world) :
  dumpable v ->
  fst (save_tasks v w) = Ret tt /\
  load_tasks (snd (save_tasks v w)) = (Ret v, snd (save_tasks v w)).
Proof.
  intros Hd. destruct (encode_dumpable v Hd 0%nat) as [t Ht].
  pose proof (json_loads_dumps v t Hd Ht) as Hl.
  unfold save_tasks, json_dumps. rewrite Ht. cbn [fst snd].
  split; [reflexivity|].
  unfold load_tasks. cbn [tasks_file]. now rewrite Hl.
Qed.

Lemma save_then_load_any_value_witness :
  load_tasks
    (snd (save_tasks
            (JArr [JObj [(u "id", JInt 1);
                         (u "tags", JArr [JStr (u "home"); JNull; JBool true]);
                         (u "status", JStr (u "pending"))]])
            empty_world))
  = (Ret (JArr [JObj [(u "id", JInt 1);
                      (u "tags", JArr [JStr (u "home"); JNull; JBool true]);
                      (u "status", JStr (u "pending"))]]),
     snd (save_tasks
            (JArr [JObj [(u "id", JInt 1);
                         (u "tags", JArr [JStr (u "home"); JNull; JBool true]);
                         (u "status", JStr (u "pending"))]])
            empty_world)).
Proof.
  apply (save_then_load_any_value
           (JArr [JObj [(u "id", JInt 1);
                        (u "tags", JArr [JStr (u "home"); JNull; JBool true]);
                        (u "status", JStr (u "pending"))]]) empty_world).
  cbn [dumpable]. repeat split; try plain.
  repeat constructor; cbn; intros H;
    repeat destruct H as [H|H]; (discriminate H || contradiction H).
Defined.

Lemma unicode_value_arr (l : list json) :
  unicode_value (JArr l) <-> Forall unicode_value l.
Proof.
  induction l as [|x r IH]; split; intros H.
  - constructor.
  - exact I.
  - destruct H as [Hx Hr]. constructor; [exact Hx | now apply IH].
  - inversion H; subst. split; [assumption | now apply IH].
Qed.

Lemma unicode_value_obj (d : list (text * json)) :
  unicode_value (JObj d) <->
  Forall (fun kv => unicode_text (fst kv) /\ unicode_value (snd kv)) d.
Proof.
  induction d as [|[k x] r IH]; split; intros H.
  - constructor.
  - exact I.
  - destruct H as (Hk & Hx & Hr). constructor; [now split | now apply IH].
  - inversion H as [|? ? [Hk Hx] Hr]; subst.
    repeat split; try assumption. now apply IH.
Qed.

Lemma printable_hexdigit (k : N) : k < 16 -> printable (hexdigit k).
Proof.
  intros Hk. unfold printable, hexdigit. left.
  destruct (N.ltb_spec k 10); lia.
Qed.

Lemma printable_uescape (n : N) : n < 65536 -> Forall printable (uescape n).
Proof.
  intros Hn. unfold uescape.
  apply Forall_cons; [left; lia|].
  apply Forall_cons; [left; lia|].
  apply Forall_cons;
    [apply printable_hexdigit; now apply N.Div0.div_lt_upper_bound|].
  repeat (apply Forall_cons;
          [apply printable_hexdigit; apply N.mod_upper_bound; discriminate|]).
  apply Forall_nil.
Qed.

Lemma printable_escape_char (c : N) :
  c < 1114112 -> Forall printable (escape_char c).
Proof.
  intros Hc. unfold escape_char.
  repeat match goal with
         | |- context [c =? ?k] =>
             destruct (N.eqb_spec c k);
             [repeat (apply Forall_cons; [left; lia|]); apply Forall_nil|]
         end.
  destruct ((32 <=? c) && (c <=? 126)) eqn:Hp.
  - apply andb_prop in Hp as [H1 H2]. apply N.leb_le in H1, H2.
    apply Forall_cons; [left; lia | apply Forall_nil].
  - destruct (N.ltb_spec c 65536) as [Hb|Hb].
    + now apply printable_uescape.
    + destruct (surrogates_of c Hb Hc) as (E1 & E2 & Hq).
      rewrite E1, E2.
      pose proof (N.mod_upper_bound (c - 65536) 1024 ltac:(discriminate)).
      apply Forall_app. split; apply printable_uescape; lia.
Qed.

Lemma printable_encode_str (s : text) :
  unicode_text s -> Forall printable (encode_str s).
Proof.
  intros Hs. unfold encode_str. constructor; [left; lia|].
  apply Forall_app. split; [|apply Forall_cons; [left; lia | apply Forall_nil]].
  induction Hs as [|c r Hc Hr IH]; [constructor|].
  cbn [flat_map]. apply Forall_app. split; [|exact IH].
  now apply printable_escape_char.
Qed.

Lemma printable_uint_text (d : Decimal.uint) : Forall printable (uint_text d).
Proof.
  induction d; cbn [uint_text]; constructor; try assumption; left; lia.
Qed.

Lemma printable_int_repr (z : Z) : Forall printable (int_repr z).
Proof.
  destruct z; cbn [int_repr]; try apply printable_uint_text.
  constructor; [left; lia | apply printable_uint_text].
Qed.

Lemma printable_indent (level : nat) : Forall printable (newline_indent level).
Proof.
  unfold newline_indent. constructor; [now right|].
  induction (4 * level)%nat as [|n IH]; cbn [repeat]; constructor;
    [left; lia | exact IH].
Qed.

Lemma printable_u (s : string) :
  forallb (fun c => (32 <=? c) && (c <=? 126)) (u s) = true ->
  Forall printable (u s).
Proof.
  intros H. apply Forall_forall. intros c Hc.
  pose proof (proj1 (forallb_forall _ _) H c Hc) as Hb.
  apply andb_prop in Hb as [H1 H2]. apply N.leb_le in H1, H2. left. lia.
Qed.

Lemma printable_encode (v : json) :
  unicode_value v ->
  forall level t, encode level v = Some t -> Forall printable t.
Proof.
  induction v using json_induction; intros Hu level t Ht.
  - injection Ht as <-. now apply (printable_u "null").
  - destruct b; injection Ht as <-;
      [now apply (printable_u "true") | now apply (printable_u "false")].
  - injection Ht as <-. apply printable_int_repr.
  - discriminate.
  - injection Ht as <-. now apply printable_encode_str.
  - rewrite encode_arr in Ht. apply unicode_value_arr in Hu.
    assert (G : forall b, encode_items level l = Some b -> Forall printable b).
    { clear Ht. induction l as [|x r IH]; intros b Hb.
      - injection Hb as <-. constructor.
      - inversion H as [|? ? Px Pr]; subst.
        inversion Hu as [|? ? Ux Ur]; subst.
        cbn [encode_items] in Hb.
        destruct (encode (S level) x) as [a|] eqn:Ea; [|discriminate].
        destruct (encode_items level r) as [b'|] eqn:Eb; [|discriminate].
        assert (E : b = newline_indent (S level) ++ a
                        ++ match r with [] => [] | _ => [44] end ++ b')
          by congruence.
        rewrite E. repeat (apply Forall_app; split).
        + apply printable_indent.
        + exact (Px Ux _ _ Ea).
        + destruct r; [apply Forall_nil|].
          apply Forall_cons; [left; lia | apply Forall_nil].
        + now apply IH. }
    destruct l as [|x r].
    + injection Ht as <-. now apply (printable_u "[]").
    + destruct (encode_items level (x :: r)) as [b|]; [|discriminate].
      assert (E : t = 91 :: b ++ newline_indent level ++ [93]) by congruence.
      rewrite E. constructor; [left; lia|].
      repeat (apply Forall_app; split);
        [now apply G | apply printable_indent
        | apply Forall_cons; [left; lia | apply Forall_nil]].
  - rewrite encode_obj in Ht. apply unicode_value_obj in Hu.
    assert (G : forall b, encode_members level d = Some b -> Forall printable b).
    { clear Ht. induction d as [|[k x] r IH]; intros b Hb.
      - injection Hb as <-. constructor.
      - inversion H as [|? ? Px Pr]; subst.
        inversion Hu as [|? ? [Uk Ux] Ur]; subst. cbn [fst snd] in *.
        cbn [encode_members] in Hb.
        destruct (encode (S level) x) as [a|] eqn:Ea; [|discriminate].
        destruct (encode_members level r) as [b'|] eqn:Eb; [|discriminate].
        assert (E : b = newline_indent (S level) ++ encode_str k ++ [58; 32]
                        ++ a ++ match r with [] => [] | _ => [44] end ++ b')
          by congruence.
        rewrite E. repeat (apply Forall_app; split).
        + apply printable_indent.
        + now apply printable_encode_str.
        + repeat (apply Forall_cons; [left; lia|]). apply Forall_nil.
        + exact (Px Ux _ _ Ea).
        + destruct r; [apply Forall_nil|].
          apply Forall_cons; [left; lia | apply Forall_nil].
        + now apply IH. }
    destruct d as [|kx r].
    + injection Ht as <-. now apply (printable_u "{}").
    + destruct (encode_members level (kx :: r)) as [b|]; [|discriminate].
      assert (E : t = 123 :: b ++ newline_indent level ++ [125]) by congruence.
      rewrite E. constructor; [left; lia|].
      repeat (apply Forall_app; split);
        [now apply G | apply printable_indent
        | apply Forall_cons; [left; lia | apply Forall_nil]].
Qed.

(** X16.  The file is written in ASCII: whatever Unicode text the value
    holds, every character that [save_tasks] writes is a printable ASCII
    character or a newline. *)
Theorem written_file_is_ascii (v : json) (w w' : world) :
  unicode_value v -> save_tasks v w = (Ret tt, w') ->
  exists content,
    tasks_file w' = Some content /\
    writes w' = writes w ++ [content] /\
    Forall printable content.
Proof.
  intros Hu. unfold save_tasks, json_dumps.
  destruct (encode 0 v) as [t|] eqn:Ht; [|discriminate].
  intros E. injection E as <-. exists t. repeat split.
  - rewrite writes_after. reflexivity.
  - exact (printable_encode v Hu _ _ Ht).
Qed.

Lemma written_file_is_ascii_witness :
  exists content,
    tasks_file (snd (save_tasks (JArr [JStr [233; 128512; 10]]) empty_world))
    = Some content /\
    Forall printable content.
Proof.
  destruct (written_file_is_ascii (JArr [JStr [233; 128512; 10]]) empty_world
              (snd (save_tasks (JArr [JStr [233; 128512; 10]]) empty_world)))
    as (c & Hc & _ & Hp).
  - cbn [unicode_value]. split; [|exact I].
    repeat (apply Forall_cons; [reflexivity|]). apply Forall_nil.
  - vm_compute. reflexivity.
  - exists c. split; [exact Hc | exact Hp].
Defined.

(** ** What [list] shows after the other commands *)

Lemma filter_map_rows (p : task -> bool) (q : row -> bool) (l : list task) :
  (forall t, q (row_of t) = p t) ->
  filter q (List.map row_of l) = List.map row_of (filter p l).
Proof.
  intros Hpq. induction l as [|t r IH]; [reflexivity|].
  cbn [List.map filter]. rewrite Hpq.
  destruct (p t); cbn [List.map]; now rewrite IH.
Qed.

(** X17.  On a store whose descriptions the console prints, the table of
    [list --hide-done] is the table of [list] without the rows shown in
    the style of a done task; the rows left keep their order. *)
Theorem hidden_rows_are_the_done_rows (w : world) (ts : list task) :
  holds w ts -> console_store ts -> ts <> [] ->
  exists rows,
    list_tasks false w
    = (Ret tt, mkWorld (tasks_file w) (trace w ++ [EvTable rows])) /\
    list_tasks true w
    = (Ret tt,
       mkWorld (tasks_file w)
         (trace w ++
          [EvTable (filter (fun r => negb (row_done_style r)) rows)])).
Proof.
  intros H Hc Hne.
  exists (List.map row_of (sort_tasks ts)).
  rewrite !(list_tasks_shows w ts _ H Hc).
  destruct ts as [|t r]; [contradiction|].
  rewrite shown_tasks_all, shown_tasks_pending.
  rewrite (filter_map_rows is_pending); [split; reflexivity|].
  intros x. cbn [row_of row_done_style]. apply negb_involutive.
Qed.

Lemma hidden_rows_are_the_done_rows_witness :
  holds sample_world sample_tasks /\
  exists rows,
    list_tasks false sample_world
    = (Ret tt, mkWorld (tasks_file sample_world)
                 (trace sample_world ++ [EvTable rows])) /\
    list_tasks true sample_world
    = (Ret tt,
       mkWorld (tasks_file sample_world)
         (trace sample_world ++
          [EvTable (filter (fun r => negb (row_done_style r)) rows)])).
Proof.
  assert (Hh : holds sample_world sample_tasks) by sample_ok.
  split; [exact Hh|].
  apply (hidden_rows_are_the_done_rows sample_world sample_tasks Hh);
    [sample_ok | discriminate].
Defined.

Lemma console_store_complete (k : Z) (ts : list task) :
  console_store ts -> console_store (complete k ts).
Proof.
  unfold console_store. induction 1 as [|a r Ha Hr IH]; [constructor|].
  cbn [complete]. destruct (t_id a =? k)%Z; constructor; assumption.
Qed.

(** X18.  On a store whose descriptions the console prints, a task that
    [done] has completed is no longer shown by [list --hide-done], while
    every other pending task still is, and [list] shows it as done. *)
Theorem completed_task_is_hidden (w : world) (ts : list task) (t0 : task) :
  holds w ts -> Forall well_formed ts -> console_store ts ->
  NoDup (ids ts) -> In t0 ts -> t_status t0 = Pending ->
  let w1 := snd (done (t_id t0) w) in
  exists shown rows,
    list_tasks true w1
    = (Ret tt, mkWorld (tasks_file w1)
                 (trace w1 ++ [EvTable (List.map row_of shown)])) /\
    ~ In (t_id t0) (ids shown) /\
    (forall t, In t ts -> t_status t = Pending -> t_id t <> t_id t0 ->
               In t shown) /\
    list_tasks false w1
    = (Ret tt, mkWorld (tasks_file w1) (trace w1 ++ [EvTable rows])) /\
    In (row_of (mark_done t0)) rows.
Proof.
  intros H Hwf Hc Hnd Hin Hp.
  destruct (first_match_unique t0 ts Hnd Hin) as [j Hm].
  destruct (done_completes w ts (t_id t0) j t0 H Hwf Hm Hp)
    as (c & _ & Hl & E).
  cbv zeta. rewrite E. cbn [snd].
  set (w1 := mkWorld (Some c)
               (trace w ++ [EvWrite c; EvPrint (MsgCompleted (t_id t0))])).
  set (ts1 := complete (t_id t0) ts).
  assert (H1 : holds w1 ts1) by now apply holds_file.
  assert (Hc1 : console_store ts1) by now apply console_store_complete.
  assert (E1 : ts1 = List.map (fun a => if (t_id a =? t_id t0)%Z
                                        then mark_done a else a) ts)
    by apply (complete_unique _ _ Hnd).
  assert (Hne : ts1 <> []).
  { rewrite E1. destruct ts; [contradiction | discriminate]. }
  exists (shown_tasks true (sort_tasks ts1)),
         (List.map row_of (sort_tasks ts1)).
  rewrite !(list_tasks_shows w1 ts1 _ H1 Hc1).
  destruct ts1 as [|a r] eqn:Ets; [contradiction|]. rewrite <- Ets in *.
  rewrite shown_tasks_all.
  split; [reflexivity|]. split; [|split; [|split; [reflexivity|]]].
  - intros Hk. unfold ids in Hk. apply in_map_iff in Hk as (x & Ex & Hx).
    rewrite shown_tasks_pending in Hx. apply filter_In in Hx as [Hx Hpx].
    apply (Permutation_in _ (sort_tasks_perm ts1)) in Hx.
    rewrite E1 in Hx. apply in_map_iff in Hx as (y & Ey & Hy).
    destruct (Z.eqb_spec (t_id y) (t_id t0)) as [Eq|Ne].
    + subst x. unfold is_pending in Hpx. discriminate Hpx.
    + subst x. contradiction.
  - intros t Ht Hs Hk. rewrite shown_tasks_pending.
    apply filter_In. split; [|unfold is_pending; now rewrite Hs].
    apply (Permutation_in _ (Permutation_sym (sort_tasks_perm ts1))).
    rewrite E1. apply in_map_iff. exists t. split; [|exact Ht].
    destruct (Z.eqb_spec (t_id t) (t_id t0)); [contradiction | reflexivity].
  - apply in_map.
    apply (Permutation_in _ (Permutation_sym (sort_tasks_perm ts1))).
    rewrite E1. apply in_map_iff. exists t0. now rewrite Z.eqb_refl.
Qed.

Lemma completed_task_is_hidden_witness :
  In (mkTask 3 (u "pay rent") Pending (u "2024-05-02 18:00")) sample_tasks /\
  exists shown,
    list_tasks true (snd (done 3 sample_world))
    = (Ret tt, mkWorld (tasks_file (snd (done 3 sample_world)))
                 (trace (snd (done 3 sample_world))
                  ++ [EvTable (List.map row_of shown)])) /\
    ~ In 3%Z (ids shown).
Proof.
  assert (Hin : In (mkTask 3 (u "pay rent") Pending (u "2024-05-02 18:00"))
                   sample_tasks) by sample_ok.
  split; [exact Hin|].
  destruct (completed_task_is_hidden sample_world sample_tasks
              (mkTask 3 (u "pay rent") Pending (u "2024-05-02 18:00")))
    as (shown & rows & E & Hn & _);
    [sample_ok | sample_ok | sample_ok | sample_ok | exact Hin | reflexivity |].
  exists shown. split; [exact E | exact Hn].
Defined.

Lemma insert_task_before_last (a new : task) (l : list task) :
  (t_id a <= t_id new)%Z ->
  insert_task a (l ++ [new]) = insert_task a l ++ [new].
Proof.
  intros Ha. induction l as [|y r IH]; cbn [app insert_task].
  - destruct (Z.leb_spec (t_id a) (t_id new)); [reflexivity | lia].
  - destruct (t_id a <=? t_id y)%Z; [reflexivity|].
    cbn [app]. now rewrite IH.
Qed.

Lemma sort_tasks_snoc (ts : list task) (new : task) :
  (forall i, In i (ids ts) -> (i < t_id new)%Z) ->
  sort_tasks (ts ++ [new]) = sort_tasks ts ++ [new].
Proof.
  unfold sort_tasks. induction ts as [|a r IH]; intros Hlt; [reflexivity|].
  cbn [app fold_right]. rewrite IH.
  - apply insert_task_before_last.
    assert (t_id a < t_id new)%Z by (apply Hlt; now left). lia.
  - intros i Hi. apply Hlt. now right.
Qed.

(** X19.  When the console prints the descriptions of the store and the
    new one, the task that [add] has just created is the last row of the
    table of [list]; before it stand the rows that [list] showed before
    the [add], unchanged. *)
Theorem added_task_is_listed_last
  (w : world) (ts : list task) (d now : text) :
  holds w ts -> Forall well_formed ts -> plain_text d -> plain_text now ->
  console_store ts -> console_safe d = true ->
  let w1 := snd (add d now w) in
  exists rows,
    (ts <> [] ->
     list_tasks false w
     = (Ret tt, mkWorld (tasks_file w) (trace w ++ [EvTable rows]))) /\
    (ts = [] -> rows = []) /\
    list_tasks false w1
    = (Ret tt,
       mkWorld (tasks_file w1)
         (trace w1 ++
          [EvTable (rows ++ [row_of (mkTask (spec_next_id ts) d Pending now)])])).
Proof.
  intros H Hwf Hd Hn Hc Hs. cbv zeta.
  pose proof (store_after_add w ts d now H Hwf Hd Hn) as H1.
  set (new := mkTask (spec_next_id ts) d Pending now) in *.
  assert (Hc1 : console_store (ts ++ [new])).
  { apply Forall_app. split; [exact Hc|]. now constructor. }
  exists (List.map row_of (sort_tasks ts)). split; [|split].
  - intros Hne. rewrite (list_tasks_shows w ts false H Hc).
    destruct ts; [contradiction|]. now rewrite shown_tasks_all.
  - intros ->. reflexivity.
  - rewrite (list_tasks_shows _ _ false H1 Hc1).
    assert (Es : sort_tasks (ts ++ [new]) = sort_tasks ts ++ [new]).
    { apply sort_tasks_snoc. intros i Hi. cbn [new t_id].
      now apply spec_next_id_above. }
    destruct (ts ++ [new]) as [|a r] eqn:E.
    + destruct ts; discriminate E.
    + now rewrite shown_tasks_all, Es, map_app.
Qed.

Lemma added_task_is_listed_last_witness :
  holds sample_world sample_tasks /\
  exists rows,
    list_tasks false
      (snd (add (u "water plants") (u "2024-05-03 08:00") sample_world))
    = (Ret tt,
       mkWorld
         (tasks_file (snd (add (u "water plants") (u "2024-05-03 08:00")
                             sample_world)))
         (trace (snd (add (u "water plants") (u "2024-05-03 08:00")
                        sample_world))
          ++ [EvTable
                (rows ++ [row_of (mkTask 4 (u "water plants") Pending
                                    (u "2024-05-03 08:00"))])])).
Proof.
  assert (Hh : holds sample_world sample_tasks) by sample_ok.
  split; [exact Hh|].
  destruct (added_task_is_listed_last sample_world sample_tasks
              (u "water plants") (u "2024-05-03 08:00"))
    as (rows & _ & _ & E);
    [exact Hh | sample_ok | sample_ok | sample_ok | sample_ok | by_running |].
  exists rows. exact E.
Defined.

(** ** [done] on a record with another status *)

Lemma list_set_middle {A} (l1 l2 : list A) (x y : A) :
  list_set (l1 ++ x :: l2) (List.length l1) y = l1 ++ y :: l2.
Proof.
  induction l1 as [|a r IH]; [reflexivity|].
  cbn [app List.length list_set]. now rewrite IH.
Qed.

Lemma dict_set_keys (d : list (text * json)) (k : text) (x y : json) :
  lookup k d = Some x -> List.map fst (dict_set d k y) = List.map fst d.
Proof.
  induction d as [|[k' v'] r IH]; [discriminate|].
  cbn [lookup dict_set]. destruct (text_eqb k k'); [reflexivity|].
  intros H. cbn [List.map fst]. now rewrite IH.
Qed.

Lemma dict_set_dumpable (d : list (text * json)) (k : text) (x y : json) :
  lookup k d = Some x -> dumpable (JObj d) -> dumpable y ->
  dumpable (JObj (dict_set d k y)).
Proof.
  intros Hk Hd Hy. apply dumpable_obj in Hd as [Hnd Hall].
  apply dumpable_obj. split; [now rewrite (dict_set_keys d k x y Hk)|].
  clear Hnd. induction d as [|[k' v'] r IH]; [discriminate|].
  inversion Hall as [|? ? [Hk' Hv'] Hr]; subst. cbn [fst snd] in *.
  cbn [lookup dict_set] in *. destruct (text_eqb k k').
  - constructor; [now split | assumption].
  - constructor; [now split | now apply IH].
Qed.

(** X20.  [done] completes a task whatever its status is, as long as it
    is not the text ['done']: for a record with the id looked for and any
    other value under ['status'], the value is replaced by ['done'] in
    place, the other keys of the record and the other records stay as
    they are, and the whole list is written and reads back. *)
Theorem done_completes_any_other_status
  (w : world) (pre : list task) (d : list (text * json)) (rest : list json)
  (k : Z) (st : json) :
  file_decodes w (JArr (List.map task_json pre ++ JObj d :: rest)) ->
  dumpable (JArr (List.map task_json pre ++ JObj d :: rest)) ->
  ~ In k (ids pre) ->
  lookup (u "id") d = Some (JInt k) ->
  lookup (u "status") d = Some st ->
  py_eq_str st (u "done") = false ->
  let updated :=
    JArr (List.map task_json pre
          ++ JObj (dict_set d (u "status") (JStr (u "done"))) :: rest) in
  fst (done k w) = Ret tt /\
  load_tasks (snd (done k w)) = (Ret updated, snd (done k w)) /\
  (exists content, writes (snd (done k w)) = writes w ++ [content]) /\
  List.map fst (dict_set d (u "status") (JStr (u "done"))) = List.map fst d.
Proof.
  intros Hf Hd Hk Hi Hs Hne updated.
  pose proof (file_decodes_load w _ Hf) as E.
  assert (Hu : dumpable updated).
  { unfold updated. apply dumpable_arr. apply dumpable_arr in Hd.
    apply Forall_app in Hd as [Hpre Hd].
    inversion Hd as [|? ? Hobj Hrest]; subst.
    apply Forall_app. split; [exact Hpre|].
    constructor; [|exact Hrest].
    apply (dict_set_dumpable d _ st); [exact Hs | exact Hobj |].
    apply Forall_forall, forallb_forall. vm_compute. reflexivity. }
  destruct (encode_dumpable updated Hu 0%nat) as [c Hc].
  pose proof (json_loads_dumps updated c Hu Hc) as Hl.
  assert (Ed : done k w
               = (Ret tt,
                  mkWorld (Some c)
                    (trace w ++ [EvWrite c; EvPrint (MsgCompleted k)]))).
  { unfold done, bind. rewrite E. cbn [py_iter lift].
    rewrite find_task_past by exact Hk.
    cbn [find_task getitem]. rewrite Hi. cbn [rbind py_eq_int].
    rewrite Z.eqb_refl.
    assert (Ht : truthy (JObj d) = true).
    { destruct d; [discriminate Hi | reflexivity]. }
    rewrite Ht. cbn [negb getitem]. rewrite Hs, Hne.
    cbn [setitem lift Nat.add]. rewrite <- (length_map task_json pre).
    rewrite list_set_middle. fold updated.
    unfold save_tasks, json_dumps. rewrite Hc.
    unfold console_print. cbn [tasks_file trace].
    now rewrite <- List.app_assoc. }
  rewrite Ed. cbn [fst snd]. split; [reflexivity|]. split; [|split].
  - unfold load_tasks. cbn [tasks_file]. now rewrite Hl.
  - exists c. rewrite writes_after. reflexivity.
  - exact (dict_set_keys d _ st _ Hs).
Qed.

Lemma done_completes_any_other_status_witness :
  let w := snd (save_tasks
                  (JArr [JObj [(u "id", JInt 7); (u "status", JNull)]])
                  empty_world) in
  fst (done 7 w) = Ret tt /\
  load_tasks (snd (done 7 w))
  = (Ret (JArr [JObj [(u "id", JInt 7); (u "status", JStr (u "done"))]]),
     snd (done 7 w)).
Proof.
  cbv zeta.
  destruct (done_completes_any_other_status
              (snd (save_tasks
                      (JArr [JObj [(u "id", JInt 7); (u "status", JNull)]])
                      empty_world))
              [] [(u "id", JInt 7); (u "status", JNull)] [] 7%Z JNull)
    as (Hr & Hl & _).
  - eexists. split; [vm_compute; reflexivity | vm_compute; reflexivity].
  - cbn [List.map app dumpable]. repeat split; try plain.
    repeat constructor; cbn; intros H;
      repeat destruct H as [H|H]; (discriminate H || contradiction H).
  - intros [].
  - reflexivity.
  - reflexivity.
  - reflexivity.
  - split; [exact Hr | exact Hl].
Defined.

(** ** What [list] shows of a store *)

(** X21.  On a store whose descriptions the console prints, [list] prints
    one table (or, for an empty store, the no-tasks notice).  With
    [hide_done] the rows of the table are exactly the pending tasks of the
    store, without it exactly all tasks, in both cases by ascending id,
    strictly ascending when the ids of the store are distinct.  The file
    is not touched and nothing is written. *)
Theorem list_filter_correct (w : world) (ts : list task) (hide_done : bool) :
  holds w ts -> console_store ts ->
  exists shown,
    Permutation shown (if hide_done then filter is_pending ts else ts) /\
    StronglySorted (fun a b => (t_id a <= t_id b)%Z) shown /\
    (NoDup (ids ts) ->
     StronglySorted (fun a b => (t_id a < t_id b)%Z) shown) /\
    list_tasks hide_done w
    = (Ret tt,
       mkWorld (tasks_file w)
         (trace w ++
          [match ts with
           | [] => EvPrint MsgNoTasks
           | _ :: _ => EvTable (List.map row_of shown)
           end])) /\
    tasks_file (snd (list_tasks hide_done w)) = tasks_file w /\
    writes (snd (list_tasks hide_done w)) = writes w /\
    holds (snd (list_tasks hide_done w)) ts.
Proof.
  intros H Hc.
  exists (shown_tasks hide_done (sort_tasks ts)).
  rewrite (list_tasks_shows w ts hide_done H Hc). cbn [snd tasks_file].
  assert (Hperm : Permutation (shown_tasks hide_done (sort_tasks ts))
                              (shown_tasks hide_done ts)).
  { apply filter_perm, sort_tasks_perm. }
  assert (Hsort : StronglySorted (fun a b => (t_id a <= t_id b)%Z)
                    (shown_tasks hide_done (sort_tasks ts))).
  { apply filter_sorted, sort_tasks_sorted. }
  repeat split.
  - rewrite Hperm. destruct hide_done;
      [now rewrite shown_tasks_pending | now rewrite shown_tasks_all].
  - exact Hsort.
  - intros Hnd. apply sorted_strict; [|exact Hsort].
    assert (Hp : Permutation (ids (shown_tasks hide_done (sort_tasks ts)))
                             (ids (shown_tasks hide_done ts)))
      by (apply Permutation_map, Hperm).
    apply (Permutation_NoDup (Permutation_sym Hp)).
    now apply nodup_shown.
  - rewrite writes_app. destruct ts; cbn; apply List.app_nil_r.
  - now apply (holds_same_file w).
Qed.

Lemma list_filter_correct_witness :
  holds sample_world sample_tasks /\
  exists shown,
    Permutation shown (filter is_pending sample_tasks) /\
    StronglySorted (fun a b => (t_id a < t_id b)%Z) shown /\
    list_tasks true sample_world
    = (Ret tt, mkWorld (tasks_file sample_world)
                 (trace sample_world ++ [EvTable (List.map row_of shown)])).
Proof.
  assert (Hh : holds sample_world sample_tasks) by sample_ok.
  split; [exact Hh|].
  destruct (list_filter_correct sample_world sample_tasks true Hh)
    as (shown & Hp & _ & Hs & E & _); [sample_ok|].
  exists shown. split; [exact Hp|]. split; [apply Hs; sample_ok | exact E].
Defined.
